(** * A shallow embedding of the maze package (cells, grids, generators,
      corner glyphs) and the properties of its specification.

    The Go sources hold pointer graphs: a grid owns pointers to cells, every
    cell holds four neighbour pointers and a map keyed by cell pointers.  The
    embedding keeps that shape: a heap of cells addressed by allocation
    order, pointers that may be nil, and every operation that may panic
    returns a [result]. *)

From Stdlib Require Import ZArith Lia.
From stdpp Require Import base tactics option numbers list countable gmap.

(** ** Failures and the result monad *)

(** What stops a Go program here: a run-time panic (nil dereference, index
    out of range, an invalid argument to the random source), or [log.Fatalf].
    [InvalidPointer] stands for a pointer to a cell the heap does not hold;
    Go's memory safety excludes it, the model needs it for totality. *)
Inductive failure :=
  | NilDereference
  | IndexOutOfRange
  | InvalidArgument
  | InvalidPointer
  | FatalLog.

Inductive result (A : Type) :=
  | Ok (a : A)
  | Fail (f : failure).
Arguments Ok {A} a.
Arguments Fail {A} f.

#[global] Instance result_ret : MRet result := fun _ a => Ok a.
#[global] Instance result_bind : MBind result := fun _ _ k m =>
  match m with
  | Ok a => k a
  | Fail f => Fail f
  end.

(** A run-time panic, as opposed to the fatal log of invalid configuration. *)
Definition panics {A} (r : result A) : Prop :=
  match r with
  | Fail FatalLog => False
  | Fail _ => True
  | Ok _ => False
  end.

(** [for _, x := range xs { body }] over a state threaded through the body. *)
Fixpoint for_each {A S} (body : A → S → result S) (xs : list A) (s : S)
  : result S :=
  match xs with
  | [] => Ok s
  | x :: rest => s' ← body x s; for_each body rest s'
  end.

(** ** 64-bit integers *)

Definition min_int64 : Z := - 2 ^ 63.
Definition max_int64 : Z := 2 ^ 63 - 1.

(** Two's complement wrap-around of [int64] arithmetic. *)
Definition wrap64 (x : Z) : Z := ((x + 2 ^ 63) mod 2 ^ 64 - 2 ^ 63)%Z.
Definition add64 (x y : Z) : Z := wrap64 (x + y).
Definition sub64 (x y : Z) : Z := wrap64 (x - y).

(** ** Pointers and heaps *)

(** A [*Cell]: nil, or the address of a cell.  Cells are never freed, so an
    address is the number of cells allocated before it. *)
Abbreviation ptr := (option nat).
Abbreviation nilptr := (@None nat).

Section heap.
Context {cell : Type}.

(** [*p] for reading. *)
Definition load (p : ptr) (h : list cell) : result cell :=
  match p with
  | None => Fail NilDereference
  | Some a =>
      match h !! a with
      | Some c => Ok c
      | None => Fail InvalidPointer
      end
  end.

(** [*p = c]. *)
Definition store (p : ptr) (c : cell) (h : list cell) : result (list cell) :=
  match p with
  | None => Fail NilDereference
  | Some a =>
      match h !! a with
      | Some _ => Ok (<[a := c]> h)
      | None => Fail InvalidPointer
      end
  end.

(** [&c] for a fresh variable [c]. *)
Definition alloc (c : cell) (h : list cell) : ptr * list cell :=
  (Some (length h), h ++ [c]).
End heap.

(** ** cell.go: the struct cell *)

(** [links] is a Go map, a reference; [NewCell] makes one per cell and no
    code shares it between cells, so the cell holds it by value here.  Its
    keys are pointers, nil included. *)
Record Cell := mkCell {
  Row : Z;
  Column : Z;
  North : ptr;
  South : ptr;
  East : ptr;
  West : ptr;
  links : gmap ptr bool
}.

Abbreviation heap := (list Cell).

Definition with_links (m : gmap ptr bool) (c : Cell) : Cell :=
  mkCell (Row c) (Column c) (North c) (South c) (East c) (West c) m.

Definition NewCell (row column : Z) : Cell :=
  mkCell row column nilptr nilptr nilptr nilptr ∅.

(** [c.links[neighbor] = true] *)
Definition LinkOneWay (c neighbor : ptr) (h : heap) : result heap :=
  cell ← load c h;
  store c (with_links (<[neighbor := true]> (links cell)) cell) h.

Definition Link (c neighbor : ptr) (h : heap) : result heap :=
  h1 ← LinkOneWay c neighbor h;
  LinkOneWay neighbor c h1.

(** [delete(c.links, neighbor)] *)
Definition UnlinkOneWay (c neighbor : ptr) (h : heap) : result heap :=
  cell ← load c h;
  store c (with_links (delete neighbor (links cell)) cell) h.

Definition Unlink (c neighbor : ptr) (h : heap) : result heap :=
  h1 ← UnlinkOneWay c neighbor h;
  UnlinkOneWay neighbor c h1.

(** The nil test comes first, before the receiver is read. *)
Definition Linked (c neighbor : ptr) (h : heap) : result bool :=
  match neighbor with
  | None => Ok false
  | Some _ =>
      cell ← load c h;
      match links cell !! neighbor with
      | Some linked => Ok (true && linked)
      | None => Ok (false && false)
      end
  end.

Definition Neighbors (c : ptr) (h : heap) : result (list ptr) :=
  cell ← load c h;
  Ok (filter (λ n : ptr, n ≠ nilptr)
        [North cell; South cell; East cell; West cell]).

(** ** Slices *)

(** [l[i]] and [l[i] = x]: Go panics when the index is out of range. *)
Definition index {A} (l : list A) (i : Z) : result A :=
  if decide (0 ≤ i)%Z then
    match l !! Z.to_nat i with
    | Some x => Ok x
    | None => Fail IndexOutOfRange
    end
  else Fail IndexOutOfRange.

Definition store_at {A} (l : list A) (i : Z) (x : A) : result (list A) :=
  if decide (0 ≤ i < Z.of_nat (length l))%Z then Ok (<[Z.to_nat i := x]> l)
  else Fail IndexOutOfRange.

(** ** math/rand *)

(** The random source is an external collaborator.  Its state is the stream
    of values it is going to produce, and a count of the draws made so far.
    A draw with bound [n] reduces the next value into [0, n); letting the
    stream range over all lists covers every behaviour of the generator.
    As in math/rand, a bound that is not positive panics. *)
Record Rand := mkRand {
  tape : list Z;
  draws : nat
}.

Definition Intn (n : Z) (s : Rand) : result (Z * Rand) :=
  if decide (n ≤ 0)%Z then Fail InvalidArgument
  else Ok (match tape s with
           | [] => 0%Z
           | v :: _ => (v mod n)%Z
           end,
           mkRand (tail (tape s)) (S (draws s))).

Definition Int63n (n : Z) (s : Rand) : result (Z * Rand) := Intn n s.

(** [rand.Seed(seed)]: the source restarts on the stream of the seed;
    [stream] stands for the generator of math/rand. *)
Definition Seed (stream : Z → list Z) (seed : Z) (s : Rand) : Rand :=
  mkRand (stream seed) (draws s).

(** ** grid.go, and the RectangleGrid of README.md *)

(** The repository holds the grid twice, over [*Cell] (grid.go) and over
    [*RectangleCell] (README.md); the two texts differ in the cell type and
    in [cell.Row] against [cell.Row()] only.  The grid is therefore written
    once, over what it needs of a cell. *)
Class GridCell (cell : Type) := {
  new_cell : Z → Z → cell;
  cell_row : cell → Z;
  cell_column : cell → Z;
  set_North : ptr → cell → cell;
  set_South : ptr → cell → cell;
  set_West : ptr → cell → cell;
  set_East : ptr → cell → cell
}.

Record Grid := mkGrid {
  Rows : Z;
  Columns : Z;
  grid : list (list ptr)
}.

Definition At (g : Grid) (row column : Z) : result ptr :=
  if decide (row < 0 ∨ column < 0 ∨ row >= Rows g ∨ column >= Columns g)%Z
  then Ok nilptr
  else r ← index (grid g) row; index r column.

(** [AllRows] and [AllCells] hand the rows, or the cells, one by one over
    an unbuffered channel; the consumer sees them in the order of the slices,
    which no loop over them changes.  They are modelled by the sequences
    they deliver. *)
Definition AllRows (g : Grid) : list (list ptr) := grid g.

Definition AllCells (g : Grid) : list ptr := concat (grid g).

Definition Size (g : Grid) : Z := wrap64 (Rows g * Columns g).

Section grid.
Context {cell : Type} `{GridCell cell}.

(** [cell := NewCell(r, c); g.grid[r][c] = &cell] *)
Definition prepareCell (r c : Z) (st : Grid * list cell)
  : result (Grid * list cell) :=
  let '(g, h) := st in
  let '(p, h') := alloc (new_cell r c) h in
  row ← index (grid g) r;
  row' ← store_at row c p;
  rows' ← store_at (grid g) r row';
  Ok (mkGrid (Rows g) (Columns g) rows', h').

Definition prepareRow (r : Z) (st : Grid * list cell)
  : result (Grid * list cell) :=
  let '(g, h) := st in
  rows' ← store_at (grid g) r (replicate (Z.to_nat (Columns g)) nilptr);
  let g' := mkGrid (Rows g) (Columns g) rows' in
  for_each (prepareCell r) (seqZ 0 (Columns g')) (g', h).

Definition prepareGrid (g : Grid) (h : list cell)
  : result (Grid * list cell) :=
  for_each prepareRow (seqZ 0 (Rows g)) (g, h).

(** One iteration of [configureCells]: four assignments to fields of
    [*p], each reading the cell's own coordinates. *)
Definition configureCell (g : Grid) (p : ptr) (h : list cell)
  : result (list cell) :=
  c ← load p h;
  n ← At g (sub64 (cell_row c) 1) (cell_column c);
  h ← store p (set_North n c) h;
  c ← load p h;
  n ← At g (add64 (cell_row c) 1) (cell_column c);
  h ← store p (set_South n c) h;
  c ← load p h;
  n ← At g (cell_row c) (sub64 (cell_column c) 1);
  h ← store p (set_West n c) h;
  c ← load p h;
  n ← At g (cell_row c) (add64 (cell_column c) 1);
  store p (set_East n c) h.

Definition configureCells (g : Grid) (h : list cell) : result (list cell) :=
  for_each (configureCell g) (AllCells g) h.

(** [log.Fatalf] on a negative dimension; [make([][]*Cell, rows)] gives
    [rows] nil slices.  Memory is not bounded in the model. *)
Definition NewGrid (rows columns : Z) (h : list cell)
  : result (Grid * list cell) :=
  if decide (rows < 0 ∨ columns < 0)%Z then Fail FatalLog
  else
    let g := mkGrid rows columns (replicate (Z.to_nat rows) []) in
    '(g, h) ← prepareGrid g h;
    h ← configureCells g h;
    Ok (g, h).
End grid.

(** [RandomCell] of grid.go: it seeds the source from the clock ([now]),
    then draws the row before the column. *)
Definition RandomCell (g : Grid) (stream : Z → list Z) (now : Z) (s : Rand)
  : result (ptr * Rand) :=
  let s := Seed stream now s in
  '(r, s) ← Int63n (Rows g) s;
  '(c, s) ← Int63n (Columns g) s;
  p ← At g r c;
  Ok (p, s).

#[global] Instance Cell_GridCell : GridCell Cell := {|
  new_cell := NewCell;
  cell_row := Row;
  cell_column := Column;
  set_North p c :=
    mkCell (Row c) (Column c) p (South c) (East c) (West c) (links c);
  set_South p c :=
    mkCell (Row c) (Column c) (North c) p (East c) (West c) (links c);
  set_West p c :=
    mkCell (Row c) (Column c) (North c) (South c) (East c) p (links c);
  set_East p c :=
    mkCell (Row c) (Column c) (North c) (South c) p (West c) (links c)
|}.

(** ** The binary tree generator *)

(** The slice [neighbors] that an iteration of [BinaryTree] builds. *)
Definition BinaryTree_neighbors (c : Cell) : list ptr :=
  let neighbors : list ptr := [] in
  let neighbors :=
    if decide (North c ≠ nilptr) then neighbors ++ [North c] else neighbors in
  let neighbors :=
    if decide (East c ≠ nilptr) then neighbors ++ [East c] else neighbors in
  neighbors.

(** One iteration of the loop of [BinaryTree]; the third component of the
    state counts the iterations. *)
Definition BinaryTree_cell (cell : ptr) (st : heap * Rand * nat)
  : result (heap * Rand * nat) :=
  let '(h, rnd, iterations) := st in
  c ← load cell h;
  let neighbors := BinaryTree_neighbors c in
  if decide (0 < length neighbors) then
    '(i, rnd') ← Intn (Z.of_nat (length neighbors)) rnd;
    n ← index neighbors i;
    h' ← Link cell n h;
    Ok (h', rnd', S iterations)
  else Ok (h, rnd, S iterations).

Definition BinaryTree (g : Grid) (h : heap) (rnd : Rand)
  : result (heap * Rand * nat) :=
  for_each BinaryTree_cell (AllCells g) (h, rnd, 0).

(** ** The interface cell: CellBase and RectangleCell *)

Module Rect.

(** A value of the interface type [Cell]: the nil interface, or a dynamic
    type with a pointer of that type.  Two interface values are equal, as
    map keys too, when dynamic type and pointer agree.  A [*CellBase] only
    ever points to the [base] field of a [RectangleCell], and is modelled
    by the address of that cell. *)
Inductive CellRef :=
  | NilCell
  | BasePtr (p : ptr)
  | RectPtr (p : ptr).

#[global] Instance CellRef_eq_dec : EqDecision CellRef.
Proof. solve_decision. Defined.

#[global] Instance CellRef_countable : Countable CellRef.
Proof.
  refine (inj_countable'
    (λ r, match r with
          | NilCell => inl ()
          | BasePtr p => inr (inl p)
          | RectPtr p => inr (inr p)
          end)
    (λ x, match x with
          | inl _ => NilCell
          | inr (inl p) => BasePtr p
          | inr (inr p) => RectPtr p
          end) _).
  by intros [].
Defined.

Record CellBase := mkCellBase {
  row : Z;
  column : Z;
  links : gmap CellRef bool
}.

Record RectangleCell := mkRectangleCell {
  North : ptr;
  South : ptr;
  East : ptr;
  West : ptr;
  base : CellBase
}.

Definition newCellBase (r c : Z) : CellBase := mkCellBase r c ∅.

Definition NewRectangleCell (r c : Z) : RectangleCell :=
  mkRectangleCell nilptr nilptr nilptr nilptr (newCellBase r c).

Definition with_links (m : gmap CellRef bool) (c : RectangleCell)
  : RectangleCell :=
  mkRectangleCell (North c) (South c) (East c) (West c)
    (mkCellBase (row (base c)) (column (base c)) m).

(** [func (c *CellBase) LinkOneWay(neighbor Cell)], the receiver being
    the base of the cell at [c]. *)
Definition CellBase_LinkOneWay (c : ptr) (neighbor : CellRef)
    (h : list RectangleCell) : result (list RectangleCell) :=
  cell ← load c h;
  store c (with_links (<[neighbor := true]> (links (base cell))) cell) h.

(** [func (c *RectangleCell) LinkOneWay(neighbor Cell)]: [c.base] of a
    nil [c] panics, as [load] does. *)
Definition RectangleCell_LinkOneWay (c : ptr) (neighbor : CellRef)
    (h : list RectangleCell) : result (list RectangleCell) :=
  CellBase_LinkOneWay c neighbor h.

(** [neighbor.LinkOneWay(c)] through the interface: dynamic dispatch. *)
Definition Cell_LinkOneWay (recv : CellRef) (neighbor : CellRef)
    (h : list RectangleCell) : result (list RectangleCell) :=
  match recv with
  | NilCell => Fail NilDereference
  | BasePtr p => CellBase_LinkOneWay p neighbor h
  | RectPtr p => RectangleCell_LinkOneWay p neighbor h
  end.

(** [func (c *CellBase) Link(neighbor Cell)]: the receiver handed to the
    neighbour is the [*CellBase] itself. *)
Definition CellBase_Link (c : ptr) (neighbor : CellRef)
    (h : list RectangleCell) : result (list RectangleCell) :=
  h1 ← CellBase_LinkOneWay c neighbor h;
  Cell_LinkOneWay neighbor (BasePtr c) h1.

(** [func (c *RectangleCell) Link(neighbor Cell)] *)
Definition RectangleCell_Link (c : ptr) (neighbor : CellRef)
    (h : list RectangleCell) : result (list RectangleCell) :=
  match c with
  | None => Fail NilDereference
  | Some _ => CellBase_Link c neighbor h
  end.

(** [func (c *CellBase) Linked(neighbor Cell) bool]: only the nil
    interface is nil. *)
Definition CellBase_Linked (c : ptr) (neighbor : CellRef)
    (h : list RectangleCell) : result bool :=
  match neighbor with
  | NilCell => Ok false
  | _ =>
      cell ← load c h;
      match links (base cell) !! neighbor with
      | Some linked => Ok (true && linked)
      | None => Ok (false && false)
      end
  end.

Definition RectangleCell_Linked (c : ptr) (neighbor : CellRef)
    (h : list RectangleCell) : result bool :=
  match c with
  | None => Fail NilDereference
  | Some _ => CellBase_Linked c neighbor h
  end.

#[global] Instance RectangleCell_GridCell : GridCell RectangleCell := {|
  new_cell := NewRectangleCell;
  cell_row c := row (base c);
  cell_column c := column (base c);
  set_North p c := mkRectangleCell p (South c) (East c) (West c) (base c);
  set_South p c := mkRectangleCell (North c) p (East c) (West c) (base c);
  set_West p c := mkRectangleCell (North c) (South c) (East c) p (base c);
  set_East p c := mkRectangleCell (North c) (South c) p (West c) (base c)
|}.

End Rect.

(** ** The sidewinder generator *)

(** [atEasternBoundary || (!atNorthernBoundary && rand.Intn(2) == 0)], with
    the short-circuit evaluation of Go written out: the coin is drawn only
    when both tests before it let it be. *)
Definition shouldCloseOut (c : Rect.RectangleCell) (rnd : Rand)
  : result (bool * Rand) :=
  let atEasternBoundary := bool_decide (Rect.East c = nilptr) in
  let atNorthernBoundary := bool_decide (Rect.North c = nilptr) in
  if atEasternBoundary then Ok (true, rnd)
  else if negb atNorthernBoundary then
    '(coin, rnd') ← Intn 2 rnd;
    Ok (bool_decide (coin = 0%Z), rnd')
  else Ok (false, rnd).

(** The branch taken on a close-out. *)
Definition closeOut (run : list ptr) (h : list Rect.RectangleCell) (rnd : Rand)
  : result (list Rect.RectangleCell * Rand) :=
  '(i, rnd') ← Intn (Z.of_nat (length run)) rnd;
  member ← index run i;
  m ← load member h;
  if decide (Rect.North m ≠ nilptr) then
    h' ← Rect.RectangleCell_Link member (Rect.RectPtr (Rect.North m)) h;
    Ok (h', rnd')
  else Ok (h, rnd').

(** The state of the inner loop: the slice [run], the heap, the random
    source, and a record of the value of [run] at every close-out of the
    row so far (the record is not part of the program). *)
Definition Sidewinder_cell (cell : ptr)
    (st : list ptr * list Rect.RectangleCell * Rand * list (list ptr))
  : result (list ptr * list Rect.RectangleCell * Rand * list (list ptr)) :=
  let '(run, h, rnd, closed) := st in
  let run := run ++ [cell] in
  c ← load cell h;
  '(close, rnd) ← shouldCloseOut c rnd;
  if close : bool then
    '(h', rnd') ← closeOut run h rnd;
    Ok (run, h', rnd', closed ++ [run])
  else
    h' ← Rect.RectangleCell_Link cell (Rect.RectPtr (Rect.East c)) h;
    Ok (run, h', rnd, closed).

(** One iteration of the outer loop; [run] starts empty in every row. *)
Definition Sidewinder_row (row : list ptr)
    (st : list Rect.RectangleCell * Rand * list (list (list ptr)))
  : result (list Rect.RectangleCell * Rand * list (list (list ptr))) :=
  let '(h, rnd, runs) := st in
  let run : list ptr := [] in
  '(_, h', rnd', closed) ← for_each Sidewinder_cell row (run, h, rnd, []);
  Ok (h', rnd', runs ++ [closed]).

(** The result holds, row by row, the runs as they were closed out. *)
Definition Sidewinder (g : Grid) (h : list Rect.RectangleCell) (rnd : Rand)
  : result (list Rect.RectangleCell * Rand * list (list (list ptr))) :=
  for_each Sidewinder_row (AllRows g) (h, rnd, []).

(** ** The corner glyphs of README.md *)

Definition rune := Z.

Definition blank : rune := 0x20%Z.
Definition horizontal : rune := 0x2500%Z.
Definition vertical : rune := 0x2502%Z.
Definition cornerDownRight : rune := 0x250c%Z.
Definition cornerDownLeft : rune := 0x2510%Z.
Definition cornerUpRight : rune := 0x2514%Z.
Definition cornerUpLeft : rune := 0x2518%Z.
Definition verticalRight : rune := 0x251c%Z.
Definition verticalLeft : rune := 0x2524%Z.
Definition horizontalDown : rune := 0x252c%Z.
Definition horizontalUp : rune := 0x2534%Z.
Definition intersection : rune := 0x253c%Z.

Definition glyphs : list rune := [
  blank;
  vertical;
  vertical;
  vertical;
  horizontal;
  cornerUpLeft;
  cornerDownLeft;
  verticalLeft;
  horizontal;
  cornerUpRight;
  cornerDownRight;
  verticalRight;
  horizontal;
  horizontalUp;
  horizontalDown;
  intersection
].

Definition glyphIndex (up left down right : bool) : Z :=
  let idx := 0%Z in
  let idx := if up then Z.lor idx 1 else idx in
  let idx := if down then Z.lor idx 2 else idx in
  let idx := if left then Z.lor idx 4 else idx in
  let idx := if right then Z.lor idx 8 else idx in
  idx.

Definition cornerGlyph (up left down right : bool) : result rune :=
  index glyphs (glyphIndex up left down right).

(** ** Rendering: [toString] of README.md, over the struct cell *)

(** A Go string is modelled by the sequence of its runes; [string(r)] is
    the one-rune sequence.  The [debug] branch, a constant false, is left
    out. *)
Definition newline : rune := 0x0a%Z.

Definition pointsDown (r : rune) : bool :=
  if decide (r = vertical ∨ r = cornerDownRight ∨ r = cornerDownLeft
             ∨ r = verticalRight ∨ r = verticalLeft ∨ r = intersection)
  then true else false.

Definition pointsRight (r : rune) : bool :=
  if decide (r = horizontal ∨ r = cornerDownRight ∨ r = cornerUpRight
             ∨ r = verticalRight ∨ r = horizontalDown ∨ r = horizontalUp
             ∨ r = intersection)
  then true else false.

(** [(b == nil) || !a.Linked(b)]: [Linked] is not called for a nil [b]. *)
Definition wallTo (a b : ptr) (h : heap) : result bool :=
  if decide (b = nilptr) then Ok true
  else l ← Linked a b h; Ok (negb l).

Definition upperLeftCornerGlyph (g : Grid) (h : heap) (row column : Z)
  : result rune :=
  ul ← At g (sub64 row 1) (sub64 column 1);
  ur ← At g (sub64 row 1) column;
  ll ← At g row (sub64 column 1);
  lr ← At g row column;
  upLeft ←
    (if decide (ul ≠ nilptr) then
       up ← wallTo ul ur h;
       left ← wallTo ul ll h;
       Ok (up, left)
     else Ok (bool_decide (ur ≠ nilptr), bool_decide (ll ≠ nilptr)));
  downRight ←
    (if decide (lr ≠ nilptr) then
       down ← wallTo lr ll h;
       right ← wallTo lr ur h;
       Ok (down, right)
     else Ok (bool_decide (ll ≠ nilptr), bool_decide (ur ≠ nilptr)));
  cornerGlyph upLeft.1 upLeft.2 downRight.1 downRight.2.

(** [horizontalLine] and [horizontalSpace], built rune by rune. *)
Definition toString_fill (horizontalSize : Z) : list rune * list rune :=
  foldl (λ st _, (st.1 ++ [horizontal], st.2 ++ [blank])) ([], [])
    (seqZ 0 horizontalSize).

(** [cell == nil || !cell.Linked(n)], [n] being a field read from [cell]. *)
Definition notLinkedTo (cell : ptr) (field : Cell → ptr) (h : heap)
  : result bool :=
  if decide (cell = nilptr) then Ok true
  else
    c ← load cell h;
    l ← Linked cell (field c) h;
    Ok (negb l).

(** One iteration of the loop over the columns; the state holds [topEdge]
    and [area]. *)
Definition toString_cell (g : Grid) (h : heap)
    (horizontalLine horizontalSpace : list rune) (r c : Z)
    (st : list rune * list rune) : result (list rune * list rune) :=
  let '(topEdge, area) := st in
  cell ← At g r c;
  ul ← upperLeftCornerGlyph g h r c;
  let topEdge := topEdge ++ [ul] in
  line ← (if pointsRight ul then notLinkedTo cell North h else Ok false);
  let topEdge :=
    if line : bool then topEdge ++ horizontalLine
    else topEdge ++ horizontalSpace in
  wall ← (if pointsDown ul then notLinkedTo cell West h else Ok false);
  let area := if wall : bool then area ++ [vertical] else area ++ [blank] in
  let area := area ++ horizontalSpace in
  Ok (topEdge, area).

(** One iteration of the loop over the rows; the state is [output]. *)
Definition toString_row (g : Grid) (h : heap)
    (horizontalLine horizontalSpace : list rune) (verticalSize : Z) (r : Z)
    (output : list rune) : result (list rune) :=
  '(topEdge, area) ←
    for_each (toString_cell g h horizontalLine horizontalSpace r)
      (seqZ 0 (Columns g + 1)) ([], []);
  let output := output ++ topEdge ++ [newline] in
  if decide (r < Rows g)%Z then
    Ok (foldl (λ out _, out ++ area ++ [newline]) output
          (seqZ 0 verticalSize))
  else Ok output.

(** The loops run up to [g.Rows] and [g.Columns] inclusive.  Their
    counters do not wrap around below [max_int64] rows and columns, which
    is all the model covers. *)
Definition toString (g : Grid) (h : heap) (horizontalSize verticalSize : Z)
  : result (list rune) :=
  if decide (horizontalSize < 1 ∨ verticalSize < 1)%Z then Fail FatalLog
  else
    let fill := toString_fill horizontalSize in
    for_each (toString_row g h fill.1 fill.2 verticalSize)
      (seqZ 0 (Rows g + 1)) [].

Definition ToString (g : Grid) (h : heap) : result (list rune) :=
  toString g h 3 1.

#[global] Instance failure_eq_dec : EqDecision failure.
Proof. solve_decision. Defined.

#[global] Instance result_eq_dec {A} `{EqDecision A} : EqDecision (result A).
Proof. solve_decision. Defined.

(** What [cornerGlyph] returns on the sixteen combinations of directions. *)
Definition cornerGlyphs : list (result rune) :=
  up ← [false; true];
  left ← [false; true];
  down ← [false; true];
  right ← [false; true];
  [cornerGlyph up left down right].

(** ** Vocabulary of the statements *)

(** What the grid code relies on: the setters of the neighbour fields leave
    the coordinates alone. *)
Class GridCellLaws (cell : Type) `{GridCell cell} := {
  row_new r c : cell_row (new_cell r c) = r;
  column_new r c : cell_column (new_cell r c) = c;
  row_set_North p x : cell_row (set_North p x) = cell_row x;
  column_set_North p x : cell_column (set_North p x) = cell_column x;
  row_set_South p x : cell_row (set_South p x) = cell_row x;
  column_set_South p x : cell_column (set_South p x) = cell_column x;
  row_set_West p x : cell_row (set_West p x) = cell_row x;
  column_set_West p x : cell_column (set_West p x) = cell_column x
}.

(** The address of the cell of row [i] and column [j], in a grid of [Cn]
    columns whose cells were allocated from address [base] on. *)
Definition addr (base Cn i j : nat) : nat := base + i * Cn + j.

(** The pointer which the grid holds for the coordinates [r], [c]: nil
    outside of the grid. *)
Definition cell_at (base Rn Cn : nat) (r c : Z) : ptr :=
  if decide (0 ≤ r < Z.of_nat Rn ∧ 0 ≤ c < Z.of_nat Cn)%Z
  then Some (addr base Cn (Z.to_nat r) (Z.to_nat c))
  else nilptr.

(** The slices of a grid of [Rn] rows and [Cn] columns, as they are once
    the first [n] rows are complete. *)
Definition rows_ok (base Rn Cn n : nat) (rows : list (list ptr)) : Prop :=
  length rows = Rn
  ∧ ∀ i, i < n →
      ∃ row, rows !! i = Some row
             ∧ length row = Cn
             ∧ ∀ j, j < Cn → row !! j = Some (Some (addr base Cn i j)).

Definition grid_ok (base Rn Cn : nat) (g : Grid) : Prop :=
  Rows g = Z.of_nat Rn ∧ Columns g = Z.of_nat Cn
  ∧ rows_ok base Rn Cn Rn (grid g).

(** The cell of row [i] and column [j] as [configureCells] leaves it. *)
Definition configured {cell} `{GridCell cell} (base Rn Cn i j : nat) : cell :=
  let r := Z.of_nat i in
  let c := Z.of_nat j in
  set_East (cell_at base Rn Cn r (c + 1))
    (set_West (cell_at base Rn Cn r (c - 1))
       (set_South (cell_at base Rn Cn (r + 1) c)
          (set_North (cell_at base Rn Cn (r - 1) c) (new_cell r c)))).

(** Row-major order of coordinates: [(i', j')] comes before [(i, j)]. *)
Definition before (i' j' i j : nat) : Prop := i' < i ∨ (i' = i ∧ j' < j).

(** The heap while the cells are created: the cells before [(i, j)] are
    there, fresh, and nothing else was touched. *)
Definition heap_new {cell} `{GridCell cell} (base Cn : nat)
    (h0 h : list cell) (i j : nat) : Prop :=
  length h = addr base Cn i j
  ∧ (∀ k, k < base → h !! k = h0 !! k)
  ∧ ∀ i' j', j' < Cn → before i' j' i j →
      h !! addr base Cn i' j'
      = Some (new_cell (Z.of_nat i') (Z.of_nat j')).

(** The state while row [i] is filled, [j] of its cells being there. *)
Definition row_inv {cell} `{GridCell cell} (base Rn Cn : nat)
    (h0 : list cell) (i j : nat) (st : Grid * list cell) : Prop :=
  Rows st.1 = Z.of_nat Rn ∧ Columns st.1 = Z.of_nat Cn
  ∧ rows_ok base Rn Cn i (grid st.1)
  ∧ (∃ row, grid st.1 !! i = Some row ∧ length row = Cn
            ∧ ∀ j', j' < j → row !! j' = Some (Some (addr base Cn i j')))
  ∧ heap_new base Cn h0 st.2 i j.

Definition rows_inv {cell} `{GridCell cell} (base Rn Cn : nat)
    (h0 : list cell) (i : nat) (st : Grid * list cell) : Prop :=
  Rows st.1 = Z.of_nat Rn ∧ Columns st.1 = Z.of_nat Cn
  ∧ rows_ok base Rn Cn i (grid st.1)
  ∧ heap_new base Cn h0 st.2 i 0.

(** The heap while the neighbours are wired: the cells before [(i, j)]
    are configured, the others are as they were created. *)
Definition heap_cfg {cell} `{GridCell cell} (base Rn Cn : nat)
    (h0 h : list cell) (i j : nat) : Prop :=
  length h = base + Rn * Cn
  ∧ (∀ k, k < base → h !! k = h0 !! k)
  ∧ ∀ i' j', i' < Rn → j' < Cn →
      h !! addr base Cn i' j'
      = Some (if decide (before i' j' i j)
              then configured base Rn Cn i' j'
              else new_cell (Z.of_nat i') (Z.of_nat j')).

(** Link sets only grow under [LinkOneWay]. *)
Definition more_links (m m' : gmap ptr bool) : Prop :=
  ∀ q, m !! q = Some true → m' !! q = Some true.

(** When the binary tree loop has reached [(i, j)], the cell [(i', j')] is
    known to hold a link: it was visited and has a neighbour to the north
    or to the east, or it is the north-east corner and the one cell whose
    only choice it is was visited. *)
Definition guaranteed (Cn i' j' i j : nat) : Prop :=
  (before i' j' i j ∧ (0 < i' ∨ j' + 1 < Cn))
  ∨ (i' = 0 ∧ j' + 1 = Cn
     ∧ ((2 ≤ Cn ∧ before 0 (Cn - 2) i j) ∨ (Cn = 1 ∧ before 1 0 i j))).

Definition BinaryTree_inv (base Rn Cn : nat) (h_init : heap) (i j : nat)
    (st : heap * Rand * nat) : Prop :=
  st.2 = i * Cn + j
  ∧ (Rn = 1 → Cn = 1 → st.1.1 = h_init)
  ∧ ∀ i' j', i' < Rn → j' < Cn →
      ∃ m, st.1.1 !! addr base Cn i' j'
           = Some (with_links m (configured base Rn Cn i' j'))
           ∧ (guaranteed Cn i' j' i j →
              ∃ i'' j'', i'' < Rn ∧ j'' < Cn
                         ∧ m !! Some (addr base Cn i'' j'') = Some true).

(** The heap of a grid of interface cells, whatever links were made: every
    cell is as [configureCells] left it, up to its link set. *)
Definition rect_ok (base Rn Cn : nat) (h : list Rect.RectangleCell) : Prop :=
  ∀ i j, i < Rn → j < Cn →
    ∃ m, h !! addr base Cn i j
         = Some (Rect.with_links m (configured base Rn Cn i j)).

(** The state of the inner loop of [Sidewinder] in row [i], [j] cells of
    the row being done: [run] holds all of them; every close-out so far
    recorded a prefix of the row; at the end of the row the last close-out
    recorded the row; the first row has no close-out before its end, and
    makes no draw before it. *)
Definition Sidewinder_row_inv (base Rn Cn i : nat) (row : list ptr)
    (rnd0 : Rand) (j : nat)
    (st : list ptr * list Rect.RectangleCell * Rand * list (list ptr))
  : Prop :=
  st.1.1.1 = take j row
  ∧ rect_ok base Rn Cn st.1.1.2
  ∧ (∀ r, r ∈ st.2 → ∃ k, k < j ∧ r = take (S k) row)
  ∧ (j = Cn → last st.2 = Some row)
  ∧ (i = 0 →
     if decide (j < Cn) then st.2 = [] ∧ st.1.2 = rnd0
     else st.2 = [row] ∧ draws st.1.2 = S (draws rnd0)).

Definition Sidewinder_inv (base Rn Cn : nat) (g : Grid) (i : nat)
    (st : list Rect.RectangleCell * Rand * list (list (list ptr))) : Prop :=
  rect_ok base Rn Cn st.1.1
  ∧ length st.2 = i
  ∧ ∀ i' row closed,
      grid g !! i' = Some row → st.2 !! i' = Some closed →
      (∀ r, r ∈ closed → ∃ k, k < Cn ∧ r = take (S k) row)
      ∧ last closed = Some row
      ∧ (i' = 0 → closed = [row]).

(** What [a.Link(b)] and [a.Unlink(b)] do to the link set [m] of the cell
    at address [k]. *)
Definition link_keys (a b k : nat) (m : gmap ptr bool) : gmap ptr bool :=
  let m1 := if decide (k = a) then <[Some b := true]> m else m in
  if decide (k = b) then <[Some a := true]> m1 else m1.

Definition unlink_keys (a b k : nat) (m : gmap ptr bool) : gmap ptr bool :=
  let m1 := if decide (k = a) then delete (Some b) m else m in
  if decide (k = b) then delete (Some a) m1 else m1.

(** The binary tree loop, told by the choices it made.  [ch i j] says
    whether the cell [(i, j)], once visited, was linked to the north (or
    else to the east); [bt_chose] says that [(i1, j1)] was visited before
    the loop reached [(i, j)], is not the north-east corner, and chose
    [(i2, j2)]. *)
Definition bt_target (north : bool) (i j : nat) : nat * nat :=
  if north then (i - 1, j) else (i, j + 1).

Definition bt_chose (Rn Cn : nat) (ch : nat → nat → bool) (i j : nat)
    (i1 j1 i2 j2 : nat) : Prop :=
  before i1 j1 i j ∧ i1 < Rn ∧ j1 < Cn ∧ (0 < i1 ∨ j1 + 1 < Cn)
  ∧ (i2, j2) = bt_target (ch i1 j1) i1 j1.

Definition bt_valid (Rn Cn : nat) (ch : nat → nat → bool) (i j : nat)
  : Prop :=
  ∀ i1 j1, before i1 j1 i j → i1 < Rn → j1 < Cn → 0 < i1 ∨ j1 + 1 < Cn →
    (ch i1 j1 = true → 0 < i1) ∧ (ch i1 j1 = false → j1 + 1 < Cn).

(** The link set of [(i1, j1)] holds exactly the cells it chose and the
    cells that chose it, all with the value true. *)
Definition bt_links (base Rn Cn : nat) (ch : nat → nat → bool) (i j : nat)
    (i1 j1 : nat) (m : gmap ptr bool) : Prop :=
  ∀ q v, m !! q = Some v
         ↔ v = true
           ∧ ∃ i2 j2, i2 < Rn ∧ j2 < Cn ∧ q = Some (addr base Cn i2 j2)
                      ∧ (bt_chose Rn Cn ch i j i1 j1 i2 j2
                         ∨ bt_chose Rn Cn ch i j i2 j2 i1 j1).

Definition BinaryTree_inv2 (base Rn Cn : nat) (h_init : heap) (rnd0 : Rand)
    (i j : nat) (st : heap * Rand * nat) : Prop :=
  ∃ ch,
    bt_valid Rn Cn ch i j
    ∧ st.2 = i * Cn + j
    ∧ draws st.1.2 + (if decide (before 0 (Cn - 1) i j) then 1 else 0)
      = draws rnd0 + st.2
    ∧ length st.1.1 = length h_init
    ∧ (∀ k, k < base → st.1.1 !! k = h_init !! k)
    ∧ ∀ i1 j1, i1 < Rn → j1 < Cn →
        ∃ m, st.1.1 !! addr base Cn i1 j1
             = Some (with_links m (configured base Rn Cn i1 j1))
             ∧ bt_links base Rn Cn ch i j i1 j1 m.

(** After the loop: [(i1, j1)] chose [(i2, j2)], or was chosen by it. *)
Definition bt_passage (Cn : nat) (ch : nat → nat → bool)
    (i1 j1 i2 j2 : nat) : Prop :=
  ((0 < i1 ∨ j1 + 1 < Cn) ∧ (i2, j2) = bt_target (ch i1 j1) i1 j1)
  ∨ ((0 < i2 ∨ j2 + 1 < Cn) ∧ (i1, j1) = bt_target (ch i2 j2) i2 j2).

(** [h'] holds the cells of [h] with, at most, other link sets. *)
Definition same_cells (h h' : heap) : Prop :=
  ∀ k c, h !! k = Some c → ∃ m, h' !! k = Some (with_links m c).

(** [w] tells whether a wall separates the places [a] and [b] of two
    adjacent cells: no wall where both are outside of the grid, a wall
    where one is, and a wall between two cells when [a] is not linked to
    [b]. *)
Definition wall_between (h : heap) (a b : ptr) (w : bool) : Prop :=
  match a, b with
  | None, None => w = false
  | Some _, Some _ => Linked a b h = Ok (negb w)
  | _, _ => w = true
  end.

(** The line [toString] draws for the inside of the first row of cells. *)
Definition first_area (C horizontalSize : Z) : list rune :=
  [vertical]
  ++ replicate (Z.to_nat (C * (horizontalSize + 1) - 1)) blank
  ++ [vertical]
  ++ replicate (Z.to_nat horizontalSize) blank.

(** The keys [Sidewinder] can leave in the link set of the cell of row [i]
    and column [j]: the cells north and east of it as [*RectangleCell],
    the cells south and west of it as [*CellBase]. *)
Definition sw_allowed (base Rn Cn i j : nat) (q : Rect.CellRef) : Prop :=
  (0 < i ∧ q = Rect.RectPtr (Some (addr base Cn (i - 1) j)))
  ∨ (j + 1 < Cn ∧ q = Rect.RectPtr (Some (addr base Cn i (j + 1))))
  ∨ (i + 1 < Rn ∧ q = Rect.BasePtr (Some (addr base Cn (i + 1) j)))
  ∨ (0 < j ∧ q = Rect.BasePtr (Some (addr base Cn i (j - 1)))).

(** The heap while [Sidewinder] runs: every cell is as [configureCells]
    left it, with allowed keys only, and the first [n] cells of the first
    row are linked to the cell east of them. *)
Definition sw_ok (base Rn Cn n : nat) (h : list Rect.RectangleCell) : Prop :=
  ∀ i j, i < Rn → j < Cn →
    ∃ m, h !! addr base Cn i j
         = Some (Rect.with_links m (configured base Rn Cn i j))
         ∧ (∀ q b, m !! q = Some b → sw_allowed base Rn Cn i j q)
         ∧ (i = 0 → j < n → j + 1 < Cn →
            m !! Rect.RectPtr (Some (addr base Cn 0 (j + 1))) = Some true).

(** [h1] holds the interface cells of [h] with, at most, other link sets. *)
Definition same_rect_cells (h h1 : list Rect.RectangleCell) : Prop :=
  ∀ k c, h !! k = Some c → ∃ m, h1 !! k = Some (Rect.with_links m c).

(** * Properties *)

(** ** Heap and monad lemmas *)

Lemma bind_Ok_l {A B} (a : A) (k : A → result B) : Ok a ≫= k = k a.
Proof. reflexivity. Qed.

Lemma for_each_inv {A St} (I : nat → St → Prop) (body : A → St → result St)
    (xs : list A) (s0 : St) :
  I 0 s0 →
  (∀ i x s, xs !! i = Some x → I i s →
            ∃ s', body x s = Ok s' ∧ I (S i) s') →
  ∃ s', for_each body xs s0 = Ok s' ∧ I (length xs) s'.
Proof.
  revert I s0. induction xs as [|x xs IH]; intros I s0 H0 Hstep.
  - exists s0. by split.
  - destruct (Hstep 0 x s0) as (s1 & E1 & I1); [done|done|].
    cbn [for_each]. rewrite E1, bind_Ok_l.
    apply (IH (λ i, I (S i))); [done|].
    intros i y s Hy Hi. by apply (Hstep (S i)).
Qed.

Lemma for_each_app {A St} (body : A → St → result St) (xs ys : list A) (s : St) :
  for_each body (xs ++ ys) s
  = for_each body xs s ≫= for_each body ys.
Proof.
  revert s. induction xs as [|x xs IH]; intros s; [done|].
  cbn [for_each app]. destruct (body x s) as [s1|f]; [|done].
  rewrite !bind_Ok_l. apply IH.
Qed.

Lemma for_each_concat {A St} (body : A → St → result St) (xss : list (list A))
    (s : St) :
  for_each body (concat xss) s = for_each (for_each body) xss s.
Proof.
  revert s. induction xss as [|xs xss IH]; intros s; [done|].
  cbn [concat for_each]. rewrite for_each_app.
  destruct (for_each body xs s) as [s1|f]; [|done].
  rewrite !bind_Ok_l. apply IH.
Qed.

(** The loop over all cells of rows of one length [n], with an invariant
    indexed by the row and the column reached. *)
Lemma for_each_concat_inv {A St} (I : nat → nat → St → Prop) (n : nat)
    (body : A → St → result St) (xss : list (list A)) (s0 : St) :
  (∀ i row, xss !! i = Some row → length row = n) →
  I 0 0 s0 →
  (∀ i j row x s, xss !! i = Some row → row !! j = Some x → I i j s →
                  ∃ s', body x s = Ok s' ∧ I i (S j) s') →
  (∀ i s, i < length xss → I i n s → I (S i) 0 s) →
  ∃ s', for_each body (concat xss) s0 = Ok s' ∧ I (length xss) 0 s'.
Proof.
  intros Hlen H0 Hstep Hrow. rewrite for_each_concat.
  apply (for_each_inv (λ i s, I i 0 s)); [done|].
  intros i row s Hi Is.
  destruct (for_each_inv (λ j s, I i j s) body row s Is) as (s' & E & Is').
  { intros j x s1 Hj I1. by eapply Hstep. }
  exists s'. split; [done|].
  apply Hrow; [by eapply lookup_lt_Some|].
  by rewrite <-(Hlen i row Hi).
Qed.

Lemma wrap64_id (x : Z) : (min_int64 ≤ x ≤ max_int64)%Z → wrap64 x = x.
Proof.
  unfold min_int64, max_int64, wrap64. intros Hx.
  rewrite Z.mod_small; lia.
Qed.

Lemma index_Ok {A} (l : list A) (i : nat) (x : A) :
  l !! i = Some x → index l (Z.of_nat i) = Ok x.
Proof.
  intros E. unfold index. rewrite decide_True by lia.
  by rewrite Nat2Z.id, E.
Qed.

Lemma index_Ok_Z {A} (l : list A) (v : Z) (x : A) :
  (0 ≤ v)%Z → l !! Z.to_nat v = Some x → index l v = Ok x.
Proof. intros Hv E. unfold index. by rewrite decide_True, E. Qed.

Lemma store_at_Ok {A} (l : list A) (i : nat) (x : A) :
  i < length l → store_at l (Z.of_nat i) x = Ok (<[i := x]> l).
Proof.
  intros Hi. unfold store_at. rewrite decide_True by lia.
  by rewrite Nat2Z.id.
Qed.

Lemma lookup_seqZ_0 (n : Z) (i : nat) (x : Z) :
  seqZ 0 n !! i = Some x → x = Z.of_nat i ∧ (Z.of_nat i < n)%Z.
Proof. intros E%lookup_seqZ. lia. Qed.

Section heap_lemmas.
Context {cell : Type}.
Implicit Types (h : list cell) (c : cell) (a b : nat).

Lemma load_Some h a c : h !! a = Some c → load (Some a) h = Ok c.
Proof. intros E. unfold load. by rewrite E. Qed.

Lemma store_Some h a c c' :
  h !! a = Some c → store (Some a) c' h = Ok (<[a := c']> h).
Proof. intros E. unfold store. by rewrite E. Qed.

End heap_lemmas.

(** ** cell.go *)

Section cell_lemmas.
Implicit Types (h : heap) (a b : nat) (p q : ptr).

Lemma links_with_links m (c : Cell) : links (with_links m c) = m.
Proof. reflexivity. Qed.

Lemma LinkOneWay_Some h a q ca :
  h !! a = Some ca →
  LinkOneWay (Some a) q h
  = Ok (<[a := with_links (<[q := true]> (links ca)) ca]> h).
Proof.
  intros E. unfold LinkOneWay.
  rewrite (load_Some _ _ _ E), bind_Ok_l. by apply store_Some with ca.
Qed.

Lemma UnlinkOneWay_Some h a q ca :
  h !! a = Some ca →
  UnlinkOneWay (Some a) q h
  = Ok (<[a := with_links (delete q (links ca)) ca]> h).
Proof.
  intros E. unfold UnlinkOneWay.
  rewrite (load_Some _ _ _ E), bind_Ok_l. by apply store_Some with ca.
Qed.

Lemma Linked_Some h a b ca :
  h !! a = Some ca →
  Linked (Some a) (Some b) h = Ok (default false (links ca !! Some b)).
Proof.
  intros E. unfold Linked. rewrite (load_Some _ _ _ E), bind_Ok_l.
  by destruct (links ca !! Some b).
Qed.
End cell_lemmas.

(** C5: for cells A and B held by the heap, [A.Link(B)] returns and leaves
    both [A.Linked(B)] and [B.Linked(A)] true; [A.Unlink(B)] returns and
    leaves both false.  A and B may be the same cell. *)
Theorem Link_Unlink_symmetric (h : heap) (a b : nat) (ca cb : Cell) :
  h !! a = Some ca →
  h !! b = Some cb →
  (∃ h', Link (Some a) (Some b) h = Ok h'
         ∧ Linked (Some a) (Some b) h' = Ok true
         ∧ Linked (Some b) (Some a) h' = Ok true)
  ∧ (∃ h', Unlink (Some a) (Some b) h = Ok h'
           ∧ Linked (Some a) (Some b) h' = Ok false
           ∧ Linked (Some b) (Some a) h' = Ok false).
Proof.
  intros Ea Eb.
  assert (La : a < length h) by by eapply lookup_lt_Some.
  assert (Lb : b < length h) by by eapply lookup_lt_Some.
  split.
  - unfold Link. rewrite (LinkOneWay_Some _ _ _ _ Ea), bind_Ok_l.
    destruct (decide (a = b)) as [->|Hne].
    + assert (cb = ca) as -> by congruence.
      set (c1 := with_links (<[Some b := true]> (links ca)) ca).
      assert (E1 : <[b := c1]> h !! b = Some c1)
        by by apply list_lookup_insert_eq.
      rewrite (LinkOneWay_Some _ _ _ _ E1).
      eexists. split; [done|].
      rewrite list_insert_insert_eq.
      assert (E2 : <[b := with_links (<[Some b := true]> (links c1)) c1]> h !! b
                   = Some (with_links (<[Some b := true]> (links c1)) c1))
        by by apply list_lookup_insert_eq.
      rewrite (Linked_Some _ _ _ _ E2).
      by rewrite links_with_links, lookup_insert_eq.
    + set (c1 := with_links (<[Some b := true]> (links ca)) ca).
      assert (E1 : <[a := c1]> h !! b = Some cb)
        by by rewrite list_lookup_insert_ne.
      rewrite (LinkOneWay_Some _ _ _ _ E1).
      eexists. split; [done|].
      set (c2 := with_links (<[Some a := true]> (links cb)) cb).
      assert (E2 : <[b := c2]> (<[a := c1]> h) !! a = Some c1).
      { rewrite list_lookup_insert_ne by done.
        by apply list_lookup_insert_eq. }
      assert (E3 : <[b := c2]> (<[a := c1]> h) !! b = Some c2).
      { apply list_lookup_insert_eq. by rewrite length_insert. }
      rewrite (Linked_Some _ _ _ _ E2), (Linked_Some _ _ _ _ E3).
      unfold c1, c2. by rewrite !links_with_links, !lookup_insert_eq.
  - unfold Unlink. rewrite (UnlinkOneWay_Some _ _ _ _ Ea), bind_Ok_l.
    destruct (decide (a = b)) as [->|Hne].
    + assert (cb = ca) as -> by congruence.
      set (c1 := with_links (delete (Some b) (links ca)) ca).
      assert (E1 : <[b := c1]> h !! b = Some c1)
        by by apply list_lookup_insert_eq.
      rewrite (UnlinkOneWay_Some _ _ _ _ E1).
      eexists. split; [done|].
      rewrite list_insert_insert_eq.
      assert (E2 : <[b := with_links (delete (Some b) (links c1)) c1]> h !! b
                   = Some (with_links (delete (Some b) (links c1)) c1))
        by by apply list_lookup_insert_eq.
      rewrite (Linked_Some _ _ _ _ E2).
      by rewrite links_with_links, lookup_delete_eq.
    + set (c1 := with_links (delete (Some b) (links ca)) ca).
      assert (E1 : <[a := c1]> h !! b = Some cb)
        by by rewrite list_lookup_insert_ne.
      rewrite (UnlinkOneWay_Some _ _ _ _ E1).
      eexists. split; [done|].
      set (c2 := with_links (delete (Some a) (links cb)) cb).
      assert (E2 : <[b := c2]> (<[a := c1]> h) !! a = Some c1).
      { rewrite list_lookup_insert_ne by done.
        by apply list_lookup_insert_eq. }
      assert (E3 : <[b := c2]> (<[a := c1]> h) !! b = Some c2).
      { apply list_lookup_insert_eq. by rewrite length_insert. }
      rewrite (Linked_Some _ _ _ _ E2), (Linked_Some _ _ _ _ E3).
      unfold c1, c2. by rewrite !links_with_links, !lookup_delete_eq.
Qed.

Lemma Link_Unlink_symmetric_witness :
  let h := [NewCell 0 0; NewCell 0 1] in
  (∃ h', Link (Some 0) (Some 1) h = Ok h'
         ∧ Linked (Some 0) (Some 1) h' = Ok true
         ∧ Linked (Some 1) (Some 0) h' = Ok true)
  ∧ (∃ h', Unlink (Some 0) (Some 1) h = Ok h'
           ∧ Linked (Some 0) (Some 1) h' = Ok false
           ∧ Linked (Some 1) (Some 0) h' = Ok false).
Proof.
  exact (Link_Unlink_symmetric [NewCell 0 0; NewCell 0 1] 0 1
           (NewCell 0 0) (NewCell 0 1) eq_refl eq_refl).
Defined.

(** The interface cell of README.md's grid does not share this:
    [CellBase.Link] hands its own [*CellBase] receiver to the neighbour, and
    the neighbour then holds a key that no [*RectangleCell] equals. *)
Lemma RectangleCell_Link_keys :
  let h := [Rect.NewRectangleCell 0 0; Rect.NewRectangleCell 0 1] in
  ∃ h',
    Rect.RectangleCell_Link (Some 0) (Rect.RectPtr (Some 1)) h = Ok h'
    ∧ Rect.RectangleCell_Linked (Some 0) (Rect.RectPtr (Some 1)) h' = Ok true
    ∧ Rect.RectangleCell_Linked (Some 1) (Rect.RectPtr (Some 0)) h' = Ok false
    ∧ Rect.RectangleCell_Linked (Some 1) (Rect.BasePtr (Some 0)) h' = Ok true.
Proof. eexists. split_and!; vm_compute; reflexivity. Qed.

(** C8: [Linked] of an absent neighbour returns false, whatever the receiver
    and whatever its link set holds; no path of it fails. *)
Theorem Linked_nil_false (c : ptr) (h : heap) : Linked c nilptr h = Ok false.
Proof. reflexivity. Qed.

(** C9: for a cell A of the heap, [A.Link(nil)] panics on the nil
    dereference of its second one-way call, while [A.LinkOneWay(nil)]
    returns and has put the key nil into the link set of A; [A.Linked(nil)]
    is false all the same. *)
Theorem Link_nil_panics (h : heap) (a : nat) (ca : Cell) :
  h !! a = Some ca →
  Link (Some a) nilptr h = Fail NilDereference
  ∧ panics (Link (Some a) nilptr h)
  ∧ ∃ h' ca',
      LinkOneWay (Some a) nilptr h = Ok h'
      ∧ h' !! a = Some ca'
      ∧ links ca' = <[nilptr := true]> (links ca)
      ∧ links ca' !! nilptr = Some true
      ∧ Linked (Some a) nilptr h' = Ok false.
Proof.
  intros Ea.
  assert (La : a < length h) by by eapply lookup_lt_Some.
  assert (EL : Link (Some a) nilptr h = Fail NilDereference).
  { unfold Link. by rewrite (LinkOneWay_Some _ _ _ _ Ea), bind_Ok_l. }
  split_and!; [done|by rewrite EL|].
  eexists _, _. split_and!.
  - by apply LinkOneWay_Some.
  - by apply list_lookup_insert_eq.
  - done.
  - by rewrite links_with_links, lookup_insert_eq.
  - done.
Qed.

Lemma Link_nil_panics_witness :
  let h := [NewCell 0 0] in
  Link (Some 0) nilptr h = Fail NilDereference
  ∧ panics (Link (Some 0) nilptr h)
  ∧ ∃ h' ca',
      LinkOneWay (Some 0) nilptr h = Ok h'
      ∧ h' !! 0 = Some ca'
      ∧ links ca' = <[nilptr := true]> (links (NewCell 0 0))
      ∧ links ca' !! nilptr = Some true
      ∧ Linked (Some 0) nilptr h' = Ok false.
Proof. exact (Link_nil_panics [NewCell 0 0] 0 (NewCell 0 0) eq_refl). Defined.

(** ** The corner glyphs *)

Lemma cornerGlyph_counterexample : length (remove_dups cornerGlyphs) ≠ 11.
Proof. vm_compute. lia. Qed.

(** C7, amended: the lookup is total; the index holds the four directions
    as its four low bits; no direction gives the blank, and nothing else
    does; vertical and horizontal lines and the nine corners, tees and the
    cross are as their names say; the sixteen combinations give twelve
    distinct runes, the blank and eleven box-drawing glyphs. *)
Theorem cornerGlyph_table :
  (∀ up left down right,
     let idx := glyphIndex up left down right in
     (0 ≤ idx < 16)%Z
     ∧ Z.testbit idx 0 = up ∧ Z.testbit idx 1 = down
     ∧ Z.testbit idx 2 = left ∧ Z.testbit idx 3 = right
     ∧ ∃ r, glyphs !! Z.to_nat idx = Some r
            ∧ cornerGlyph up left down right = Ok r)
  ∧ (∀ up left down right,
       cornerGlyph up left down right = Ok blank
       ↔ up = false ∧ left = false ∧ down = false ∧ right = false)
  ∧ (∀ up down, up || down = true →
       cornerGlyph up false down false = Ok vertical)
  ∧ (∀ left right, left || right = true →
       cornerGlyph false left false right = Ok horizontal)
  ∧ cornerGlyph true true false false = Ok cornerUpLeft
  ∧ cornerGlyph false true true false = Ok cornerDownLeft
  ∧ cornerGlyph true false false true = Ok cornerUpRight
  ∧ cornerGlyph false false true true = Ok cornerDownRight
  ∧ cornerGlyph true true true false = Ok verticalLeft
  ∧ cornerGlyph true false true true = Ok verticalRight
  ∧ cornerGlyph true true false true = Ok horizontalUp
  ∧ cornerGlyph false true true true = Ok horizontalDown
  ∧ cornerGlyph true true true true = Ok intersection
  ∧ length (remove_dups cornerGlyphs) = 12
  ∧ length (remove_dups (filter (λ r, r ≠ Ok blank) cornerGlyphs)) = 11.
Proof.
  split_and!; try reflexivity.
  - intros [] [] [] []; vm_compute; split_and!; eauto; congruence.
  - intros [] [] [] []; vm_compute;
      (split; [intros E|intros (E1 & E2 & E3 & E4)]);
      first [done|discriminate].
  - by intros [] [].
  - by intros [] [].
Qed.


(** ** Construction of the grid *)

Lemma mul_row_step (Cn i i' : nat) : i < i' → i * Cn + Cn ≤ i' * Cn.
Proof.
  intros Hlt. replace (i * Cn + Cn) with (S i * Cn) by (simpl; lia).
  apply Nat.mul_le_mono_r. lia.
Qed.

Lemma addr_inj base Cn i j i' j' :
  j < Cn → j' < Cn → addr base Cn i j = addr base Cn i' j' → i = i' ∧ j = j'.
Proof.
  unfold addr. intros Hj Hj' E.
  destruct (Nat.lt_trichotomy i i') as [Hlt|[->|Hlt]].
  - pose proof (mul_row_step Cn _ _ Hlt). lia.
  - lia.
  - pose proof (mul_row_step Cn _ _ Hlt). lia.
Qed.

Lemma addr_lt base Rn Cn i j :
  i < Rn → j < Cn → addr base Cn i j < base + Rn * Cn.
Proof.
  unfold addr. intros Hi Hj. pose proof (mul_row_step Cn _ _ Hi). lia.
Qed.

Lemma addr_before base Cn i j i' j' :
  j' < Cn → before i' j' i j → addr base Cn i' j' < addr base Cn i j.
Proof.
  unfold addr, before. intros Hj' [Hlt|[-> Hlt]]; [|lia].
  pose proof (mul_row_step Cn _ _ Hlt). lia.
Qed.

Lemma before_S i' j' i j :
  before i' j' i (S j) ↔ before i' j' i j ∨ (i' = i ∧ j' = j).
Proof. unfold before. lia. Qed.

Lemma before_next_row Cn i' j' i :
  j' < Cn → before i' j' (S i) 0 ↔ before i' j' i Cn.
Proof. unfold before. lia. Qed.

Lemma before_all Rn i' j' : i' < Rn → before i' j' Rn 0.
Proof. unfold before. lia. Qed.

Lemma before_irrefl i j : ¬ before i j i j.
Proof. unfold before. lia. Qed.

Lemma not_before_0 i' j' : ¬ before i' j' 0 0.
Proof. unfold before. lia. Qed.

Section grid_proofs.
Context {cell : Type} `{GridCellLaws cell}.
Variables (base Rn Cn : nat).
Implicit Types (g : Grid) (h : list cell) (i j : nat).

Lemma cell_at_in i j :
  i < Rn → j < Cn →
  cell_at base Rn Cn (Z.of_nat i) (Z.of_nat j) = Some (addr base Cn i j).
Proof.
  intros Hi Hj. unfold cell_at. rewrite decide_True by lia.
  by rewrite !Nat2Z.id.
Qed.

Lemma cell_at_out r c :
  ¬ (0 ≤ r < Z.of_nat Rn ∧ 0 ≤ c < Z.of_nat Cn)%Z →
  cell_at base Rn Cn r c = nilptr.
Proof. intros Hn. unfold cell_at. by rewrite decide_False. Qed.

Lemma At_spec g r c :
  grid_ok base Rn Cn g → At g r c = Ok (cell_at base Rn Cn r c).
Proof.
  intros (HR & HC & Hlen & Hrows). unfold At. rewrite HR, HC.
  destruct (decide (r < 0 ∨ c < 0 ∨ r >= Z.of_nat Rn ∨ c >= Z.of_nat Cn)%Z)
    as [Hout|Hin].
  - rewrite cell_at_out by lia. done.
  - destruct (Hrows (Z.to_nat r)) as (row & Er & Hl & Hc); [lia|].
    rewrite <-(Z2Nat.id r) at 1 by lia.
    rewrite (index_Ok _ _ _ Er), bind_Ok_l.
    rewrite <-(Z2Nat.id c) at 1 by lia.
    rewrite (index_Ok _ _ _ (Hc (Z.to_nat c) ltac:(lia))).
    unfold cell_at. by rewrite decide_True by lia.
Qed.

Lemma prepareCell_spec g h i j row :
  length (grid g) = Rn → grid g !! i = Some row → length row = Cn →
  j < Cn →
  prepareCell (Z.of_nat i) (Z.of_nat j) (g, h)
  = Ok (mkGrid (Rows g) (Columns g)
          (<[i := <[j := Some (length h)]> row]> (grid g)),
        h ++ [new_cell (Z.of_nat i) (Z.of_nat j)]).
Proof.
  intros Hlen Ei Hrow Hj. unfold prepareCell, alloc.
  rewrite (index_Ok _ _ _ Ei), bind_Ok_l.
  rewrite store_at_Ok, bind_Ok_l by lia.
  rewrite store_at_Ok, bind_Ok_l; [done|].
  rewrite Hlen. rewrite <-Hlen. by eapply lookup_lt_Some.
Qed.

Lemma prepareCell_inv h0 i j st :
  i < Rn → j < Cn → row_inv base Rn Cn h0 i j st →
  ∃ st', prepareCell (Z.of_nat i) (Z.of_nat j) st = Ok st'
         ∧ row_inv base Rn Cn h0 i (S j) st'.
Proof.
  intros Hi Hj. destruct st as [g h].
  intros (HR & HC & (Hlen & Hrows) & (row & Ei & Hrow & Hdone)
          & (Hh & Hframe & Hnew)).
  cbn [fst snd] in *.
  eexists. split; [by apply (prepareCell_spec g h i j row)|].
  unfold row_inv. cbn [fst snd Rows Columns grid].
  split_and!; [done|done| | |].
  - split; [by rewrite length_insert|].
    intros i' Hi'. destruct (Hrows i' Hi') as (row' & E' & Hl' & Hc').
    exists row'. by rewrite list_lookup_insert_ne by lia.
  - exists (<[j := Some (length h)]> row). split_and!.
    + apply list_lookup_insert_eq. lia.
    + by rewrite length_insert.
    + intros j' Hj'. destruct (decide (j' = j)) as [->|Hne].
      * rewrite list_lookup_insert_eq by lia. by rewrite Hh.
      * rewrite list_lookup_insert_ne by done. apply Hdone. lia.
  - split_and!.
    + rewrite length_app, Hh. unfold addr. simpl. lia.
    + intros k Hk. rewrite lookup_app_l; [by apply Hframe|].
      rewrite Hh. unfold addr. lia.
    + intros i' j' Hj' [Hb|[-> ->]]%before_S.
      * rewrite lookup_app_l; [by apply Hnew|].
        rewrite Hh. by apply addr_before.
      * by apply list_lookup_middle.
Qed.

Lemma prepareRow_inv h0 i st :
  i < Rn → rows_inv base Rn Cn h0 i st →
  ∃ st', prepareRow (Z.of_nat i) st = Ok st' ∧ rows_inv base Rn Cn h0 (S i) st'.
Proof.
  intros Hi. destruct st as [g h].
  intros (HR & HC & (Hlen & Hrows) & Hheap). cbn [fst snd] in *.
  unfold prepareRow. rewrite store_at_Ok, bind_Ok_l by lia.
  cbn [Columns]. rewrite HC, Nat2Z.id.
  set (g' := mkGrid _ _ _).
  destruct (for_each_inv (λ j st, row_inv base Rn Cn h0 i j st)
              (prepareCell (Z.of_nat i)) (seqZ 0 (Z.of_nat Cn)) (g', h))
    as ([g1 h1] & E & (HR1 & HC1 & (Hlen1 & Hrows1)
                       & (row & Ei & Hrow & Hdone) & Hh1 & Hf1 & Hn1)).
  - unfold row_inv, g'. cbn [fst snd Rows Columns grid].
    split_and!; [done|done| | |done].
    + split; [by rewrite length_insert|].
      intros i' Hi'. destruct (Hrows i' Hi') as (row' & E' & Hl' & Hc').
      exists row'. by rewrite list_lookup_insert_ne by lia.
    + exists (replicate Cn nilptr). split_and!.
      * apply list_lookup_insert_eq. lia.
      * by rewrite length_replicate.
      * intros j' Hj'. lia.
  - intros j x st [-> Hj]%lookup_seqZ_0 Hinv.
    apply prepareCell_inv; [done|lia|done].
  - rewrite length_seqZ, Nat2Z.id in *. cbn [fst snd] in *.
    exists (g1, h1). split; [done|].
    unfold rows_inv. cbn [fst snd]. split_and!; [done|done| |].
    + split; [done|]. intros i' Hi'.
      destruct (decide (i' = i)) as [->|Hne].
      * exists row. split_and!; [done|done|]. intros j' Hj'. by apply Hdone.
      * apply Hrows1. lia.
    + split_and!; [rewrite Hh1; unfold addr; lia|done|].
      intros i' j' Hj' Hb. apply Hn1; [done|].
      by apply before_next_row.
Qed.

Lemma prepareGrid_spec R C h0 :
  R = Z.of_nat Rn → C = Z.of_nat Cn → base = length h0 →
  ∃ g h, prepareGrid (mkGrid R C (replicate Rn [])) h0 = Ok (g, h)
         ∧ grid_ok base Rn Cn g
         ∧ heap_new base Cn h0 h Rn 0.
Proof.
  intros -> -> Hbase. unfold prepareGrid. cbn [Rows].
  destruct (for_each_inv (λ i st, rows_inv base Rn Cn h0 i st) prepareRow
              (seqZ 0 (Z.of_nat Rn))
              (mkGrid (Z.of_nat Rn) (Z.of_nat Cn) (replicate Rn []), h0))
    as ([g h] & E & (HR & HC & Hrows & Hheap)).
  - unfold rows_inv. cbn [fst snd Rows Columns grid].
    split_and!; [done|done| |].
    + split; [by rewrite length_replicate|]. intros i' Hi'. lia.
    + split_and!; [unfold addr; lia|done|].
      intros i' j' _ Hb. by apply not_before_0 in Hb.
  - intros i x st [-> Hi]%lookup_seqZ_0 Hinv.
    apply prepareRow_inv; [lia|done].
  - rewrite length_seqZ, Nat2Z.id in *. cbn [fst snd] in *.
    exists g, h. by split_and!.
Qed.
End grid_proofs.

Section configure_proofs.
Context {cell : Type} `{GridCellLaws cell}.
Variables (base Rn Cn : nat).
Hypothesis Rn_int64 : (Z.of_nat Rn ≤ max_int64)%Z.
Hypothesis Cn_int64 : (Z.of_nat Cn ≤ max_int64)%Z.
Implicit Types (g : Grid) (h : list cell) (i j : nat).

Lemma load_insert h a (c : cell) :
  a < length h → load (Some a) (<[a := c]> h) = Ok c.
Proof. intros Ha. apply load_Some. by apply list_lookup_insert_eq. Qed.

Lemma store_insert h a (c c' : cell) :
  a < length h → store (Some a) c' (<[a := c]> h) = Ok (<[a := c']> h).
Proof.
  intros Ha. rewrite (store_Some _ _ c); [by rewrite list_insert_insert_eq|].
  by apply list_lookup_insert_eq.
Qed.

Lemma configureCell_spec g h i j :
  grid_ok base Rn Cn g → i < Rn → j < Cn →
  h !! addr base Cn i j = Some (new_cell (Z.of_nat i) (Z.of_nat j)) →
  configureCell g (Some (addr base Cn i j)) h
  = Ok (<[addr base Cn i j := configured base Rn Cn i j]> h).
Proof.
  intros Hg Hi Hj E.
  assert (Ha : addr base Cn i j < length h) by by eapply lookup_lt_Some.
  unfold configureCell, configured, add64, sub64.
  unfold min_int64, max_int64 in *.
  rewrite (load_Some _ _ _ E), bind_Ok_l. cbv beta.
  rewrite row_new, column_new.
  rewrite wrap64_id by (unfold min_int64, max_int64; lia).
  rewrite (At_spec base Rn Cn g _ _ Hg), bind_Ok_l. cbv beta.
  rewrite (store_Some _ _ _ _ E), bind_Ok_l. cbv beta.
  rewrite (load_insert _ _ _ Ha), bind_Ok_l. cbv beta.
  rewrite row_set_North, column_set_North, row_new, column_new.
  rewrite wrap64_id by (unfold min_int64, max_int64; lia).
  rewrite (At_spec base Rn Cn g _ _ Hg), bind_Ok_l. cbv beta.
  rewrite (store_insert _ _ _ _ Ha), bind_Ok_l. cbv beta.
  rewrite (load_insert _ _ _ Ha), bind_Ok_l. cbv beta.
  rewrite row_set_South, column_set_South, row_set_North,
    column_set_North, row_new, column_new.
  rewrite wrap64_id by (unfold min_int64, max_int64; lia).
  rewrite (At_spec base Rn Cn g _ _ Hg), bind_Ok_l. cbv beta.
  rewrite (store_insert _ _ _ _ Ha), bind_Ok_l. cbv beta.
  rewrite (load_insert _ _ _ Ha), bind_Ok_l. cbv beta.
  rewrite row_set_West, column_set_West, row_set_South, column_set_South,
    row_set_North, column_set_North, row_new, column_new.
  rewrite wrap64_id by (unfold min_int64, max_int64; lia).
  rewrite (At_spec base Rn Cn g _ _ Hg), bind_Ok_l. cbv beta.
  by rewrite (store_insert _ _ _ _ Ha).
Qed.

Lemma configureCell_inv g h0 h i j row x :
  grid_ok base Rn Cn g →
  grid g !! i = Some row → row !! j = Some x → heap_cfg base Rn Cn h0 h i j →
  ∃ h', configureCell g x h = Ok h' ∧ heap_cfg base Rn Cn h0 h' i (S j).
Proof.
  intros Hg Ei Ej (Hlen & Hframe & Hcells).
  pose proof Hg as (_ & _ & Hl & Hrows).
  assert (Hi : i < Rn) by (rewrite <-Hl; by eapply lookup_lt_Some).
  destruct (Hrows i Hi) as (row' & Ei' & Hl' & Hc').
  assert (row' = row) as -> by congruence.
  assert (Hj : j < Cn) by (rewrite <-Hl'; by eapply lookup_lt_Some).
  assert (x = Some (addr base Cn i j)) as ->
    by (rewrite (Hc' j Hj) in Ej; congruence).
  pose proof (Hcells i j Hi Hj) as E.
  rewrite decide_False in E by apply before_irrefl.
  eexists. split; [by apply configureCell_spec|].
  split_and!.
  - by rewrite length_insert.
  - intros k Hk. rewrite list_lookup_insert_ne; [by apply Hframe|].
    unfold addr. lia.
  - intros i' j' Hi' Hj'.
    destruct (decide (i' = i ∧ j' = j)) as [[-> ->]|Hne].
    + rewrite list_lookup_insert_eq by by eapply lookup_lt_Some.
      rewrite decide_True; [done|]. apply before_S. by right.
    + rewrite list_lookup_insert_ne.
      2:{ intros Ea. destruct (addr_inj _ _ _ _ _ _ Hj Hj' Ea). by apply Hne. }
      rewrite (Hcells i' j' Hi' Hj').
      destruct (decide (before i' j' i j)) as [Hb|Hb].
      * rewrite decide_True; [done|]. apply before_S. by left.
      * rewrite decide_False; [done|].
        intros Hb'. apply before_S in Hb'. destruct Hb'; [by apply Hb|].
        by apply Hne.
Qed.

Lemma configureCells_spec g h0 h :
  grid_ok base Rn Cn g → heap_new base Cn h0 h Rn 0 →
  ∃ h', configureCells g h = Ok h'
        ∧ length h' = base + Rn * Cn
        ∧ (∀ k, k < base → h' !! k = h0 !! k)
        ∧ ∀ i j, i < Rn → j < Cn →
            h' !! addr base Cn i j = Some (configured base Rn Cn i j).
Proof.
  intros Hg (Hlen & Hframe & Hnew).
  pose proof Hg as (_ & _ & Hl & Hrows).
  unfold configureCells, AllCells.
  destruct (for_each_concat_inv (λ i j h, heap_cfg base Rn Cn h0 h i j) Cn
              (configureCell g) (grid g) h) as (h' & E & Hl' & Hf' & Hc').
  - intros i row Ei.
    assert (Hi : i < Rn) by (rewrite <-Hl; by eapply lookup_lt_Some).
    destruct (Hrows i Hi) as (row' & Ei' & Hrow & _). congruence.
  - split_and!; [rewrite Hlen; unfold addr; lia|done|].
    intros i' j' Hi' Hj'. rewrite decide_False by apply not_before_0.
    apply Hnew; [done|]. by apply before_all.
  - intros i j row x s Ei Ej Hinv. by eapply configureCell_inv.
  - intros i s Hi (Hl1 & Hf1 & Hc1). split_and!; [done|done|].
    intros i' j' Hi' Hj'. rewrite (Hc1 i' j' Hi' Hj').
    destruct (decide (before i' j' i Cn)) as [Hb|Hb].
    + rewrite decide_True; [done|]. by apply (before_next_row Cn).
    + rewrite decide_False; [done|]. by rewrite (before_next_row Cn).
  - exists h'. split_and!; [done..|].
    intros i j Hi Hj. rewrite (Hc' i j) by (rewrite ?Hl; done).
    rewrite decide_True; [done|]. rewrite Hl. by apply before_all.
Qed.
End configure_proofs.

Section NewGrid_proofs.
Context {cell : Type} `{GridCellLaws cell}.

(** [NewGrid] returns for all dimensions that are not negative: the grid
    holds, row by row, the addresses of the cells it allocated, and every
    cell has its four neighbours as [At] finds them. *)
Lemma NewGrid_spec (R C : Z) (h0 : list cell) :
  (0 ≤ R ≤ max_int64)%Z → (0 ≤ C ≤ max_int64)%Z →
  ∃ g h,
    NewGrid R C h0 = Ok (g, h)
    ∧ grid_ok (length h0) (Z.to_nat R) (Z.to_nat C) g
    ∧ length h = length h0 + Z.to_nat R * Z.to_nat C
    ∧ (∀ k, k < length h0 → h !! k = h0 !! k)
    ∧ ∀ i j, i < Z.to_nat R → j < Z.to_nat C →
        h !! addr (length h0) (Z.to_nat C) i j
        = Some (configured (length h0) (Z.to_nat R) (Z.to_nat C) i j).
Proof.
  intros HR HC. unfold NewGrid. rewrite decide_False by lia.
  destruct (prepareGrid_spec (length h0) (Z.to_nat R) (Z.to_nat C) R C h0)
    as (g & h1 & E1 & Hg & Hnew); [lia|lia|done|].
  cbv zeta. rewrite E1, bind_Ok_l. cbv beta iota.
  destruct (configureCells_spec (length h0) (Z.to_nat R) (Z.to_nat C)
              ltac:(lia) ltac:(lia) g h0 h1 Hg Hnew)
    as (h & E2 & Hl & Hf & Hc).
  rewrite E2, bind_Ok_l. by exists g, h.
Qed.

Lemma NewGrid_Fatal (R C : Z) (h0 : list cell) :
  (R < 0 ∨ C < 0)%Z → NewGrid R C h0 = Fail FatalLog.
Proof. intros Hneg. unfold NewGrid. by rewrite decide_True. Qed.
End NewGrid_proofs.

#[global] Instance Cell_GridCellLaws : GridCellLaws Cell.
Proof. by split. Qed.

#[global] Instance RectangleCell_GridCellLaws : GridCellLaws Rect.RectangleCell.
Proof. by split. Qed.

Lemma elem_of_concat {A} (x : A) (xss : list (list A)) :
  x ∈ concat xss ↔ ∃ xs, xs ∈ xss ∧ x ∈ xs.
Proof.
  induction xss as [|xs xss IH]; cbn [concat].
  - split; [by intros ?%elem_of_nil|]. by intros (xs & ?%elem_of_nil & _).
  - rewrite elem_of_app, IH. split.
    + intros [Hx|(ys & Hys & Hx)].
      * exists xs. split; [by left|done].
      * exists ys. split; [by right|done].
    + intros (ys & [->|Hys]%elem_of_cons & Hx); [by left|].
      right. by exists ys.
Qed.

(** The cells of a grid are the cells of its coordinates. *)
Lemma AllCells_elem base Rn Cn g p :
  grid_ok base Rn Cn g →
  p ∈ AllCells g ↔ ∃ i j, i < Rn ∧ j < Cn ∧ p = Some (addr base Cn i j).
Proof.
  intros (_ & _ & Hl & Hrows). unfold AllCells. rewrite elem_of_concat.
  split.
  - intros (row & [i Ei]%list_elem_of_lookup & [j Ej]%list_elem_of_lookup).
    assert (Hi : i < Rn) by (rewrite <-Hl; by eapply lookup_lt_Some).
    destruct (Hrows i Hi) as (row' & Ei' & Hl' & Hc').
    assert (row' = row) as -> by congruence.
    assert (Hj : j < Cn) by (rewrite <-Hl'; by eapply lookup_lt_Some).
    exists i, j. split_and!; [done..|].
    rewrite (Hc' j Hj) in Ej. congruence.
  - intros (i & j & Hi & Hj & ->).
    destruct (Hrows i Hi) as (row & Ei & Hl' & Hc').
    exists row. split; eapply list_elem_of_lookup_2; eauto.
Qed.

Lemma cell_at_Some base Rn Cn r c i j :
  j < Cn →
  cell_at base Rn Cn r c = Some (addr base Cn i j)
  ↔ (r = Z.of_nat i ∧ c = Z.of_nat j ∧ i < Rn).
Proof.
  intros Hj. unfold cell_at.
  destruct (decide (0 ≤ r < Z.of_nat Rn ∧ 0 ≤ c < Z.of_nat Cn)%Z) as [Hin|Hout].
  - split.
    + intros [= Ea]. apply addr_inj in Ea; [lia|lia|done].
    + intros (-> & -> & Hi). by rewrite !Nat2Z.id.
  - split; [done|]. intros (-> & -> & Hi). lia.
Qed.

(** ** grid.go: the claims on construction and lookup *)

(** C3: for dimensions that are not negative, [NewGrid] returns a grid
    whose cells all are allocated cells with an empty link set, and such
    that for all cells A and B of the grid, [A.East == B] iff
    [B.West == A], and [A.North == B] iff [B.South == A]. *)
Theorem NewGrid_reciprocal (R C : Z) (h0 : heap) :
  (0 ≤ R ≤ max_int64)%Z → (0 ≤ C ≤ max_int64)%Z →
  ∃ g h,
    NewGrid R C h0 = Ok (g, h)
    ∧ (∀ p, p ∈ AllCells g →
         ∃ a ca, p = Some a ∧ h !! a = Some ca ∧ links ca = ∅)
    ∧ ∀ a b ca cb,
        Some a ∈ AllCells g → Some b ∈ AllCells g →
        h !! a = Some ca → h !! b = Some cb →
        (East ca = Some b ↔ West cb = Some a)
        ∧ (West ca = Some b ↔ East cb = Some a)
        ∧ (North ca = Some b ↔ South cb = Some a)
        ∧ (South ca = Some b ↔ North cb = Some a).
Proof.
  intros HR HC.
  destruct (NewGrid_spec R C h0 HR HC) as (g & h & E & Hg & Hl & Hf & Hc).
  exists g, h. split_and!; [done| |].
  - intros p (i & j & Hi & Hj & ->)%(AllCells_elem _ _ _ _ _ Hg).
    eexists _, _. split_and!; [done|by apply Hc|done].
  - intros a b ca cb (i & j & Hi & Hj & [= ->])%(AllCells_elem _ _ _ _ _ Hg)
      (i' & j' & Hi' & Hj' & [= ->])%(AllCells_elem _ _ _ _ _ Hg) Ea Eb.
    rewrite (Hc i j Hi Hj) in Ea. rewrite (Hc i' j' Hi' Hj') in Eb.
    injection Ea as <-. injection Eb as <-.
    unfold configured. cbn [East West North South set_East set_West
      set_North set_South Cell_GridCell new_cell NewCell].
    rewrite !cell_at_Some by done. lia.
Qed.

Lemma NewGrid_reciprocal_witness :
  ∃ g h,
    NewGrid (cell := Cell) 2 3 [] = Ok (g, h)
    ∧ (∀ p, p ∈ AllCells g →
         ∃ a ca, p = Some a ∧ h !! a = Some ca ∧ links ca = ∅)
    ∧ ∀ a b ca cb,
        Some a ∈ AllCells g → Some b ∈ AllCells g →
        h !! a = Some ca → h !! b = Some cb →
        (East ca = Some b ↔ West cb = Some a)
        ∧ (West ca = Some b ↔ East cb = Some a)
        ∧ (North ca = Some b ↔ South cb = Some a)
        ∧ (South ca = Some b ↔ North cb = Some a).
Proof.
  apply (NewGrid_reciprocal 2 3 []); unfold max_int64; lia.
Defined.

(** C4: on the grid that [NewGrid] returns, [At] returns for all integers
    [row] and [column]; what it returns is a cell, the one of these
    coordinates, iff [0 ≤ row < R] and [0 ≤ column < C], and is nil for all
    other coordinates. *)
Theorem At_in_range_iff (R C : Z) (h0 : heap) :
  (0 ≤ R ≤ max_int64)%Z → (0 ≤ C ≤ max_int64)%Z →
  ∃ g h,
    NewGrid R C h0 = Ok (g, h)
    ∧ ∀ row column : Z,
        ∃ p, At g row column = Ok p
             ∧ (p ≠ nilptr ↔ (0 ≤ row < R ∧ 0 ≤ column < C)%Z)
             ∧ ((0 ≤ row < R ∧ 0 ≤ column < C)%Z →
                p ∈ AllCells g
                ∧ ∃ a c, p = Some a ∧ h !! a = Some c
                         ∧ Row c = row ∧ Column c = column).
Proof.
  intros HR HC.
  destruct (NewGrid_spec R C h0 HR HC) as (g & h & E & Hg & Hl & Hf & Hc).
  exists g, h. split; [done|]. intros row column.
  exists (cell_at (length h0) (Z.to_nat R) (Z.to_nat C) row column).
  split; [by apply At_spec|].
  unfold cell_at. rewrite !Z2Nat.id by lia.
  destruct (decide (0 ≤ row < R ∧ 0 ≤ column < C)%Z) as [Hin|Hout].
  - split; [done|]. intros _. split.
    + apply (AllCells_elem _ _ _ _ _ Hg).
      exists (Z.to_nat row), (Z.to_nat column). split_and!; [lia|lia|done].
    + eexists _, _. split_and!; [done|apply Hc; lia|..].
      * cbn. lia.
      * cbn. lia.
  - split; [|done]. split; [done|]. intros Hin. by destruct Hout.
Qed.

Lemma At_in_range_iff_witness :
  ∃ g h,
    NewGrid (cell := Cell) 2 3 [] = Ok (g, h)
    ∧ ∀ row column : Z,
        ∃ p, At g row column = Ok p
             ∧ (p ≠ nilptr ↔ (0 ≤ row < 2 ∧ 0 ≤ column < 3)%Z)
             ∧ ((0 ≤ row < 2 ∧ 0 ≤ column < 3)%Z →
                p ∈ AllCells g
                ∧ ∃ a c, p = Some a ∧ h !! a = Some c
                         ∧ Row c = row ∧ Column c = column).
Proof.
  apply (At_in_range_iff 2 3 []); unfold max_int64; lia.
Defined.

(** ** grid.go: RandomCell *)

Lemma Intn_pos (n : Z) (s : Rand) :
  (0 < n)%Z →
  ∃ v, Intn n s = Ok (v, mkRand (tail (tape s)) (S (draws s)))
       ∧ (0 ≤ v < n)%Z.
Proof.
  intros Hn. unfold Intn. rewrite decide_False by lia.
  eexists. split; [done|].
  destruct (tape s) as [|v t]; [lia|]. by apply Z.mod_pos_bound.
Qed.

Lemma Intn_nonpos (n : Z) (s : Rand) :
  (n ≤ 0)%Z → Intn n s = Fail InvalidArgument.
Proof. intros Hn. unfold Intn. by rewrite decide_True. Qed.

(** C10: [NewGrid] accepts zero rows or zero columns, and on every such
    grid [RandomCell] panics, its random draw being handed the bound zero;
    on a grid of at least one row and one column it returns a cell of the
    grid, which the heap holds. *)
Theorem RandomCell_spec (R C : Z) (h0 : heap) (stream : Z → list Z)
    (now : Z) (s : Rand) :
  (0 ≤ R ≤ max_int64)%Z → (0 ≤ C ≤ max_int64)%Z →
  ∃ g h,
    NewGrid R C h0 = Ok (g, h)
    ∧ ((R = 0 ∨ C = 0)%Z →
       RandomCell g stream now s = Fail InvalidArgument
       ∧ panics (RandomCell g stream now s))
    ∧ ((1 ≤ R ∧ 1 ≤ C)%Z →
       ∃ a s' c, RandomCell g stream now s = Ok (Some a, s')
                 ∧ Some a ∈ AllCells g ∧ h !! a = Some c).
Proof.
  intros HR HC.
  destruct (NewGrid_spec R C h0 HR HC) as (g & h & E & Hg & Hl & Hf & Hc).
  pose proof Hg as (ER & EC & _).
  exists g, h. split_and!; [done| |].
  - intros Hz.
    assert (Ef : RandomCell g stream now s = Fail InvalidArgument).
    { unfold RandomCell, Int63n. cbv zeta. rewrite ER, EC.
      destruct (decide (R = 0%Z)) as [->|HR0].
      - by rewrite Intn_nonpos.
      - destruct (Intn_pos (Z.of_nat (Z.to_nat R)) (Seed stream now s))
          as (v & -> & Hv); [lia|].
        rewrite bind_Ok_l. cbv beta iota.
        rewrite Intn_nonpos by lia. done. }
    by rewrite Ef.
  - intros [HR1 HC1]. unfold RandomCell, Int63n. cbv zeta. rewrite ER, EC.
    destruct (Intn_pos (Z.of_nat (Z.to_nat R)) (Seed stream now s))
      as (r & -> & Hr); [lia|].
    rewrite bind_Ok_l. cbv beta iota.
    match goal with |- context [Intn _ ?s1] =>
      destruct (Intn_pos (Z.of_nat (Z.to_nat C)) s1) as (c & -> & Hc');
        [lia|]
    end.
    rewrite bind_Ok_l. cbv beta iota.
    rewrite (At_spec _ _ _ g r c Hg), bind_Ok_l.
    unfold cell_at. rewrite decide_True by lia.
    eexists _, _, _. split_and!; [done| |].
    + apply (AllCells_elem _ _ _ _ _ Hg).
      exists (Z.to_nat r), (Z.to_nat c). split_and!; [lia|lia|done].
    + apply Hc; lia.
Qed.

Lemma RandomCell_spec_witness :
  ∃ g h,
    NewGrid (cell := Cell) 0 3 [] = Ok (g, h)
    ∧ ((0 = 0 ∨ 3 = 0)%Z →
       RandomCell g (λ n, [n]) 5 (mkRand [] 0) = Fail InvalidArgument
       ∧ panics (RandomCell g (λ n, [n]) 5 (mkRand [] 0)))
    ∧ ((1 ≤ 0 ∧ 1 ≤ 3)%Z →
       ∃ a s' c, RandomCell g (λ n, [n]) 5 (mkRand [] 0) = Ok (Some a, s')
                 ∧ Some a ∈ AllCells g ∧ h !! a = Some c).
Proof.
  apply (RandomCell_spec 0 3 [] (λ n, [n]) 5 (mkRand [] 0));
    unfold max_int64; lia.
Defined.

(** ** The binary tree generator *)

Lemma with_links_with_links m m' (c : Cell) :
  with_links m' (with_links m c) = with_links m' c.
Proof. reflexivity. Qed.

Lemma with_links_id (c : Cell) : with_links (links c) c = c.
Proof. by destruct c. Qed.

Lemma more_links_refl m : more_links m m.
Proof. by intros q. Qed.

Lemma more_links_trans m1 m2 m3 :
  more_links m1 m2 → more_links m2 m3 → more_links m1 m3.
Proof. intros H12 H23 q Hq. by apply H23, H12. Qed.

Lemma more_links_insert m p : more_links m (<[p := true]> m).
Proof.
  intros q Hq. destruct (decide (p = q)) as [->|Hne].
  - by rewrite lookup_insert_eq.
  - by rewrite lookup_insert_ne.
Qed.

(** [Link] between two cells of the heap returns; it changes link sets
    only, and only by adding to them. *)
Lemma Link_spec (h : heap) (a b : nat) (ca cb : Cell) :
  h !! a = Some ca → h !! b = Some cb →
  ∃ h', Link (Some a) (Some b) h = Ok h'
        ∧ length h' = length h
        ∧ ∀ k ck, h !! k = Some ck →
            ∃ m, h' !! k = Some (with_links m ck)
                 ∧ more_links (links ck) m
                 ∧ (k = a → m !! Some b = Some true)
                 ∧ (k = b → m !! Some a = Some true).
Proof.
  intros Ea Eb.
  assert (La : a < length h) by by eapply lookup_lt_Some.
  assert (Lb : b < length h) by by eapply lookup_lt_Some.
  unfold Link. rewrite (LinkOneWay_Some _ _ _ _ Ea), bind_Ok_l.
  set (c1 := with_links (<[Some b := true]> (links ca)) ca).
  destruct (decide (a = b)) as [->|Hne].
  - assert (cb = ca) as -> by congruence.
    assert (E1 : <[b := c1]> h !! b = Some c1)
      by by apply list_lookup_insert_eq.
    rewrite (LinkOneWay_Some _ _ _ _ E1), list_insert_insert_eq.
    eexists. split_and!; [done|by rewrite length_insert|].
    intros k ck Ek. destruct (decide (k = b)) as [->|Hk].
    + assert (ck = ca) as -> by congruence.
      rewrite list_lookup_insert_eq by done.
      eexists. split_and!; [done| |intros _|intros _].
      * unfold c1. rewrite links_with_links.
        eapply more_links_trans; apply more_links_insert.
      * by rewrite lookup_insert_eq.
      * by rewrite lookup_insert_eq.
    + rewrite list_lookup_insert_ne by done.
      exists (links ck). rewrite with_links_id.
      split_and!; [done|apply more_links_refl|done|done].
  - assert (E1 : <[a := c1]> h !! b = Some cb)
      by by rewrite list_lookup_insert_ne.
    rewrite (LinkOneWay_Some _ _ _ _ E1).
    eexists. split_and!; [done|by rewrite !length_insert|].
    intros k ck Ek. destruct (decide (k = b)) as [->|Hkb].
    + assert (ck = cb) as -> by congruence.
      rewrite list_lookup_insert_eq by by rewrite length_insert.
      eexists. split_and!; [done|apply more_links_insert|done|intros _].
      by rewrite lookup_insert_eq.
    + rewrite list_lookup_insert_ne by done.
      destruct (decide (k = a)) as [->|Hka].
      * assert (ck = ca) as -> by congruence.
        rewrite list_lookup_insert_eq by done.
        eexists. split_and!; [done|apply more_links_insert|intros _|done].
        by rewrite lookup_insert_eq.
      * rewrite list_lookup_insert_ne by done.
        exists (links ck). rewrite with_links_id.
        split_and!; [done|apply more_links_refl|done|done].
Qed.

Lemma North_configured base Rn Cn i j m :
  North (with_links m (configured base Rn Cn i j))
  = cell_at base Rn Cn (Z.of_nat i - 1) (Z.of_nat j).
Proof. reflexivity. Qed.

Lemma East_configured base Rn Cn i j m :
  East (with_links m (configured base Rn Cn i j))
  = cell_at base Rn Cn (Z.of_nat i) (Z.of_nat j + 1).
Proof. reflexivity. Qed.

Lemma cell_at_north base Rn Cn i j :
  i < Rn → j < Cn →
  cell_at base Rn Cn (Z.of_nat i - 1) (Z.of_nat j)
  = if decide (0 < i) then Some (addr base Cn (i - 1) j) else nilptr.
Proof.
  intros Hi Hj. destruct (decide (0 < i)) as [Hpos|Hz].
  - replace (Z.of_nat i - 1)%Z with (Z.of_nat (i - 1)) by lia.
    apply cell_at_in; lia.
  - apply cell_at_out. lia.
Qed.

Lemma cell_at_east base Rn Cn i j :
  i < Rn → j < Cn →
  cell_at base Rn Cn (Z.of_nat i) (Z.of_nat j + 1)
  = if decide (j + 1 < Cn) then Some (addr base Cn i (j + 1)) else nilptr.
Proof.
  intros Hi Hj. destruct (decide (j + 1 < Cn)) as [Hlt|Hge].
  - replace (Z.of_nat j + 1)%Z with (Z.of_nat (j + 1)) by lia.
    apply cell_at_in; lia.
  - apply cell_at_out. lia.
Qed.

Lemma BinaryTree_neighbors_configured base Rn Cn i j m :
  i < Rn → j < Cn →
  BinaryTree_neighbors (with_links m (configured base Rn Cn i j))
  = (if decide (0 < i) then [Some (addr base Cn (i - 1) j)] else [])
    ++ (if decide (j + 1 < Cn) then [Some (addr base Cn i (j + 1))] else []).
Proof.
  intros Hi Hj. unfold BinaryTree_neighbors. cbv zeta.
  rewrite North_configured, East_configured.
  rewrite cell_at_north, cell_at_east by done.
  destruct (decide (0 < i)); destruct (decide (j + 1 < Cn)); reflexivity.
Qed.

Section BinaryTree_proofs.
Variables (base Rn Cn : nat) (h_init : heap).
Implicit Types (h : heap) (rnd : Rand) (i j n : nat).

(** The invariant after a link between the cell visited and a cell of
    the grid, when these two are the only cells newly known to hold a
    link. *)
Lemma BinaryTree_inv_link h rnd rnd' n i j ib jb :
  i < Rn → j < Cn → ib < Rn → jb < Cn →
  ¬ (Rn = 1 ∧ Cn = 1) →
  (∀ i' j', guaranteed Cn i' j' i (S j) →
            guaranteed Cn i' j' i j
            ∨ (i' = i ∧ j' = j) ∨ (i' = ib ∧ j' = jb)) →
  BinaryTree_inv base Rn Cn h_init i j (h, rnd, n) →
  ∃ h', Link (Some (addr base Cn i j)) (Some (addr base Cn ib jb)) h = Ok h'
        ∧ BinaryTree_inv base Rn Cn h_init i (S j) (h', rnd', S n).
Proof.
  intros Hi Hj Hib Hjb Hnot1 Hnew (Hn & Hone & Hcells). cbn [fst snd] in *.
  destruct (Hcells i j Hi Hj) as (ma & Ea & _).
  destruct (Hcells ib jb Hib Hjb) as (mb & Eb & _).
  destruct (Link_spec h _ _ _ _ Ea Eb) as (h' & EL & Hlen & Hk).
  exists h'. split; [done|]. unfold BinaryTree_inv. cbn [fst snd].
  split_and!; [lia|lia|].
  intros i' j' Hi' Hj'.
  destruct (Hcells i' j' Hi' Hj') as (m & Em & Hm).
  destruct (Hk _ _ Em) as (m' & Em' & Hmore & Hka & Hkb).
  exists m'. split; [by rewrite Em', with_links_with_links|].
  intros [Hold|[[-> ->]|[-> ->]]]%Hnew.
  - destruct (Hm Hold) as (i2 & j2 & Hi2 & Hj2 & Hq).
    exists i2, j2. split_and!; [done..|]. by apply Hmore.
  - exists ib, jb. split_and!; [done..|]. by apply Hka.
  - exists i, j. split_and!; [done..|]. by apply Hkb.
Qed.

Lemma BinaryTree_cell_inv h rnd n i j :
  i < Rn → j < Cn →
  BinaryTree_inv base Rn Cn h_init i j (h, rnd, n) →
  ∃ st', BinaryTree_cell (Some (addr base Cn i j)) (h, rnd, n) = Ok st'
         ∧ BinaryTree_inv base Rn Cn h_init i (S j) st'.
Proof.
  intros Hi Hj Hinv. pose proof Hinv as (Hn & Hone & Hcells).
  cbn [fst snd] in *.
  destruct (Hcells i j Hi Hj) as (m & Ea & _).
  unfold BinaryTree_cell. rewrite (load_Some _ _ _ Ea), bind_Ok_l.
  cbv beta zeta. rewrite (BinaryTree_neighbors_configured _ _ _ _ _ _ Hi Hj).
  destruct (decide (0 < i)) as [Hpos|Hz];
    destruct (decide (j + 1 < Cn)) as [Hlt|Hge].
  - cbn [app length]. rewrite decide_True by lia.
    destruct (Intn_pos (Z.of_nat 2) rnd) as (v & -> & Hv); [lia|].
    rewrite bind_Ok_l. cbv beta iota.
    assert (v = 0 ∨ v = 1)%Z as [->| ->] by lia.
    + change (index _ 0%Z) with (Ok (A := ptr) (Some (addr base Cn (i - 1) j))).
      rewrite bind_Ok_l.
      destruct (BinaryTree_inv_link h rnd
                  (mkRand (tail (tape rnd)) (S (draws rnd))) n i j (i - 1) j)
        as (h' & -> & Hinv'); [lia..| |done|].
      { unfold guaranteed, before. lia. }
      rewrite bind_Ok_l. eauto.
    + change (index _ 1%Z) with (Ok (A := ptr) (Some (addr base Cn i (j + 1)))).
      rewrite bind_Ok_l.
      destruct (BinaryTree_inv_link h rnd
                  (mkRand (tail (tape rnd)) (S (draws rnd))) n i j i (j + 1))
        as (h' & -> & Hinv'); [lia..| |done|].
      { unfold guaranteed, before. lia. }
      rewrite bind_Ok_l. eauto.
  - cbn [app length]. rewrite decide_True by lia.
    destruct (Intn_pos (Z.of_nat 1) rnd) as (v & -> & Hv); [lia|].
    rewrite bind_Ok_l. cbv beta iota.
    assert (v = 0)%Z as -> by lia.
    change (index _ 0%Z) with (Ok (A := ptr) (Some (addr base Cn (i - 1) j))).
    rewrite bind_Ok_l.
    destruct (BinaryTree_inv_link h rnd
                (mkRand (tail (tape rnd)) (S (draws rnd))) n i j (i - 1) j)
      as (h' & -> & Hinv'); [lia..| |done|].
    { unfold guaranteed, before. lia. }
    rewrite bind_Ok_l. eauto.
  - cbn [app length]. rewrite decide_True by lia.
    destruct (Intn_pos (Z.of_nat 1) rnd) as (v & -> & Hv); [lia|].
    rewrite bind_Ok_l. cbv beta iota.
    assert (v = 0)%Z as -> by lia.
    change (index _ 0%Z) with (Ok (A := ptr) (Some (addr base Cn i (j + 1)))).
    rewrite bind_Ok_l.
    destruct (BinaryTree_inv_link h rnd
                (mkRand (tail (tape rnd)) (S (draws rnd))) n i j i (j + 1))
      as (h' & -> & Hinv'); [lia..| |done|].
    { unfold guaranteed, before. lia. }
    rewrite bind_Ok_l. eauto.
  - cbn [app length]. rewrite decide_False by lia.
    eexists. split; [done|]. unfold BinaryTree_inv. cbn [fst snd].
    split_and!; [lia|done|].
    intros i' j' Hi' Hj'. destruct (Hcells i' j' Hi' Hj') as (m' & Em' & Hm').
    exists m'. split; [done|]. intros Hg. apply Hm'.
    revert Hg. unfold guaranteed, before. lia.
Qed.
End BinaryTree_proofs.

Lemma grid_ok_lookup base Rn Cn g i j row x :
  grid_ok base Rn Cn g → grid g !! i = Some row → row !! j = Some x →
  i < Rn ∧ j < Cn ∧ x = Some (addr base Cn i j).
Proof.
  intros (_ & _ & Hl & Hrows) Ei Ej.
  assert (Hi : i < Rn) by (rewrite <-Hl; by eapply lookup_lt_Some).
  destruct (Hrows i Hi) as (row' & Ei' & Hl' & Hc').
  assert (row' = row) as -> by congruence.
  assert (Hj : j < Cn) by (rewrite <-Hl'; by eapply lookup_lt_Some).
  split_and!; [done..|]. rewrite (Hc' j Hj) in Ej. congruence.
Qed.

Lemma grid_ok_row_length base Rn Cn g i row :
  grid_ok base Rn Cn g → grid g !! i = Some row → length row = Cn.
Proof.
  intros (_ & _ & Hl & Hrows) Ei.
  assert (Hi : i < Rn) by (rewrite <-Hl; by eapply lookup_lt_Some).
  destruct (Hrows i Hi) as (row' & Ei' & Hl' & _). congruence.
Qed.

(** C2: on every grid of at least one row and one column, [BinaryTree]
    returns, after as many iterations as the grid has cells; every cell is
    then linked to some cell of the grid, unless the grid is the single
    cell, which is linked to nothing. *)
Theorem BinaryTree_spec (R C : Z) (h0 : heap) (rnd : Rand) :
  (1 ≤ R ≤ max_int64)%Z → (1 ≤ C ≤ max_int64)%Z →
  ∃ g h,
    NewGrid R C h0 = Ok (g, h)
    ∧ ∃ h' rnd' n,
        BinaryTree g h rnd = Ok (h', rnd', n)
        ∧ Z.of_nat n = (R * C)%Z
        ∧ (¬ (R = 1 ∧ C = 1)%Z →
           ∀ p, p ∈ AllCells g →
                ∃ q, q ∈ AllCells g ∧ Linked p q h' = Ok true)
        ∧ ((R = 1 ∧ C = 1)%Z →
           ∀ p q, p ∈ AllCells g → Linked p q h' = Ok false).
Proof.
  intros HR HC.
  destruct (NewGrid_spec R C h0 ltac:(lia) ltac:(lia))
    as (g & h & E & Hg & Hl & Hf & Hc).
  set (base := length h0) in *.
  set (Rn := Z.to_nat R) in *. set (Cn := Z.to_nat C) in *.
  exists g, h. split; [done|].
  pose proof Hg as (_ & _ & Hlen & _).
  unfold BinaryTree, AllCells.
  destruct (for_each_concat_inv
              (λ i j st, BinaryTree_inv base Rn Cn h i j st) Cn
              BinaryTree_cell (grid g) (h, rnd, 0))
    as ([[h' rnd'] n] & EB & Hn & Hone & Hcells).
  - intros i row Ei. by eapply grid_ok_row_length.
  - unfold BinaryTree_inv. cbn [fst snd]. split_and!; [lia|done|].
    intros i' j' Hi' Hj'.
    exists (links (configured base Rn Cn i' j')).
    rewrite with_links_id. split; [by apply Hc|].
    unfold guaranteed, before. lia.
  - intros i j row x [[h1 rnd1] n1] Ei Ej Hinv.
    destruct (grid_ok_lookup _ _ _ _ _ _ _ _ Hg Ei Ej) as (Hi & Hj & ->).
    by apply BinaryTree_cell_inv.
  - intros i [[h1 rnd1] n1] Hi (Hn & Hone & Hcells).
    unfold BinaryTree_inv. cbn [fst snd] in *. split_and!; [lia|done|].
    intros i' j' Hi' Hj'. destruct (Hcells i' j' Hi' Hj') as (m & Em & Hm).
    exists m. split; [done|]. intros Hgu. apply Hm.
    revert Hgu. unfold guaranteed, before. lia.
  - cbn [fst snd] in *. rewrite Hlen in *.
    exists h', rnd', n. split_and!; [done|lia| |].
    + intros Hnot p (i & j & Hi & Hj & ->)%(AllCells_elem _ _ _ _ _ Hg).
      destruct (Hcells i j Hi Hj) as (m & Em & Hm).
      destruct Hm as (i2 & j2 & Hi2 & Hj2 & Hq).
      { unfold guaranteed, before. lia. }
      exists (Some (addr base Cn i2 j2)). split.
      * apply (AllCells_elem _ _ _ _ _ Hg). by exists i2, j2.
      * rewrite (Linked_Some _ _ _ _ Em), links_with_links. by rewrite Hq.
    + intros [-> ->] p q (i & j & Hi & Hj & ->)%(AllCells_elem _ _ _ _ _ Hg).
      destruct q as [b|]; [|done].
      rewrite (Hone eq_refl eq_refl).
      rewrite (Linked_Some _ _ _ _ (Hc i j Hi Hj)). done.
Qed.

Lemma BinaryTree_spec_witness :
  ∃ g h,
    NewGrid (cell := Cell) 2 3 [] = Ok (g, h)
    ∧ ∃ h' rnd' n,
        BinaryTree g h (mkRand [1; 0; 1; 1; 0]%Z 0) = Ok (h', rnd', n)
        ∧ Z.of_nat n = (2 * 3)%Z
        ∧ (¬ (2 = 1 ∧ 3 = 1)%Z →
           ∀ p, p ∈ AllCells g →
                ∃ q, q ∈ AllCells g ∧ Linked p q h' = Ok true)
        ∧ ((2 = 1 ∧ 3 = 1)%Z →
           ∀ p q, p ∈ AllCells g → Linked p q h' = Ok false).
Proof.
  apply (BinaryTree_spec 2 3 [] (mkRand [1; 0; 1; 1; 0]%Z 0));
    unfold max_int64; lia.
Defined.

(** ** The sidewinder generator *)

Lemma Rect_with_links_with_links m m' (c : Rect.RectangleCell) :
  Rect.with_links m' (Rect.with_links m c) = Rect.with_links m' c.
Proof. reflexivity. Qed.

Lemma Rect_with_links_id (c : Rect.RectangleCell) :
  Rect.with_links (Rect.links (Rect.base c)) c = c.
Proof. by destruct c as [? ? ? ? []]. Qed.

Lemma Rect_North_configured base Rn Cn i j m :
  Rect.North (Rect.with_links m (configured base Rn Cn i j))
  = cell_at base Rn Cn (Z.of_nat i - 1) (Z.of_nat j).
Proof. reflexivity. Qed.

Lemma Rect_East_configured base Rn Cn i j m :
  Rect.East (Rect.with_links m (configured base Rn Cn i j))
  = cell_at base Rn Cn (Z.of_nat i) (Z.of_nat j + 1).
Proof. reflexivity. Qed.

Lemma CellBase_LinkOneWay_Some (h : list Rect.RectangleCell) a q ca :
  h !! a = Some ca →
  Rect.CellBase_LinkOneWay (Some a) q h
  = Ok (<[a := Rect.with_links (<[q := true]> (Rect.links (Rect.base ca)))
                 ca]> h).
Proof.
  intros E. unfold Rect.CellBase_LinkOneWay.
  rewrite (load_Some _ _ _ E), bind_Ok_l. by apply store_Some with ca.
Qed.

(** [c.Link(n)] for two cells of the heap, [n] being handed over as a
    [*RectangleCell]: it returns, and changes link sets only. *)
Lemma RectangleCell_Link_spec (h : list Rect.RectangleCell) a b ca cb :
  h !! a = Some ca → h !! b = Some cb →
  ∃ h', Rect.RectangleCell_Link (Some a) (Rect.RectPtr (Some b)) h = Ok h'
        ∧ ∀ k ck, h !! k = Some ck →
            ∃ m, h' !! k = Some (Rect.with_links m ck).
Proof.
  intros Ea Eb.
  assert (La : a < length h) by by eapply lookup_lt_Some.
  unfold Rect.RectangleCell_Link, Rect.CellBase_Link.
  rewrite (CellBase_LinkOneWay_Some _ _ _ _ Ea), bind_Ok_l.
  unfold Rect.Cell_LinkOneWay, Rect.RectangleCell_LinkOneWay.
  set (c1 := Rect.with_links _ ca).
  assert (∃ cb1 mb, <[a := c1]> h !! b = Some cb1
                    ∧ cb1 = Rect.with_links mb cb) as (cb1 & mb & Eb1 & Hcb1).
  { destruct (decide (a = b)) as [->|Hne].
    - exists c1. eexists. split; [by apply list_lookup_insert_eq|].
      unfold c1. by replace cb with ca by congruence.
    - exists cb. eexists. split; [by rewrite list_lookup_insert_ne|].
      by rewrite Rect_with_links_id. }
  rewrite (CellBase_LinkOneWay_Some _ _ _ _ Eb1).
  eexists. split; [done|]. intros k ck Ek.
  destruct (decide (k = b)) as [->|Hkb].
  - rewrite list_lookup_insert_eq
      by (rewrite length_insert; by eapply lookup_lt_Some).
    assert (ck = cb) as -> by congruence.
    eexists. by rewrite Hcb1, Rect_with_links_with_links.
  - rewrite list_lookup_insert_ne by done.
    destruct (decide (k = a)) as [->|Hka].
    + rewrite list_lookup_insert_eq by done.
      assert (ck = ca) as -> by congruence. by eexists.
    + rewrite list_lookup_insert_ne by done.
      exists (Rect.links (Rect.base ck)). by rewrite Rect_with_links_id.
Qed.

Lemma rect_ok_Link base Rn Cn h i j i' j' :
  i < Rn → j < Cn → i' < Rn → j' < Cn → rect_ok base Rn Cn h →
  ∃ h', Rect.RectangleCell_Link (Some (addr base Cn i j))
          (Rect.RectPtr (Some (addr base Cn i' j'))) h = Ok h'
        ∧ rect_ok base Rn Cn h'.
Proof.
  intros Hi Hj Hi' Hj' Hok.
  destruct (Hok i j Hi Hj) as (ma & Ea).
  destruct (Hok i' j' Hi' Hj') as (mb & Eb).
  destruct (RectangleCell_Link_spec h _ _ _ _ Ea Eb) as (h' & EL & Hk).
  exists h'. split; [done|]. intros i2 j2 Hi2 Hj2.
  destruct (Hok i2 j2 Hi2 Hj2) as (m & Em).
  destruct (Hk _ _ Em) as (m' & Em'). exists m'.
  by rewrite Em', Rect_with_links_with_links.
Qed.

(** The decision of [shouldCloseOut], and the draws it makes. *)
Lemma shouldCloseOut_spec (c : Rect.RectangleCell) (rnd : Rand) :
  ∃ close rnd',
    shouldCloseOut c rnd = Ok (close, rnd')
    ∧ (close = true
       ↔ Rect.East c = nilptr
         ∨ (Rect.North c ≠ nilptr ∧ ∃ r, Intn 2 rnd = Ok (0%Z, r)))
    ∧ (Rect.East c = nilptr ∨ Rect.North c = nilptr → rnd' = rnd)
    ∧ (Rect.East c ≠ nilptr → Rect.North c ≠ nilptr →
       ∃ coin, Intn 2 rnd = Ok (coin, rnd') ∧ draws rnd' = S (draws rnd)).
Proof.
  unfold shouldCloseOut. cbv zeta.
  destruct (decide (Rect.East c = nilptr)) as [HE|HE].
  - rewrite (bool_decide_eq_true_2 _ HE).
    eexists _, _. split_and!; [done| |done|done].
    split; [by left|done].
  - rewrite (bool_decide_eq_false_2 _ HE).
    destruct (decide (Rect.North c = nilptr)) as [HN|HN].
    + rewrite (bool_decide_eq_true_2 _ HN). cbn [negb].
      eexists _, _. split_and!; [done| |done|done].
      split; [done|]. by intros [?|[? _]].
    + rewrite (bool_decide_eq_false_2 _ HN). cbn [negb].
      destruct (Intn_pos 2 rnd) as (coin & Ecoin & Hcoin); [lia|].
      rewrite Ecoin, bind_Ok_l. cbv beta iota.
      eexists _, _. split_and!; [done| | |].
      * rewrite bool_decide_eq_true. split.
        -- intros ->. right. eauto.
        -- intros [?|[_ [r [= -> _]]]]; done.
      * by intros [?|?].
      * intros _ _. by exists coin.
Qed.

Section Sidewinder_proofs.
Variables (base Rn Cn : nat).
Hypothesis Cn_pos : 0 < Cn.
Implicit Types (h : list Rect.RectangleCell) (rnd : Rand) (i j : nat).

Lemma shouldCloseOut_grid i j m rnd :
  i < Rn → j < Cn →
  shouldCloseOut (Rect.with_links m (configured base Rn Cn i j)) rnd
  = if decide (j + 1 < Cn) then
      if decide (0 < i) then
        Intn 2 rnd ≫= λ '(coin, rnd'), Ok (bool_decide (coin = 0%Z), rnd')
      else Ok (false, rnd)
    else Ok (true, rnd).
Proof.
  intros Hi Hj. unfold shouldCloseOut. cbv zeta.
  rewrite Rect_North_configured, Rect_East_configured.
  rewrite cell_at_north, cell_at_east by done.
  destruct (decide (j + 1 < Cn)); destruct (decide (0 < i)); reflexivity.
Qed.

Lemma closeOut_grid i j row h rnd :
  i < Rn → j < Cn →
  (∀ k, k < Cn → row !! k = Some (Some (addr base Cn i k))) →
  length row = Cn →
  rect_ok base Rn Cn h →
  ∃ h' rnd', closeOut (take (S j) row) h rnd = Ok (h', rnd')
             ∧ rect_ok base Rn Cn h'
             ∧ draws rnd' = S (draws rnd).
Proof.
  intros Hi Hj Hrow Hlen Hok. unfold closeOut.
  rewrite length_take_le by lia.
  destruct (Intn_pos (Z.of_nat (S j)) rnd) as (v & -> & Hv); [lia|].
  rewrite bind_Ok_l. cbv beta iota.
  assert (Em : take (S j) row !! Z.to_nat v
               = Some (Some (addr base Cn i (Z.to_nat v)))).
  { rewrite lookup_take_lt by lia. apply Hrow. lia. }
  rewrite (index_Ok_Z _ _ _ (proj1 Hv) Em), bind_Ok_l.
  destruct (Hok i (Z.to_nat v)) as (m & Ec); [done|lia|].
  rewrite (load_Some _ _ _ Ec), bind_Ok_l.
  rewrite Rect_North_configured, cell_at_north by lia.
  destruct (decide (0 < i)) as [Hpos|Hz].
  - rewrite decide_True by done.
    destruct (rect_ok_Link base Rn Cn h i (Z.to_nat v) (i - 1) (Z.to_nat v))
      as (h' & -> & Hok'); [lia..|done|].
    rewrite bind_Ok_l. by eexists _, _.
  - rewrite decide_False by (by intros []). by eexists _, _.
Qed.

Lemma Sidewinder_cell_inv i j row rnd0 st :
  i < Rn → j < Cn →
  (∀ k, k < Cn → row !! k = Some (Some (addr base Cn i k))) →
  length row = Cn →
  Sidewinder_row_inv base Rn Cn i row rnd0 j st →
  ∃ st', Sidewinder_cell (Some (addr base Cn i j)) st = Ok st'
         ∧ Sidewinder_row_inv base Rn Cn i row rnd0 (S j) st'.
Proof.
  intros Hi Hj Hrow Hlen. destruct st as [[[run h] rnd] closed].
  intros (Hrun & Hok & Hclosed & Hlast & Htop). cbn [fst snd] in *.
  unfold Sidewinder_cell.
  destruct (Hok i j Hi Hj) as (m & Ec).
  rewrite (load_Some _ _ _ Ec), bind_Ok_l. cbv zeta.
  rewrite Hrun, <-(take_S_r row j _ (Hrow j Hj)).
  rewrite shouldCloseOut_grid by done.
  assert (Hclose : ∀ rnd1,
    (i = 0 → rnd1 = rnd) → j + 1 = Cn ∨ 0 < i →
    ∃ st', (closeOut (take (S j) row) h rnd1
            ≫= λ '(h', rnd'),
                 Ok (take (S j) row, h', rnd', closed ++ [take (S j) row]))
           = Ok st'
           ∧ Sidewinder_row_inv base Rn Cn i row rnd0 (S j) st').
  { intros rnd1 Hrnd1 Hwhy.
    destruct (closeOut_grid i j row h rnd1 Hi Hj Hrow Hlen Hok)
      as (h' & rnd' & -> & Hok' & Hdraws).
    rewrite bind_Ok_l. eexists. split; [done|].
    unfold Sidewinder_row_inv. cbn [fst snd]. split_and!; [done|done| | |].
    - intros r [Hr| ->%list_elem_of_singleton]%elem_of_app.
      + destruct (Hclosed r Hr) as (k & Hk & ->). exists k. split; [lia|done].
      + exists j. split; [lia|done].
    - intros HS. rewrite last_snoc. f_equal. apply take_ge. lia.
    - intros ->. destruct (decide (j < Cn)) as [_|]; [|lia].
      destruct (Htop eq_refl) as [-> ->].
      destruct Hwhy as [HjC|]; [|lia].
      rewrite decide_False by lia. split.
      + cbn [app]. f_equal. apply take_ge. lia.
      + rewrite Hdraws. f_equal. f_equal. by apply Hrnd1. }
  destruct (decide (j + 1 < Cn)) as [Hlt|Hge].
  - destruct (decide (0 < i)) as [Hpos|Hz].
    + destruct (Intn_pos 2 rnd) as (coin & -> & Hcoin); [lia|].
      rewrite bind_Ok_l. cbv beta iota.
      destruct (bool_decide (coin = 0%Z)).
      * apply Hclose; [lia|by right].
      * rewrite Rect_East_configured, cell_at_east, decide_True by done.
        destruct (rect_ok_Link base Rn Cn h i j i (j + 1))
          as (h' & -> & Hok'); [lia..|done|].
        rewrite bind_Ok_l. eexists. split; [done|].
        unfold Sidewinder_row_inv. cbn [fst snd].
        split_and!; [done|done| | |].
        -- intros r Hr. destruct (Hclosed r Hr) as (k & Hk & ->).
           exists k. split; [lia|done].
        -- lia.
        -- lia.
    + rewrite bind_Ok_l. cbv beta iota.
      rewrite Rect_East_configured, cell_at_east, decide_True by done.
      destruct (rect_ok_Link base Rn Cn h i j i (j + 1))
        as (h' & -> & Hok'); [lia..|done|].
      rewrite bind_Ok_l. eexists. split; [done|].
      unfold Sidewinder_row_inv. cbn [fst snd].
      split_and!; [done|done| | |].
      * intros r Hr. destruct (Hclosed r Hr) as (k & Hk & ->).
        exists k. split; [lia|done].
      * lia.
      * intros Hi0. rewrite decide_True by lia.
        specialize (Htop Hi0). by rewrite decide_True in Htop by lia.
  - rewrite bind_Ok_l. cbv beta iota. apply Hclose; [done|lia].
Qed.
End Sidewinder_proofs.

Section Sidewinder_grid.
Variables (base Rn Cn : nat) (g : Grid).
Hypothesis Cn_pos : 0 < Cn.
Hypothesis g_ok : grid_ok base Rn Cn g.
Implicit Types (h : list Rect.RectangleCell) (rnd : Rand) (i j : nat).

(** One row: the inner loop returns; every close-out recorded a prefix of
    the row, the last one the whole row; the first row has that close-out
    only, and the draw of its member is its only draw. *)
Lemma Sidewinder_row_spec i row h rnd runs :
  grid g !! i = Some row → rect_ok base Rn Cn h →
  ∃ h' rnd' closed,
    Sidewinder_row row (h, rnd, runs) = Ok (h', rnd', runs ++ [closed])
    ∧ rect_ok base Rn Cn h'
    ∧ (∀ r, r ∈ closed → ∃ k, k < Cn ∧ r = take (S k) row)
    ∧ last closed = Some row
    ∧ (i = 0 → closed = [row] ∧ draws rnd' = S (draws rnd)).
Proof.
  intros Ei Hok. unfold Sidewinder_row.
  pose proof (grid_ok_row_length _ _ _ _ _ _ g_ok Ei) as Hlen.
  assert (Hi : i < Rn).
  { destruct g_ok as (_ & _ & Hl & _). rewrite <-Hl.
    by eapply lookup_lt_Some. }
  assert (Hrow : ∀ k, k < Cn → row !! k = Some (Some (addr base Cn i k))).
  { intros k Hk. destruct (lookup_lt_is_Some_2 row k) as [x Ex]; [lia|].
    by destruct (grid_ok_lookup _ _ _ _ _ _ _ _ g_ok Ei Ex) as (_ & _ & ->). }
  destruct (for_each_inv
              (λ j st, Sidewinder_row_inv base Rn Cn i row rnd j st)
              Sidewinder_cell row ([], h, rnd, []))
    as ([[[run' h'] rnd'] closed] & -> & Hrun & Hok' & Hclosed & Hlast & Htop).
  - unfold Sidewinder_row_inv. cbn [fst snd].
    split_and!; [done|done| | |].
    + by intros r ?%elem_of_nil.
    + lia.
    + intros _. by rewrite decide_True.
  - intros j x st Ej Hinv.
    destruct (grid_ok_lookup _ _ _ _ _ _ _ _ g_ok Ei Ej) as (_ & Hj & ->).
    by apply Sidewinder_cell_inv.
  - cbn [fst snd] in *. rewrite bind_Ok_l. rewrite Hlen in *.
    exists h', rnd', closed. split_and!; [done|done| | |].
    + intros r Hr. destruct (Hclosed r Hr) as (k & Hk & ->). by exists k.
    + by apply Hlast.
    + intros Hi0. specialize (Htop Hi0). by rewrite decide_False in Htop by lia.
Qed.

Lemma Sidewinder_row_inv_step i row st :
  grid g !! i = Some row → Sidewinder_inv base Rn Cn g i st →
  ∃ st', Sidewinder_row row st = Ok st'
         ∧ Sidewinder_inv base Rn Cn g (S i) st'.
Proof.
  intros Ei. destruct st as [[h rnd] runs].
  intros (Hok & Hlen & Hruns). cbn [fst snd] in *.
  destruct (Sidewinder_row_spec i row h rnd runs Ei Hok)
    as (h' & rnd' & closed & -> & Hok' & Hclosed & Hlast & Htop).
  eexists. split; [done|]. unfold Sidewinder_inv. cbn [fst snd].
  split_and!; [done|rewrite length_app; cbn; lia|].
  intros i' row' closed' Ei' [E'|[Hge E']]%lookup_app_Some.
  - by apply (Hruns i' row' closed').
  - rewrite Hlen in *. apply list_lookup_singleton_Some in E' as [Hi' <-].
    assert (i' = i) as -> by lia.
    assert (row' = row) as -> by congruence.
    split_and!; [done|done|]. intros Hi0. by apply Htop.
Qed.

Lemma Sidewinder_total h rnd :
  rect_ok base Rn Cn h →
  ∃ h' rnd' runs,
    Sidewinder g h rnd = Ok (h', rnd', runs)
    ∧ length runs = length (AllRows g)
    ∧ ∀ i row closed,
        AllRows g !! i = Some row → runs !! i = Some closed →
        (∀ r, r ∈ closed → ∃ k, k < length row ∧ r = take (S k) row)
        ∧ last closed = Some row
        ∧ (i = 0 → closed = [row]).
Proof.
  intros Hok. unfold Sidewinder, AllRows.
  destruct (for_each_inv (λ i st, Sidewinder_inv base Rn Cn g i st)
              Sidewinder_row (grid g) (h, rnd, []))
    as ([[h' rnd'] runs] & -> & Hok' & Hlen & Hruns).
  - unfold Sidewinder_inv. cbn [fst snd]. split_and!; [done|done|].
    by intros i' row closed _ ?.
  - intros i row st Ei Hinv. by apply Sidewinder_row_inv_step.
  - cbn [fst snd] in *. exists h', rnd', runs. split_and!; [done|done|].
    intros i row closed Ei Ec.
    destruct (Hruns i row closed Ei Ec) as (H1 & H2 & H3).
    rewrite (grid_ok_row_length _ _ _ _ _ _ g_ok Ei). done.
Qed.
End Sidewinder_grid.

Lemma NewGrid_rect_ok (R C : Z) (h0 : list Rect.RectangleCell) :
  (0 ≤ R ≤ max_int64)%Z → (0 ≤ C ≤ max_int64)%Z →
  ∃ g h, NewGrid R C h0 = Ok (g, h)
         ∧ grid_ok (length h0) (Z.to_nat R) (Z.to_nat C) g
         ∧ rect_ok (length h0) (Z.to_nat R) (Z.to_nat C) h.
Proof.
  intros HR HC.
  destruct (NewGrid_spec R C h0 HR HC) as (g & h & E & Hg & Hl & Hf & Hc).
  exists g, h. split_and!; [done|done|]. intros i j Hi Hj.
  eexists. rewrite Rect_with_links_id. by apply Hc.
Qed.

(** C1 (the code departs from it): [run] is never emptied, a close-out
    leaves it as it is; so on every grid every run closed out is a prefix
    of its row, the last one the whole row, and two close-outs in one row
    share cells.  On the grid of two rows and two columns, with all draws
    0, the second row is closed out at its first cell and at its second:
    the first cell is in both runs, it is chosen both times, and the
    second cell is left without any link. *)
Theorem Sidewinder_run_not_reset :
  (∀ cell run h rnd closed run' h' rnd' closed',
     Sidewinder_cell cell (run, h, rnd, closed) = Ok (run', h', rnd', closed')
     → run' = run ++ [cell])
  ∧ (∀ R C h0 rnd,
       (1 ≤ R ≤ max_int64)%Z → (1 ≤ C ≤ max_int64)%Z →
       ∃ g h,
         NewGrid R C h0 = Ok (g, h)
         ∧ ∃ h' rnd' runs,
             Sidewinder g h rnd = Ok (h', rnd', runs)
             ∧ length runs = length (AllRows g)
             ∧ ∀ i row closed,
                 AllRows g !! i = Some row → runs !! i = Some closed →
                 (∀ r, r ∈ closed → ∃ k, k < length row ∧ r = take (S k) row)
                 ∧ last closed = Some row)
  ∧ ∃ g h h' rnd' c3,
      NewGrid (cell := Rect.RectangleCell) 2 2 [] = Ok (g, h)
      ∧ AllRows g = [[Some 0; Some 1]; [Some 2; Some 3]]
      ∧ Sidewinder g h (mkRand [0; 0; 0; 0]%Z 0)
        = Ok (h', rnd',
              [[[Some 0; Some 1]]; [[Some 2]; [Some 2; Some 3]]])
      ∧ h' !! 3 = Some c3
      ∧ Rect.links (Rect.base c3) = ∅.
Proof.
  split_and!.
  - intros cell run h rnd closed run' h' rnd' closed'.
    unfold Sidewinder_cell.
    destruct (load cell h) as [c|]; [|done]. rewrite bind_Ok_l. cbv zeta.
    destruct (shouldCloseOut c rnd) as [[close rnd1]|]; [|done].
    rewrite bind_Ok_l. cbv beta iota. destruct close.
    + destruct (closeOut _ _ _) as [[h1 rnd2]|]; [|done].
      rewrite bind_Ok_l. by intros [= <- _ _ _].
    + destruct (Rect.RectangleCell_Link _ _ _) as [h1|]; [|done].
      rewrite bind_Ok_l. by intros [= <- _ _ _].
  - intros R C h0 rnd HR HC.
    destruct (NewGrid_rect_ok R C h0 ltac:(lia) ltac:(lia))
      as (g & h & E & Hg & Hok).
    exists g, h. split; [done|].
    destruct (Sidewinder_total (length h0) (Z.to_nat R) (Z.to_nat C) g
                ltac:(lia) Hg h rnd Hok)
      as (h' & rnd' & runs & ES & Hlen & Hruns).
    exists h', rnd', runs. split_and!; [done|done|].
    intros i row closed Ei Ec.
    by destruct (Hruns i row closed Ei Ec) as (? & ? & _).
  - eexists _, _, _, _, _. split_and!.
    + vm_compute. reflexivity.
    + reflexivity.
    + vm_compute. reflexivity.
    + reflexivity.
    + vm_compute. reflexivity.
Qed.

(** * Further properties of the code *)

(** ** cell.go: how links compose *)

Lemma Link_lookup (h : heap) (a b : nat) (ca cb : Cell) :
  h !! a = Some ca → h !! b = Some cb →
  ∃ h', Link (Some a) (Some b) h = Ok h'
        ∧ length h' = length h
        ∧ ∀ k, h' !! k
               = (λ ck, with_links (link_keys a b k (links ck)) ck)
                 <$> h !! k.
Proof.
  intros Ea Eb.
  assert (La : a < length h) by by eapply lookup_lt_Some.
  assert (Lb : b < length h) by by eapply lookup_lt_Some.
  unfold Link. rewrite (LinkOneWay_Some _ _ _ _ Ea), bind_Ok_l.
  set (c1 := with_links (<[Some b := true]> (links ca)) ca).
  destruct (decide (a = b)) as [->|Hne].
  - assert (cb = ca) as -> by congruence.
    assert (E1 : <[b := c1]> h !! b = Some c1)
      by by apply list_lookup_insert_eq.
    rewrite (LinkOneWay_Some _ _ _ _ E1), list_insert_insert_eq.
    eexists. split_and!; [done|by rewrite length_insert|].
    intros k. unfold link_keys. destruct (decide (k = b)) as [->|Hk].
    + rewrite list_lookup_insert_eq by done. by rewrite Ea.
    + rewrite list_lookup_insert_ne by done.
      destruct (h !! k) as [ck|]; [|done]. cbn. by rewrite with_links_id.
  - assert (E1 : <[a := c1]> h !! b = Some cb)
      by by rewrite list_lookup_insert_ne.
    rewrite (LinkOneWay_Some _ _ _ _ E1).
    eexists. split_and!; [done|by rewrite !length_insert|].
    intros k. unfold link_keys. destruct (decide (k = b)) as [->|Hkb].
    + rewrite list_lookup_insert_eq by by rewrite length_insert.
      rewrite Eb. cbn. by rewrite decide_False by done.
    + rewrite list_lookup_insert_ne by done.
      destruct (decide (k = a)) as [->|Hka].
      * rewrite list_lookup_insert_eq by done. by rewrite Ea.
      * rewrite list_lookup_insert_ne by done.
        destruct (h !! k) as [ck|]; [|done]. cbn. by rewrite with_links_id.
Qed.

Lemma Unlink_lookup (h : heap) (a b : nat) (ca cb : Cell) :
  h !! a = Some ca → h !! b = Some cb →
  ∃ h', Unlink (Some a) (Some b) h = Ok h'
        ∧ length h' = length h
        ∧ ∀ k, h' !! k
               = (λ ck, with_links (unlink_keys a b k (links ck)) ck)
                 <$> h !! k.
Proof.
  intros Ea Eb.
  assert (La : a < length h) by by eapply lookup_lt_Some.
  assert (Lb : b < length h) by by eapply lookup_lt_Some.
  unfold Unlink. rewrite (UnlinkOneWay_Some _ _ _ _ Ea), bind_Ok_l.
  set (c1 := with_links (delete (Some b) (links ca)) ca).
  destruct (decide (a = b)) as [->|Hne].
  - assert (cb = ca) as -> by congruence.
    assert (E1 : <[b := c1]> h !! b = Some c1)
      by by apply list_lookup_insert_eq.
    rewrite (UnlinkOneWay_Some _ _ _ _ E1), list_insert_insert_eq.
    eexists. split_and!; [done|by rewrite length_insert|].
    intros k. unfold unlink_keys. destruct (decide (k = b)) as [->|Hk].
    + rewrite list_lookup_insert_eq by done. by rewrite Ea.
    + rewrite list_lookup_insert_ne by done.
      destruct (h !! k) as [ck|]; [|done]. cbn. by rewrite with_links_id.
  - assert (E1 : <[a := c1]> h !! b = Some cb)
      by by rewrite list_lookup_insert_ne.
    rewrite (UnlinkOneWay_Some _ _ _ _ E1).
    eexists. split_and!; [done|by rewrite !length_insert|].
    intros k. unfold unlink_keys. destruct (decide (k = b)) as [->|Hkb].
    + rewrite list_lookup_insert_eq by by rewrite length_insert.
      rewrite Eb. cbn. by rewrite decide_False by done.
    + rewrite list_lookup_insert_ne by done.
      destruct (decide (k = a)) as [->|Hka].
      * rewrite list_lookup_insert_eq by done. by rewrite Ea.
      * rewrite list_lookup_insert_ne by done.
        destruct (h !! k) as [ck|]; [|done]. cbn. by rewrite with_links_id.
Qed.

Lemma link_keys_idemp a b k m :
  link_keys a b k (link_keys a b k m) = link_keys a b k m.
Proof.
  unfold link_keys. destruct (decide (k = a)); destruct (decide (k = b));
    subst; by rewrite ?insert_insert_eq.
Qed.

Lemma link_keys_comm a b k m : link_keys b a k m = link_keys a b k m.
Proof.
  unfold link_keys. destruct (decide (k = a)); destruct (decide (k = b));
    subst; done.
Qed.

Lemma unlink_link_keys a b k m :
  (k = a → m !! Some b = None) → (k = b → m !! Some a = None) →
  unlink_keys a b k (link_keys a b k m) = m.
Proof.
  intros Ha Hb. unfold unlink_keys, link_keys.
  destruct (decide (k = a)) as [Eka|]; destruct (decide (k = b)) as [Ekb|].
  - subst a. subst b. rewrite insert_insert_eq, delete_insert_eq.
    rewrite delete_delete_eq. apply delete_id. by apply Ha.
  - rewrite delete_insert_eq. apply delete_id. by apply Ha.
  - rewrite delete_insert_eq. apply delete_id. by apply Hb.
  - done.
Qed.

Lemma Linked_lookup (h : heap) (c : nat) (d : ptr) :
  Linked (Some c) d h
  = match d with
    | None => Ok false
    | Some _ =>
        match h !! c with
        | Some cc => Ok (default false (links cc !! d))
        | None => Fail InvalidPointer
        end
    end.
Proof.
  destruct d as [e|]; [|done]. unfold Linked, load.
  destruct (h !! c) as [cc|]; [|done]. rewrite bind_Ok_l.
  by destruct (links cc !! Some e).
Qed.

(** X1: linking is commutative in its two cells and idempotent: [b.Link(a)]
    gives the heap that [a.Link(b)] gives, and linking again changes
    nothing. *)
Theorem Link_commutative_idempotent (h : heap) (a b : nat) (ca cb : Cell) :
  h !! a = Some ca → h !! b = Some cb →
  ∃ h1, Link (Some a) (Some b) h = Ok h1
        ∧ Link (Some b) (Some a) h = Ok h1
        ∧ Link (Some a) (Some b) h1 = Ok h1.
Proof.
  intros Ea Eb.
  destruct (Link_lookup h a b ca cb Ea Eb) as (h1 & E1 & L1 & H1).
  destruct (Link_lookup h b a cb ca Eb Ea) as (h2 & E2 & L2 & H2).
  exists h1. split_and!; [done| |].
  - rewrite E2. f_equal. apply list_eq. intros k. rewrite H1, H2.
    destruct (h !! k) as [ck|]; [|done]. cbn [fmap option_fmap option_map].
    by rewrite link_keys_comm.
  - pose proof (H1 a) as Ea1. rewrite Ea in Ea1.
    cbn [fmap option_fmap option_map] in Ea1.
    pose proof (H1 b) as Eb1. rewrite Eb in Eb1.
    cbn [fmap option_fmap option_map] in Eb1.
    destruct (Link_lookup h1 a b _ _ Ea1 Eb1) as (h3 & E3 & L3 & H3).
    rewrite E3. f_equal. apply list_eq. intros k. rewrite H3, H1.
    destruct (h !! k) as [ck|]; [|done]. cbn [fmap option_fmap option_map].
    by rewrite with_links_with_links, links_with_links, link_keys_idemp.
Qed.

Lemma Link_commutative_idempotent_witness :
  let h := [NewCell 0 0; NewCell 0 1] in
  ∃ h1, Link (Some 0) (Some 1) h = Ok h1
        ∧ Link (Some 1) (Some 0) h = Ok h1
        ∧ Link (Some 0) (Some 1) h1 = Ok h1.
Proof.
  exact (Link_commutative_idempotent [NewCell 0 0; NewCell 0 1] 0 1
           (NewCell 0 0) (NewCell 0 1) eq_refl eq_refl).
Defined.

(** X2: unlinking two cells that were not linked before they were linked
    gives back the heap as it was. *)
Theorem Unlink_Link_round_trip (h : heap) (a b : nat) (ca cb : Cell) :
  h !! a = Some ca → h !! b = Some cb →
  links ca !! Some b = None → links cb !! Some a = None →
  ∃ h1, Link (Some a) (Some b) h = Ok h1
        ∧ Unlink (Some a) (Some b) h1 = Ok h.
Proof.
  intros Ea Eb Na Nb.
  destruct (Link_lookup h a b ca cb Ea Eb) as (h1 & E1 & L1 & H1).
  exists h1. split; [done|].
  pose proof (H1 a) as Ea1. rewrite Ea in Ea1.
    cbn [fmap option_fmap option_map] in Ea1.
  pose proof (H1 b) as Eb1. rewrite Eb in Eb1.
    cbn [fmap option_fmap option_map] in Eb1.
  destruct (Unlink_lookup h1 a b _ _ Ea1 Eb1) as (h2 & E2 & L2 & H2).
  rewrite E2. f_equal. apply list_eq. intros k. rewrite H2, H1.
  destruct (h !! k) as [ck|] eqn:Ek; [|done]. cbn [fmap option_fmap option_map].
  rewrite with_links_with_links, links_with_links.
  rewrite unlink_link_keys; [by rewrite with_links_id| |].
  - intros ->. congruence.
  - intros ->. congruence.
Qed.

Lemma Unlink_Link_round_trip_witness :
  let h := [NewCell 0 0; NewCell 0 1] in
  ∃ h1, Link (Some 0) (Some 1) h = Ok h1
        ∧ Unlink (Some 0) (Some 1) h1 = Ok h.
Proof.
  exact (Unlink_Link_round_trip [NewCell 0 0; NewCell 0 1] 0 1
           (NewCell 0 0) (NewCell 0 1) eq_refl eq_refl eq_refl eq_refl).
Defined.

(** X3: [a.Link(b)] touches nothing but the two entries it sets: every
    other query [c.Linked(d)] answers as before, and every cell keeps its
    coordinates and its four neighbours. *)
Theorem Link_frame (h : heap) (a b : nat) (ca cb : Cell) :
  h !! a = Some ca → h !! b = Some cb →
  ∃ h1, Link (Some a) (Some b) h = Ok h1
        ∧ (∀ c d, ¬ (c = a ∧ d = Some b) → ¬ (c = b ∧ d = Some a) →
                  Linked (Some c) d h1 = Linked (Some c) d h)
        ∧ ∀ k ck, h !! k = Some ck →
            ∃ ck', h1 !! k = Some ck'
                   ∧ Row ck' = Row ck ∧ Column ck' = Column ck
                   ∧ North ck' = North ck ∧ South ck' = South ck
                   ∧ East ck' = East ck ∧ West ck' = West ck.
Proof.
  intros Ea Eb.
  destruct (Link_lookup h a b ca cb Ea Eb) as (h1 & E1 & L1 & H1).
  exists h1. split_and!; [done| |].
  - intros c d Hab Hba. rewrite !Linked_lookup.
    destruct d as [e|]; [|done]. rewrite H1.
    destruct (h !! c) as [cc|]; [|done]. cbn [fmap option_fmap option_map].
    rewrite links_with_links. f_equal. f_equal. unfold link_keys.
    destruct (decide (c = a)) as [Eca|]; destruct (decide (c = b)) as [Ecb|].
    + rewrite !lookup_insert_ne; [done|..]; intros [= ->]; tauto.
    + rewrite lookup_insert_ne; [done|]. intros [= ->]. tauto.
    + rewrite lookup_insert_ne; [done|]. intros [= ->]. tauto.
    + done.
  - intros k ck Ek. rewrite H1, Ek. cbn [fmap option_fmap option_map].
    eexists. by split_and!.
Qed.

Lemma Link_frame_witness :
  let h := [NewCell 0 0; NewCell 0 1] in
  ∃ h1, Link (Some 0) (Some 1) h = Ok h1
        ∧ (∀ c d, ¬ (c = 0 ∧ d = Some 1) → ¬ (c = 1 ∧ d = Some 0) →
                  Linked (Some c) d h1 = Linked (Some c) d h)
        ∧ ∀ k ck, h !! k = Some ck →
            ∃ ck', h1 !! k = Some ck'
                   ∧ Row ck' = Row ck ∧ Column ck' = Column ck
                   ∧ North ck' = North ck ∧ South ck' = South ck
                   ∧ East ck' = East ck ∧ West ck' = West ck.
Proof.
  exact (Link_frame [NewCell 0 0; NewCell 0 1] 0 1
           (NewCell 0 0) (NewCell 0 1) eq_refl eq_refl).
Defined.

(** X4: [a.Unlink(b)] on two cells that hold no entry for each other
    returns and leaves the heap as it is: deleting a missing key is not an
    error. *)
Theorem Unlink_unlinked (h : heap) (a b : nat) (ca cb : Cell) :
  h !! a = Some ca → h !! b = Some cb →
  links ca !! Some b = None → links cb !! Some a = None →
  Unlink (Some a) (Some b) h = Ok h.
Proof.
  intros Ea Eb Na Nb.
  destruct (Unlink_lookup h a b ca cb Ea Eb) as (h1 & E1 & L1 & H1).
  rewrite E1. f_equal. apply list_eq. intros k. rewrite H1.
  destruct (h !! k) as [ck|] eqn:Ek; [|done]. cbn [fmap option_fmap option_map].
  assert (unlink_keys a b k (links ck) = links ck) as ->;
    [|by rewrite with_links_id].
  unfold unlink_keys.
  destruct (decide (k = a)) as [Eka|]; destruct (decide (k = b)) as [Ekb|].
  - subst a. subst b. assert (cb = ck) as -> by congruence.
    rewrite delete_delete_eq. by apply delete_id.
  - subst a. assert (ca = ck) as -> by congruence. by apply delete_id.
  - subst b. assert (cb = ck) as -> by congruence. by apply delete_id.
  - done.
Qed.

Lemma Unlink_unlinked_witness :
  Unlink (Some 0) (Some 1) [NewCell 0 0; NewCell 0 1]
  = Ok [NewCell 0 0; NewCell 0 1].
Proof.
  exact (Unlink_unlinked [NewCell 0 0; NewCell 0 1] 0 1
           (NewCell 0 0) (NewCell 0 1) eq_refl eq_refl eq_refl eq_refl).
Defined.

(** X5: the one-way primitive alone breaks the symmetry: after
    [a.LinkOneWay(b)] between two distinct cells of which [b] holds no
    entry for [a], [a.Linked(b)] is true and [b.Linked(a)] is false. *)
Theorem LinkOneWay_one_sided (h : heap) (a b : nat) (ca cb : Cell) :
  h !! a = Some ca → h !! b = Some cb → a ≠ b →
  links cb !! Some a = None →
  ∃ h1, LinkOneWay (Some a) (Some b) h = Ok h1
        ∧ Linked (Some a) (Some b) h1 = Ok true
        ∧ Linked (Some b) (Some a) h1 = Ok false.
Proof.
  intros Ea Eb Hne Nb.
  assert (La : a < length h) by by eapply lookup_lt_Some.
  rewrite (LinkOneWay_Some _ _ _ _ Ea). eexists. split; [done|].
  rewrite !Linked_lookup, list_lookup_insert_eq by done.
  rewrite list_lookup_insert_ne, Eb by done.
  by rewrite links_with_links, lookup_insert_eq, Nb.
Qed.

Lemma LinkOneWay_one_sided_witness :
  let h := [NewCell 0 0; NewCell 0 1] in
  ∃ h1, LinkOneWay (Some 0) (Some 1) h = Ok h1
        ∧ Linked (Some 0) (Some 1) h1 = Ok true
        ∧ Linked (Some 1) (Some 0) h1 = Ok false.
Proof.
  apply (LinkOneWay_one_sided [NewCell 0 0; NewCell 0 1] 0 1
           (NewCell 0 0) (NewCell 0 1) eq_refl eq_refl); [lia|reflexivity].
Defined.

(** ** cell.go and the RectangleCell: the interface cell *)

Lemma CellBase_Linked_lookup (h : list Rect.RectangleCell) (c : nat)
    (d : Rect.CellRef) :
  d ≠ Rect.NilCell →
  Rect.RectangleCell_Linked (Some c) d h
  = match h !! c with
    | Some cc => Ok (default false (Rect.links (Rect.base cc) !! d))
    | None => Fail InvalidPointer
    end.
Proof.
  intros Hd. unfold Rect.RectangleCell_Linked, Rect.CellBase_Linked, load.
  destruct d as [|p|p]; [done|..];
    (destruct (h !! c) as [cc|]; [|done]); rewrite bind_Ok_l;
    by destruct (Rect.links (Rect.base cc) !! _).
Qed.

(** X6: on the interface cell, [a.Link(b)] is not seen from the other
    side.  [CellBase.Link] hands its own receiver, a [*CellBase], to the
    neighbour, so between two distinct cells [a.Linked(b)] is true
    afterwards, [b] holds an entry for the base of [a], and [b.Linked(a)],
    asked with the [*RectangleCell] [a], is false. *)
Theorem RectangleCell_Link_one_sided (h : list Rect.RectangleCell)
    (a b : nat) (ca cb : Rect.RectangleCell) :
  h !! a = Some ca → h !! b = Some cb → a ≠ b →
  Rect.links (Rect.base cb) !! Rect.RectPtr (Some a) = None →
  ∃ h1,
    Rect.RectangleCell_Link (Some a) (Rect.RectPtr (Some b)) h = Ok h1
    ∧ Rect.RectangleCell_Linked (Some a) (Rect.RectPtr (Some b)) h1 = Ok true
    ∧ Rect.RectangleCell_Linked (Some b) (Rect.BasePtr (Some a)) h1 = Ok true
    ∧ Rect.RectangleCell_Linked (Some b) (Rect.RectPtr (Some a)) h1
      = Ok false.
Proof.
  intros Ea Eb Hne Nb.
  assert (La : a < length h) by by eapply lookup_lt_Some.
  assert (Lb : b < length h) by by eapply lookup_lt_Some.
  unfold Rect.RectangleCell_Link, Rect.CellBase_Link.
  rewrite (CellBase_LinkOneWay_Some _ _ _ _ Ea), bind_Ok_l.
  unfold Rect.Cell_LinkOneWay, Rect.RectangleCell_LinkOneWay.
  assert (E1 : <[a := Rect.with_links
                        (<[Rect.RectPtr (Some b) := true]>
                           (Rect.links (Rect.base ca))) ca]> h !! b
               = Some cb) by by rewrite list_lookup_insert_ne.
  rewrite (CellBase_LinkOneWay_Some _ _ _ _ E1).
  eexists. split; [done|].
  rewrite !CellBase_Linked_lookup by done.
  rewrite list_lookup_insert_ne by done.
  rewrite !list_lookup_insert_eq by by rewrite ?length_insert.
  split_and!.
  - cbn [Rect.with_links Rect.base Rect.links]. by rewrite lookup_insert_eq.
  - cbn [Rect.with_links Rect.base Rect.links]. by rewrite lookup_insert_eq.
  - cbn [Rect.with_links Rect.base Rect.links].
    rewrite lookup_insert_ne by done. by rewrite Nb.
Qed.

Lemma RectangleCell_Link_one_sided_witness :
  let h := [Rect.NewRectangleCell 0 0; Rect.NewRectangleCell 0 1] in
  ∃ h1,
    Rect.RectangleCell_Link (Some 0) (Rect.RectPtr (Some 1)) h = Ok h1
    ∧ Rect.RectangleCell_Linked (Some 0) (Rect.RectPtr (Some 1)) h1 = Ok true
    ∧ Rect.RectangleCell_Linked (Some 1) (Rect.BasePtr (Some 0)) h1 = Ok true
    ∧ Rect.RectangleCell_Linked (Some 1) (Rect.RectPtr (Some 0)) h1
      = Ok false.
Proof.
  apply (RectangleCell_Link_one_sided
           [Rect.NewRectangleCell 0 0; Rect.NewRectangleCell 0 1] 0 1
           (Rect.NewRectangleCell 0 0) (Rect.NewRectangleCell 0 1)
           eq_refl eq_refl); [lia|reflexivity].
Defined.

(** X7: on the interface cell the nil test of [Linked] catches the nil
    interface only.  An absent neighbour handed over as a nil
    [*RectangleCell] is looked up like any key: [Linked] answers true for
    it once [LinkOneWay] has stored it, and [Link] with it panics. *)
Theorem RectangleCell_typed_nil (h : list Rect.RectangleCell) (a : nat)
    (ca : Rect.RectangleCell) :
  h !! a = Some ca →
  Rect.RectangleCell_Linked (Some a) Rect.NilCell h = Ok false
  ∧ Rect.RectangleCell_Linked (Some a) (Rect.RectPtr nilptr) h
    = Ok (default false
            (Rect.links (Rect.base ca) !! Rect.RectPtr nilptr))
  ∧ Rect.RectangleCell_Link (Some a) (Rect.RectPtr nilptr) h
    = Fail NilDereference
  ∧ ∃ h1,
      Rect.RectangleCell_LinkOneWay (Some a) (Rect.RectPtr nilptr) h = Ok h1
      ∧ Rect.RectangleCell_Linked (Some a) (Rect.RectPtr nilptr) h1 = Ok true
      ∧ Rect.RectangleCell_Linked (Some a) Rect.NilCell h1 = Ok false.
Proof.
  intros Ea.
  assert (La : a < length h) by by eapply lookup_lt_Some.
  split_and!; [done| | |].
  - by rewrite CellBase_Linked_lookup, Ea.
  - unfold Rect.RectangleCell_Link, Rect.CellBase_Link.
    by rewrite (CellBase_LinkOneWay_Some _ _ _ _ Ea), bind_Ok_l.
  - unfold Rect.RectangleCell_LinkOneWay.
    rewrite (CellBase_LinkOneWay_Some _ _ _ _ Ea).
    eexists. split_and!; [done| |done].
    rewrite CellBase_Linked_lookup, list_lookup_insert_eq by done.
    cbn [Rect.with_links Rect.base Rect.links]. by rewrite lookup_insert_eq.
Qed.

Lemma RectangleCell_typed_nil_witness :
  let h := [Rect.NewRectangleCell 0 0] in
  Rect.RectangleCell_Linked (Some 0) Rect.NilCell h = Ok false
  ∧ Rect.RectangleCell_Linked (Some 0) (Rect.RectPtr nilptr) h
    = Ok (default false
            (Rect.links (Rect.base (Rect.NewRectangleCell 0 0))
               !! Rect.RectPtr nilptr))
  ∧ Rect.RectangleCell_Link (Some 0) (Rect.RectPtr nilptr) h
    = Fail NilDereference
  ∧ ∃ h1,
      Rect.RectangleCell_LinkOneWay (Some 0) (Rect.RectPtr nilptr) h = Ok h1
      ∧ Rect.RectangleCell_Linked (Some 0) (Rect.RectPtr nilptr) h1 = Ok true
      ∧ Rect.RectangleCell_Linked (Some 0) Rect.NilCell h1 = Ok false.
Proof.
  exact (RectangleCell_typed_nil [Rect.NewRectangleCell 0 0] 0
           (Rect.NewRectangleCell 0 0) eq_refl).
Defined.

(** ** grid.go: construction, traversal, size *)

Lemma length_concat_uniform {A} (n : nat) (xss : list (list A)) :
  (∀ i row, xss !! i = Some row → length row = n) →
  length (concat xss) = length xss * n.
Proof.
  induction xss as [|xs xss IH]; intros Hn; [done|].
  cbn [concat length]. rewrite length_app, (Hn 0 xs eq_refl), IH; [lia|].
  intros i row Ei. by apply (Hn (S i)).
Qed.

Lemma lookup_concat_uniform {A} (n : nat) (xss : list (list A)) i j row :
  (∀ i row, xss !! i = Some row → length row = n) →
  xss !! i = Some row → j < n →
  concat xss !! (i * n + j) = row !! j.
Proof.
  revert i. induction xss as [|xs xss IH]; intros i Hn Ei Hj; [done|].
  cbn [concat]. destruct i as [|i].
  - injection Ei as ->. rewrite lookup_app_l; [done|].
    rewrite (Hn 0 row eq_refl). lia.
  - rewrite lookup_app_r; rewrite (Hn 0 xs eq_refl); [|lia].
    replace (S i * n + j - n) with (i * n + j) by lia.
    apply IH; [|done|done]. intros i' row' Ei'. by apply (Hn (S i')).
Qed.

(** The sequence [AllCells] delivers: the addresses in the order of their
    allocation. *)
Lemma AllCells_closed base Rn Cn g :
  grid_ok base Rn Cn g →
  AllCells g = (λ k, Some (base + k)) <$> seq 0 (Rn * Cn).
Proof.
  intros Hg. pose proof Hg as (_ & _ & Hl & Hrows).
  assert (Hlen : ∀ i row, grid g !! i = Some row → length row = Cn)
    by (intros i row; by apply grid_ok_row_length with base Rn).
  assert (HL : length (AllCells g) = Rn * Cn).
  { unfold AllCells. by rewrite (length_concat_uniform Cn), Hl. }
  apply list_eq. intros k. rewrite list_lookup_fmap.
  destruct (decide (k < Rn * Cn)) as [Hk|Hk].
  - rewrite lookup_seq_lt by done. cbn.
    assert (0 < Cn) by (destruct Cn; lia).
    pose proof (Nat.div_mod_eq k Cn) as Hdm.
    pose proof (Nat.mod_upper_bound k Cn ltac:(lia)) as Hmod.
    assert (Hdiv : k `div` Cn < Rn).
    { apply Nat.Div0.div_lt_upper_bound. lia. }
    destruct (Hrows _ Hdiv) as (row & Ei & Hrl & Hc).
    replace k with (k `div` Cn * Cn + k `mod` Cn) at 1 by lia.
    unfold AllCells. rewrite (lookup_concat_uniform Cn _ _ _ row); try done.
    rewrite (Hc _ Hmod). unfold addr. do 2 f_equal. lia.
  - rewrite lookup_seq_ge by lia. cbn. apply lookup_ge_None. lia.
Qed.

(** X8: [NewGrid] fails, fatally, on a negative dimension.  Whenever it
    returns, no dimension is negative, the grid has the dimensions asked
    for, one cell was allocated per coordinate pair, and every cell that
    existed before is as it was. *)
Theorem NewGrid_allocates (R C : Z) (h0 : heap) :
  (min_int64 ≤ R ≤ max_int64)%Z → (min_int64 ≤ C ≤ max_int64)%Z →
  ((R < 0 ∨ C < 0)%Z → NewGrid R C h0 = Fail FatalLog)
  ∧ ∀ g h,
      NewGrid R C h0 = Ok (g, h) →
      (0 ≤ R ∧ 0 ≤ C)%Z
      ∧ Rows g = R ∧ Columns g = C
      ∧ Z.of_nat (length h) = (Z.of_nat (length h0) + R * C)%Z
      ∧ ∀ k c, h0 !! k = Some c → h !! k = Some c.
Proof.
  intros HR HC. split.
  - apply NewGrid_Fatal.
  - intros g h E.
    destruct (decide (R < 0 ∨ C < 0)%Z) as [Hneg|Hpos].
    { by rewrite (NewGrid_Fatal R C h0 Hneg) in E. }
    destruct (NewGrid_spec R C h0 ltac:(lia) ltac:(lia))
      as (g1 & h1 & E1 & (ER & EC & _) & Hl & Hf & Hc).
    rewrite E in E1. injection E1 as <- <-.
    split_and!; [lia|lia|lia|lia|nia|].
    intros k c Ek. rewrite Hf; [done|]. by eapply lookup_lt_Some.
Qed.

Lemma NewGrid_allocates_witness :
  ((2 < 0 ∨ 3 < 0)%Z → NewGrid 2 3 [NewCell 7 7] = Fail FatalLog)
  ∧ ∃ g h,
      NewGrid 2 3 [NewCell 7 7] = Ok (g, h)
      ∧ (0 ≤ 2 ∧ 0 ≤ 3)%Z
      ∧ Rows g = 2%Z ∧ Columns g = 3%Z
      ∧ Z.of_nat (length h)
        = (Z.of_nat (length [NewCell 7 7]) + 2 * 3)%Z
      ∧ ∀ k c, [NewCell 7 7] !! k = Some c → h !! k = Some c.
Proof.
  destruct (NewGrid_allocates 2 3 [NewCell 7 7]) as [Hneg Hret];
    [unfold min_int64, max_int64; lia..|].
  split; [exact Hneg|].
  eexists _, _. split; [vm_compute; reflexivity|].
  apply Hret. vm_compute. reflexivity.
Defined.

(** X9: [AllCells] delivers every cell of the grid exactly once, in
    row-major order: there are R×C of them, no two are the same, and the
    one at position [row×C + column] is [At(row, column)]. *)
Theorem AllCells_row_major (R C : Z) (h0 : heap) :
  (0 ≤ R ≤ max_int64)%Z → (0 ≤ C ≤ max_int64)%Z →
  ∃ g h, NewGrid R C h0 = Ok (g, h)
         ∧ Z.of_nat (length (AllCells g)) = (R * C)%Z
         ∧ NoDup (AllCells g)
         ∧ ∀ row column : Z,
             (0 ≤ row < R)%Z → (0 ≤ column < C)%Z →
             ∃ p, AllCells g !! Z.to_nat (row * C + column) = Some p
                  ∧ p ≠ nilptr ∧ At g row column = Ok p.
Proof.
  intros HR HC.
  destruct (NewGrid_spec R C h0 HR HC) as (g & h & E & Hg & Hl & Hf & Hc).
  exists g, h. rewrite (AllCells_closed _ _ _ _ Hg).
  split_and!; [done| | |].
  - rewrite length_fmap, length_seq. nia.
  - apply NoDup_fmap_2; [|apply NoDup_seq]. intros x y [= Hxy]. lia.
  - intros row column Hrow Hcol.
    exists (Some (addr (length h0) (Z.to_nat C)
                    (Z.to_nat row) (Z.to_nat column))).
    rewrite (At_spec _ _ _ g row column Hg). unfold cell_at.
    rewrite decide_True by lia. split_and!; [|done|done].
    rewrite list_lookup_fmap, lookup_seq_lt by nia.
    cbn. unfold addr. do 2 f_equal. nia.
Qed.

Lemma AllCells_row_major_witness :
  ∃ g h, NewGrid (cell := Cell) 2 3 [] = Ok (g, h)
         ∧ Z.of_nat (length (AllCells g)) = (2 * 3)%Z
         ∧ NoDup (AllCells g)
         ∧ ∀ row column : Z,
             (0 ≤ row < 2)%Z → (0 ≤ column < 3)%Z →
             ∃ p, AllCells g !! Z.to_nat (row * 3 + column) = Some p
                  ∧ p ≠ nilptr ∧ At g row column = Ok p.
Proof.
  apply (AllCells_row_major 2 3 []); unfold max_int64; lia.
Defined.

(** X10: [AllRows] delivers the R rows from top to bottom, each of C
    cells from west to east: the cell at position [column] of the row at
    position [row] is [At(row, column)]; and [AllCells] is these rows one
    after the other. *)
Theorem AllRows_rows (R C : Z) (h0 : heap) :
  (0 ≤ R ≤ max_int64)%Z → (0 ≤ C ≤ max_int64)%Z →
  ∃ g h, NewGrid R C h0 = Ok (g, h)
         ∧ Z.of_nat (length (AllRows g)) = R
         ∧ AllCells g = concat (AllRows g)
         ∧ ∀ i cells, AllRows g !! i = Some cells →
             Z.of_nat (length cells) = C
             ∧ ∀ j p, cells !! j = Some p →
                 p ≠ nilptr ∧ At g (Z.of_nat i) (Z.of_nat j) = Ok p.
Proof.
  intros HR HC.
  destruct (NewGrid_spec R C h0 HR HC) as (g & h & E & Hg & Hl & Hf & Hc).
  pose proof Hg as (_ & _ & Hlen & _).
  exists g, h. unfold AllRows. split_and!; [done|lia|done|].
  intros i cells Ei. split.
  - rewrite (grid_ok_row_length _ _ _ _ _ _ Hg Ei). lia.
  - intros j p Ej.
    destruct (grid_ok_lookup _ _ _ _ _ _ _ _ Hg Ei Ej) as (Hi & Hj & ->).
    split; [done|]. rewrite (At_spec _ _ _ g _ _ Hg). f_equal.
    by apply cell_at_in.
Qed.

Lemma AllRows_rows_witness :
  ∃ g h, NewGrid (cell := Cell) 2 3 [] = Ok (g, h)
         ∧ Z.of_nat (length (AllRows g)) = 2%Z
         ∧ AllCells g = concat (AllRows g)
         ∧ ∀ i cells, AllRows g !! i = Some cells →
             Z.of_nat (length cells) = 3%Z
             ∧ ∀ j p, cells !! j = Some p →
                 p ≠ nilptr ∧ At g (Z.of_nat i) (Z.of_nat j) = Ok p.
Proof.
  apply (AllRows_rows 2 3 []); unfold max_int64; lia.
Defined.

(** X11: [Size] is the number of cells of the grid, the number that
    [AllCells] delivers, as long as R×C fits 64 bits; beyond, the product
    wraps around. *)
Theorem Size_counts_cells (R C : Z) (h0 : heap) :
  (0 ≤ R ≤ max_int64)%Z → (0 ≤ C ≤ max_int64)%Z →
  ∃ g h, NewGrid R C h0 = Ok (g, h)
         ∧ Size g = wrap64 (Z.of_nat (length (AllCells g)))
         ∧ ((R * C ≤ max_int64)%Z →
            Size g = Z.of_nat (length (AllCells g))
            ∧ Size g = (R * C)%Z).
Proof.
  intros HR HC.
  destruct (NewGrid_spec R C h0 HR HC) as (g & h & E & Hg & Hl & Hf & Hc).
  pose proof Hg as (ER & EC & _).
  exists g, h. rewrite (AllCells_closed _ _ _ _ Hg).
  rewrite length_fmap, length_seq. unfold Size. rewrite ER, EC.
  rewrite <-Nat2Z.inj_mul. split_and!; [done|done|].
  intros Hfit. rewrite wrap64_id; [split; [done|nia]|].
  unfold min_int64, max_int64 in *. nia.
Qed.

Lemma Size_counts_cells_witness :
  ∃ g h, NewGrid (cell := Cell) 2 3 [] = Ok (g, h)
         ∧ Size g = wrap64 (Z.of_nat (length (AllCells g)))
         ∧ ((2 * 3 ≤ max_int64)%Z →
            Size g = Z.of_nat (length (AllCells g))
            ∧ Size g = (2 * 3)%Z).
Proof.
  apply (Size_counts_cells 2 3 []); unfold max_int64; lia.
Defined.

(** ** cell.go: Neighbors *)

Lemma Neighbors_configured base Rn Cn (h : heap) i j m :
  h !! addr base Cn i j = Some (with_links m (configured base Rn Cn i j)) →
  Neighbors (Some (addr base Cn i j)) h
  = Ok (filter (λ n : ptr, n ≠ nilptr)
          [cell_at base Rn Cn (Z.of_nat i - 1) (Z.of_nat j);
           cell_at base Rn Cn (Z.of_nat i + 1) (Z.of_nat j);
           cell_at base Rn Cn (Z.of_nat i) (Z.of_nat j + 1);
           cell_at base Rn Cn (Z.of_nat i) (Z.of_nat j - 1)]).
Proof.
  intros E. unfold Neighbors. by rewrite (load_Some _ _ _ E), bind_Ok_l.
Qed.

Lemma elem_of_filter_four (p n s e w : ptr) :
  p ∈ filter (λ q : ptr, q ≠ nilptr) [n; s; e; w]
  ↔ p ≠ nilptr ∧ (p = n ∨ p = s ∨ p = e ∨ p = w).
Proof.
  rewrite list_elem_of_filter, !elem_of_cons, elem_of_nil. tauto.
Qed.

(** X12: on a grid, [Neighbors] of the cell at [(row, column)] returns the
    cells [At] finds to the north, south, east and west, in this order,
    those outside of the grid left out.  So it never holds nil, a cell is
    in it iff it lies one step away, and being a neighbour is mutual. *)
Theorem Neighbors_adjacent (R C : Z) (h0 : heap) :
  (0 ≤ R ≤ max_int64)%Z → (0 ≤ C ≤ max_int64)%Z →
  ∃ g h,
    NewGrid R C h0 = Ok (g, h)
    ∧ (∀ row column : Z,
         (0 ≤ row < R)%Z → (0 ≤ column < C)%Z →
         ∃ a l n s e w,
           At g row column = Ok (Some a)
           ∧ Neighbors (Some a) h = Ok l
           ∧ At g (row - 1) column = Ok n ∧ At g (row + 1) column = Ok s
           ∧ At g row (column + 1) = Ok e ∧ At g row (column - 1) = Ok w
           ∧ l = filter (λ p : ptr, p ≠ nilptr) [n; s; e; w]
           ∧ ∀ p, p ∈ l
                  ↔ p ≠ nilptr
                    ∧ ∃ r' c' : Z,
                        (Z.abs (row - r') + Z.abs (column - c') = 1)%Z
                        ∧ At g r' c' = Ok p)
    ∧ ∀ (row column row' column' : Z) a a' l l',
        At g row column = Ok (Some a) →
        At g row' column' = Ok (Some a') →
        Neighbors (Some a) h = Ok l → Neighbors (Some a') h = Ok l' →
        Some a' ∈ l ↔ Some a ∈ l'.
Proof.
  intros HR HC.
  destruct (NewGrid_spec R C h0 HR HC) as (g & h & E & Hg & Hl & Hf & Hc).
  set (base := length h0) in *.
  set (Rn := Z.to_nat R) in *. set (Cn := Z.to_nat C) in *.
  assert (Hone : ∀ row column : Z,
    (0 ≤ row < R)%Z → (0 ≤ column < C)%Z →
    let a := addr base Cn (Z.to_nat row) (Z.to_nat column) in
    let l := filter (λ p : ptr, p ≠ nilptr)
               [cell_at base Rn Cn (row - 1) column;
                cell_at base Rn Cn (row + 1) column;
                cell_at base Rn Cn row (column + 1);
                cell_at base Rn Cn row (column - 1)] in
    At g row column = Ok (Some a)
    ∧ Neighbors (Some a) h = Ok l
    ∧ ∀ p, p ∈ l
           ↔ p ≠ nilptr
             ∧ ∃ r' c' : Z,
                 (Z.abs (row - r') + Z.abs (column - c') = 1)%Z
                 ∧ At g r' c' = Ok p).
  { intros row column Hrow Hcol a l. split_and!.
    - rewrite (At_spec _ _ _ g _ _ Hg). unfold cell_at.
      by rewrite decide_True by lia.
    - assert (Ea : h !! a = Some (with_links
                 (links (configured base Rn Cn (Z.to_nat row)
                           (Z.to_nat column)))
                 (configured base Rn Cn (Z.to_nat row) (Z.to_nat column)))).
      { rewrite with_links_id. apply Hc; lia. }
      unfold a. rewrite (Neighbors_configured _ _ _ _ _ _ _ Ea).
      by rewrite !Z2Nat.id by lia.
    - intros p. unfold l. rewrite elem_of_filter_four. split.
      + intros [Hp Hcase]. split; [done|].
        destruct Hcase as [-> | [-> | [-> | ->]]].
        * exists (row - 1)%Z, column. split; [lia|by apply At_spec].
        * exists (row + 1)%Z, column. split; [lia|by apply At_spec].
        * exists row, (column + 1)%Z. split; [lia|by apply At_spec].
        * exists row, (column - 1)%Z. split; [lia|by apply At_spec].
      + intros [Hp (r' & c' & Hd & EA)]. split; [done|].
        rewrite (At_spec _ _ _ g _ _ Hg) in EA. injection EA as <-.
        assert ((r' = row - 1 ∧ c' = column) ∨ (r' = row + 1 ∧ c' = column)
                ∨ (r' = row ∧ c' = column + 1)
                ∨ (r' = row ∧ c' = column - 1))%Z
          as [[-> ->] | [[-> ->] | [[-> ->] | [-> ->]]]] by lia; tauto. }
  assert (Hat : ∀ (row column : Z) a,
    At g row column = Ok (Some a) →
    (0 ≤ row < R)%Z ∧ (0 ≤ column < C)%Z
    ∧ a = addr base Cn (Z.to_nat row) (Z.to_nat column)).
  { intros row column a. rewrite (At_spec _ _ _ g _ _ Hg). unfold cell_at.
    destruct (decide _) as [Hin|]; [|done]. intros [= <-]. lia. }
  exists g, h. split_and!; [done| |].
  - intros row column Hrow Hcol.
    destruct (Hone row column Hrow Hcol) as (EA & EN & Hmem).
    eexists _, _, _, _, _, _.
    split_and!; [exact EA|exact EN|by apply At_spec..|done|exact Hmem].
  - intros row column row' column' a a' l l' EA EA' EN EN'.
    destruct (Hat _ _ _ EA) as (Hrow & Hcol & ->).
    destruct (Hat _ _ _ EA') as (Hrow' & Hcol' & ->).
    destruct (Hone row column Hrow Hcol) as (_ & EN1 & Hmem).
    destruct (Hone row' column' Hrow' Hcol') as (_ & EN1' & Hmem').
    rewrite EN1 in EN. injection EN as <-.
    rewrite EN1' in EN'. injection EN' as <-.
    rewrite Hmem, Hmem'.
    assert (Hdist : ∀ (r1 c1 r2 c2 : Z),
      (0 ≤ r2 < R)%Z → (0 ≤ c2 < C)%Z →
      (∃ r' c' : Z,
         (Z.abs (r1 - r') + Z.abs (c1 - c') = 1)%Z
         ∧ At g r' c'
           = Ok (Some (addr base Cn (Z.to_nat r2) (Z.to_nat c2))))
      ↔ (Z.abs (r1 - r2) + Z.abs (c1 - c2) = 1)%Z).
    { intros r1 c1 r2 c2 Hr2 Hc2. split.
      - intros (r' & c' & Hd & EA2).
        destruct (Hat _ _ _ EA2) as (Hr' & Hc' & Eaddr).
        apply addr_inj in Eaddr; [|lia|lia].
        assert (r' = r2 ∧ c' = c2) as [-> ->] by lia. done.
      - intros Hd. exists r2, c2. split; [done|].
        rewrite (At_spec _ _ _ g _ _ Hg). unfold cell_at.
        by rewrite decide_True by lia. }
    rewrite (Hdist row column row' column') by done.
    rewrite (Hdist row' column' row column) by done.
    split; intros [_ Hd]; (split; [done|lia]).
Qed.

Lemma Neighbors_adjacent_witness :
  ∃ g h,
    NewGrid (cell := Cell) 2 3 [] = Ok (g, h)
    ∧ (∀ row column : Z,
         (0 ≤ row < 2)%Z → (0 ≤ column < 3)%Z →
         ∃ a l n s e w,
           At g row column = Ok (Some a)
           ∧ Neighbors (Some a) h = Ok l
           ∧ At g (row - 1) column = Ok n ∧ At g (row + 1) column = Ok s
           ∧ At g row (column + 1) = Ok e ∧ At g row (column - 1) = Ok w
           ∧ l = filter (λ p : ptr, p ≠ nilptr) [n; s; e; w]
           ∧ ∀ p, p ∈ l
                  ↔ p ≠ nilptr
                    ∧ ∃ r' c' : Z,
                        (Z.abs (row - r') + Z.abs (column - c') = 1)%Z
                        ∧ At g r' c' = Ok p)
    ∧ ∀ (row column row' column' : Z) a a' l l',
        At g row column = Ok (Some a) →
        At g row' column' = Ok (Some a') →
        Neighbors (Some a) h = Ok l → Neighbors (Some a') h = Ok l' →
        Some a' ∈ l ↔ Some a ∈ l'.
Proof.
  apply (Neighbors_adjacent 2 3 []); unfold max_int64; lia.
Defined.

(** ** The binary tree generator: the maze it makes *)

Lemma lookup_link_keys a b k m q v :
  link_keys a b k m !! q = Some v
  ↔ (v = true ∧ ((k = a ∧ q = Some b) ∨ (k = b ∧ q = Some a)))
    ∨ (¬ ((k = a ∧ q = Some b) ∨ (k = b ∧ q = Some a)) ∧ m !! q = Some v).
Proof.
  unfold link_keys.
  destruct (decide (k = a)) as [Eka|Nka]; destruct (decide (k = b)) as [Ekb|Nkb].
  - rewrite lookup_insert. destruct (decide (Some a = q)) as [<-|Hq1].
    + split; [intros [= <-]; left; tauto|]. intros [[-> _]|[Hn _]]; [done|].
      destruct Hn. by right.
    + rewrite lookup_insert. destruct (decide (Some b = q)) as [<-|Hq2].
      * split; [intros [= <-]; left; tauto|]. intros [[-> _]|[Hn _]]; [done|].
        destruct Hn. by left.
      * split; [intros Hm; right; split; [|done]|].
        -- intros [[_ Hq]|[_ Hq]]; congruence.
        -- intros [[_ [[_ Hq]|[_ Hq]]]|[_ Hm]]; congruence.
  - rewrite lookup_insert. destruct (decide (Some b = q)) as [<-|Hq2].
    + split; [intros [= <-]; left; tauto|]. intros [[-> _]|[Hn _]]; [done|].
      destruct Hn. by left.
    + split; [intros Hm; right; split; [|done]|].
      * intros [[_ Hq]|[Hk _]]; congruence.
      * intros [[_ [[_ Hq]|[Hk _]]]|[_ Hm]]; congruence.
  - rewrite lookup_insert. destruct (decide (Some a = q)) as [<-|Hq1].
    + split; [intros [= <-]; left; tauto|]. intros [[-> _]|[Hn _]]; [done|].
      destruct Hn. by right.
    + split; [intros Hm; right; split; [|done]|].
      * intros [[Hk _]|[_ Hq]]; congruence.
      * intros [[_ [[Hk _]|[_ Hq]]]|[_ Hm]]; congruence.
  - split; [intros Hm; right; split; [|done]|].
    + intros [[Hk _]|[Hk _]]; congruence.
    + intros [[_ [[Hk _]|[Hk _]]]|[_ Hm]]; congruence.
Qed.

Lemma bt_chose_step Rn Cn ch (north : bool) i j i1 j1 i2 j2 :
  i < Rn → j < Cn → 0 < i ∨ j + 1 < Cn →
  bt_chose Rn Cn (λ a b, if decide (a = i ∧ b = j) then north else ch a b)
    i (S j) i1 j1 i2 j2
  ↔ bt_chose Rn Cn ch i j i1 j1 i2 j2
    ∨ (i1 = i ∧ j1 = j ∧ (i2, j2) = bt_target north i j).
Proof.
  intros Hi Hj Hnc. unfold bt_chose. split.
  - intros (Hb & Hi1 & Hj1 & Hnc1 & Ht).
    apply before_S in Hb as [Hb|[-> ->]].
    + left. rewrite decide_False in Ht; [done|].
      intros [-> ->]. by apply before_irrefl in Hb.
    + right. by rewrite decide_True in Ht.
  - intros [(Hb & Hi1 & Hj1 & Hnc1 & Ht)|(-> & -> & Ht)].
    + split_and!; [apply before_S; by left|done..|].
      rewrite decide_False; [done|].
      intros [-> ->]. by apply before_irrefl in Hb.
    + split_and!; [apply before_S; by right|done..|].
      by rewrite decide_True.
Qed.

Lemma bt_chose_corner Rn Cn ch i j i1 j1 i2 j2 :
  ¬ (0 < i ∨ j + 1 < Cn) →
  bt_chose Rn Cn ch i (S j) i1 j1 i2 j2 ↔ bt_chose Rn Cn ch i j i1 j1 i2 j2.
Proof.
  intros Hc. unfold bt_chose. rewrite before_S. split.
  - intros ([Hb|[-> ->]] & Hi1 & Hj1 & Hnc & Ht); [done|]. lia.
  - intros (Hb & Hrest). split; [by left|done].
Qed.

Lemma bt_chose_next_row Rn Cn ch i i1 j1 i2 j2 :
  bt_chose Rn Cn ch (S i) 0 i1 j1 i2 j2 ↔ bt_chose Rn Cn ch i Cn i1 j1 i2 j2.
Proof.
  unfold bt_chose. split; intros (Hb & Hi1 & Hj1 & Hnc & Ht);
    (split_and!; [|done..]); by apply (before_next_row Cn).
Qed.

Section BinaryTree_maze.
Variables (base Rn Cn : nat) (h_init : heap) (rnd0 : Rand).
Implicit Types (h : heap) (rnd : Rand) (i j n : nat).

Lemma BinaryTree_inv2_link h rnd rnd' n i j (north : bool) :
  i < Rn → j < Cn →
  (north = true → 0 < i) → (north = false → j + 1 < Cn) →
  draws rnd' = S (draws rnd) →
  BinaryTree_inv2 base Rn Cn h_init rnd0 i j (h, rnd, n) →
  ∃ h', Link (Some (addr base Cn i j))
          (Some (addr base Cn (bt_target north i j).1
                   (bt_target north i j).2)) h = Ok h'
        ∧ BinaryTree_inv2 base Rn Cn h_init rnd0 i (S j) (h', rnd', S n).
Proof.
  intros Hi Hj HN HE Hdr (ch & Hval & Hn & Hd & Hlen & Hfr & Hcells).
  cbn [fst snd] in *.
  assert (Hnc : 0 < i ∨ j + 1 < Cn) by (destruct north; [left|right]; auto).
  set (ib := (bt_target north i j).1). set (jb := (bt_target north i j).2).
  assert (Hib : ib < Rn ∧ jb < Cn).
  { unfold ib, jb, bt_target. destruct north; cbn [fst snd].
    - specialize (HN eq_refl). lia.
    - specialize (HE eq_refl). lia. }
  destruct Hib as [Hib Hjb].
  assert (Htgt : (ib, jb) = bt_target north i j)
    by (unfold ib, jb; by destruct (bt_target north i j)).
  destruct (Hcells i j Hi Hj) as (ma & Ea & _).
  destruct (Hcells ib jb Hib Hjb) as (mb & Eb & _).
  destruct (Link_lookup h _ _ _ _ Ea Eb) as (h' & EL & Hlen' & Hk).
  exists h'. split; [done|].
  exists (λ a b, if decide (a = i ∧ b = j) then north else ch a b).
  cbn [fst snd]. split_and!.
  - intros i1 j1 [Hb|[-> ->]]%before_S Hi1 Hj1.
    + rewrite decide_False; [by apply Hval|].
      intros [-> ->]. by apply before_irrefl in Hb.
    + rewrite decide_True by done. done.
  - lia.
  - rewrite Hdr.
    destruct (decide (before 0 (Cn - 1) i j)) as [Hb|Hb].
    + rewrite decide_True; [lia|]. apply before_S. by left.
    + rewrite decide_False; [lia|]. intros [?|[? ?]]%before_S; [done|lia].
  - lia.
  - intros k Hk0. rewrite Hk, <-Hfr by done.
    destruct (h !! k) as [ck|]; [|done]. cbn [fmap option_fmap option_map].
    unfold link_keys, addr. rewrite !decide_False by lia.
    by rewrite with_links_id.
  - intros i1 j1 Hi1 Hj1. destruct (Hcells i1 j1 Hi1 Hj1) as (m & Em & Hm).
    eexists. split.
    { rewrite Hk, Em. cbn [fmap option_fmap option_map].
      by rewrite with_links_with_links, links_with_links. }
    intros q v. rewrite lookup_link_keys.
    assert (Hka : addr base Cn i1 j1 = addr base Cn i j ↔ i1 = i ∧ j1 = j).
    { split; [by apply addr_inj|by intros [-> ->]]. }
    assert (Hkb : addr base Cn i1 j1 = addr base Cn ib jb
                  ↔ i1 = ib ∧ j1 = jb).
    { split; [by apply addr_inj|by intros [-> ->]]. }
    rewrite Hka, Hkb. split.
    + intros [[-> Hnew]|[Hnot Hold]].
      * split; [done|]. destruct Hnew as [[[-> ->] ->]|[[-> ->] ->]].
        -- exists ib, jb. split_and!; [done..|]. left.
           apply bt_chose_step; [done..|]. by right.
        -- exists i, j. split_and!; [done..|]. right.
           apply bt_chose_step; [done..|]. by right.
      * apply Hm in Hold as [-> (i2 & j2 & Hi2 & Hj2 & -> & Hch)].
        split; [done|]. exists i2, j2. split_and!; [done..|].
        destruct Hch as [Hch|Hch]; [left|right];
          (apply bt_chose_step; [done..|]; by left).
    + intros [-> (i2 & j2 & Hi2 & Hj2 & -> & Hch)].
      destruct (decide ((i1 = i ∧ j1 = j)
                        ∧ Some (addr base Cn i2 j2)
                          = Some (addr base Cn ib jb)
                        ∨ (i1 = ib ∧ j1 = jb)
                          ∧ Some (addr base Cn i2 j2)
                            = Some (addr base Cn i j))) as [Hnew|Hnot].
      { left. by split. }
      right. split; [done|]. apply Hm. split; [done|].
      exists i2, j2. split_and!; [done..|].
      destruct Hch as [Hch|Hch];
        apply bt_chose_step in Hch as [Hch|(-> & -> & Ht)]; try done.
      * by left.
      * rewrite <-Htgt in Ht. injection Ht as -> ->.
        destruct Hnot. left. done.
      * by right.
      * rewrite <-Htgt in Ht. injection Ht as -> ->.
        destruct Hnot. right. done.
Qed.

Lemma BinaryTree_cell_inv2 h rnd n i j :
  i < Rn → j < Cn →
  BinaryTree_inv2 base Rn Cn h_init rnd0 i j (h, rnd, n) →
  ∃ st', BinaryTree_cell (Some (addr base Cn i j)) (h, rnd, n) = Ok st'
         ∧ BinaryTree_inv2 base Rn Cn h_init rnd0 i (S j) st'.
Proof.
  intros Hi Hj Hinv.
  pose proof Hinv as (ch & Hval & Hn & Hd & Hlen & Hfr & Hcells).
  cbn [fst snd] in *.
  destruct (Hcells i j Hi Hj) as (m & Ea & _).
  unfold BinaryTree_cell. rewrite (load_Some _ _ _ Ea), bind_Ok_l.
  cbv beta zeta. rewrite (BinaryTree_neighbors_configured _ _ _ _ _ _ Hi Hj).
  destruct (decide (0 < i)) as [Hpos|Hz];
    destruct (decide (j + 1 < Cn)) as [Hlt|Hge].
  - cbn [app length]. rewrite decide_True by lia.
    destruct (Intn_pos (Z.of_nat 2) rnd) as (v & -> & Hv); [lia|].
    rewrite bind_Ok_l. cbv beta iota.
    assert (v = 0 ∨ v = 1)%Z as [->| ->] by lia.
    + change (index _ 0%Z) with (Ok (A := ptr) (Some (addr base Cn (i - 1) j))).
      rewrite bind_Ok_l.
      destruct (BinaryTree_inv2_link h rnd
                  (mkRand (tail (tape rnd)) (S (draws rnd))) n i j true)
        as (h' & EL & Hinv'); [done..|].
      cbn [bt_target fst snd] in EL. rewrite EL, bind_Ok_l. eauto.
    + change (index _ 1%Z) with (Ok (A := ptr) (Some (addr base Cn i (j + 1)))).
      rewrite bind_Ok_l.
      destruct (BinaryTree_inv2_link h rnd
                  (mkRand (tail (tape rnd)) (S (draws rnd))) n i j false)
        as (h' & EL & Hinv'); [done..|].
      cbn [bt_target fst snd] in EL. rewrite EL, bind_Ok_l. eauto.
  - cbn [app length]. rewrite decide_True by lia.
    destruct (Intn_pos (Z.of_nat 1) rnd) as (v & -> & Hv); [lia|].
    rewrite bind_Ok_l. cbv beta iota.
    assert (v = 0)%Z as -> by lia.
    change (index _ 0%Z) with (Ok (A := ptr) (Some (addr base Cn (i - 1) j))).
    rewrite bind_Ok_l.
    destruct (BinaryTree_inv2_link h rnd
                (mkRand (tail (tape rnd)) (S (draws rnd))) n i j true)
      as (h' & EL & Hinv'); [done..|].
    cbn [bt_target fst snd] in EL. rewrite EL, bind_Ok_l. eauto.
  - cbn [app length]. rewrite decide_True by lia.
    destruct (Intn_pos (Z.of_nat 1) rnd) as (v & -> & Hv); [lia|].
    rewrite bind_Ok_l. cbv beta iota.
    assert (v = 0)%Z as -> by lia.
    change (index _ 0%Z) with (Ok (A := ptr) (Some (addr base Cn i (j + 1)))).
    rewrite bind_Ok_l.
    destruct (BinaryTree_inv2_link h rnd
                (mkRand (tail (tape rnd)) (S (draws rnd))) n i j false)
      as (h' & EL & Hinv'); [done..|].
    cbn [bt_target fst snd] in EL. rewrite EL, bind_Ok_l. eauto.
  - cbn [app length]. rewrite decide_False by lia.
    eexists. split; [done|]. exists ch. cbn [fst snd].
    assert (Hcorner : ¬ (0 < i ∨ j + 1 < Cn)) by lia.
    split_and!.
    + intros i1 j1 [Hb|[-> ->]]%before_S Hi1 Hj1 Hnc; [by apply Hval|lia].
    + lia.
    + rewrite decide_False in Hd by (unfold before; lia).
      rewrite decide_True by (unfold before; lia). lia.
    + done.
    + done.
    + intros i1 j1 Hi1 Hj1. destruct (Hcells i1 j1 Hi1 Hj1) as (m1 & Em1 & Hm1).
      exists m1. split; [done|]. intros q v. rewrite (Hm1 q v).
      split; intros [-> (i2 & j2 & Hi2 & Hj2 & -> & Hch)];
        (split; [done|]); exists i2, j2; (split_and!; [done..|]);
        destruct Hch as [Hch|Hch]; [left|right|left|right];
        by apply (bt_chose_corner Rn Cn ch i j).
Qed.
End BinaryTree_maze.

(** The maze of [BinaryTree], on every grid and for every random stream:
    the link sets are told by one choice, north or east, for every cell
    but the north-east corner. *)
Lemma BinaryTree_maze_spec (R C : Z) (h0 : heap) (rnd : Rand) :
  (1 ≤ R ≤ max_int64)%Z → (1 ≤ C ≤ max_int64)%Z →
  ∃ g h,
    NewGrid R C h0 = Ok (g, h)
    ∧ grid_ok (length h0) (Z.to_nat R) (Z.to_nat C) g
    ∧ ∃ h' rnd' n ch,
        BinaryTree g h rnd = Ok (h', rnd', n)
        ∧ bt_valid (Z.to_nat R) (Z.to_nat C) ch (Z.to_nat R) 0
        ∧ draws rnd' + 1 = draws rnd + Z.to_nat R * Z.to_nat C
        ∧ length h' = length h
        ∧ (∀ k, k < length h0 → h' !! k = h0 !! k)
        ∧ ∀ i j, i < Z.to_nat R → j < Z.to_nat C →
            ∃ m, h' !! addr (length h0) (Z.to_nat C) i j
                 = Some (with_links m
                           (configured (length h0) (Z.to_nat R)
                              (Z.to_nat C) i j))
                 ∧ bt_links (length h0) (Z.to_nat R) (Z.to_nat C) ch
                     (Z.to_nat R) 0 i j m.
Proof.
  intros HR HC.
  destruct (NewGrid_spec R C h0 ltac:(lia) ltac:(lia))
    as (g & h & E & Hg & Hl & Hf & Hc).
  set (base := length h0) in *.
  set (Rn := Z.to_nat R) in *. set (Cn := Z.to_nat C) in *.
  assert (HCn : 0 < Cn) by lia.
  exists g, h. split_and!; [done|done|].
  pose proof Hg as (_ & _ & Hlen & _).
  unfold BinaryTree, AllCells.
  destruct (for_each_concat_inv
              (λ i j st, BinaryTree_inv2 base Rn Cn h rnd i j st) Cn
              BinaryTree_cell (grid g) (h, rnd, 0))
    as ([[h' rnd'] n] & EB & ch & Hval & Hn & Hd & Hlen' & Hfr & Hcells).
  - intros i row Ei. by eapply grid_ok_row_length.
  - exists (λ _ _, false). cbn [fst snd]. split_and!.
    + intros i1 j1 Hb. by apply not_before_0 in Hb.
    + lia.
    + rewrite decide_False by apply not_before_0. lia.
    + done.
    + done.
    + intros i1 j1 Hi1 Hj1.
      exists (links (configured base Rn Cn i1 j1)).
      rewrite with_links_id. split; [by apply Hc|].
      intros q v. split.
      * cbn. by rewrite lookup_empty.
      * intros [_ (i2 & j2 & _ & _ & _ & [Hch|Hch])];
          destruct Hch as (Hb & _); by apply not_before_0 in Hb.
  - intros i j row x [[h1 rnd1] n1] Ei Ej Hinv.
    destruct (grid_ok_lookup _ _ _ _ _ _ _ _ Hg Ei Ej) as (Hi & Hj & ->).
    by apply BinaryTree_cell_inv2.
  - intros i [[h1 rnd1] n1] Hi (ch & Hval & Hn & Hd & Hlen' & Hfr & Hcells).
    exists ch. cbn [fst snd] in *. split_and!.
    + intros i1 j1 Hb Hi1 Hj1. apply Hval; [|done..].
      by apply (before_next_row Cn).
    + lia.
    + destruct (decide (before 0 (Cn - 1) i Cn)) as [Hb|Hb].
      * rewrite decide_True; [lia|]. apply (before_next_row Cn); [lia|done].
      * rewrite decide_False; [lia|].
        intros Hb'. apply Hb. apply (before_next_row Cn); [lia|done].
    + done.
    + done.
    + intros i1 j1 Hi1 Hj1. destruct (Hcells i1 j1 Hi1 Hj1) as (m & Em & Hm).
      exists m. split; [done|]. intros q v. rewrite (Hm q v).
      split; intros [-> (i2 & j2 & Hi2 & Hj2 & -> & Hch)];
        (split; [done|]); exists i2, j2; (split_and!; [done..|]);
        destruct Hch as [Hch|Hch]; [left|right|left|right];
        by apply bt_chose_next_row.
  - cbn [fst snd] in *. rewrite Hlen in *.
    exists h', rnd', n, ch. split_and!; [done|done| |done| |done].
    + rewrite decide_True in Hd by (unfold before; lia). lia.
    + intros k Hk. rewrite Hfr by done. by apply Hf.
Qed.

(** After the loop a cell chose another one iff it is not the corner and
    the other one is its target. *)
Lemma bt_chose_end Rn Cn ch i1 j1 i2 j2 :
  i1 < Rn → j1 < Cn →
  bt_chose Rn Cn ch Rn 0 i1 j1 i2 j2
  ↔ (0 < i1 ∨ j1 + 1 < Cn) ∧ (i2, j2) = bt_target (ch i1 j1) i1 j1.
Proof.
  intros Hi1 Hj1. unfold bt_chose. split.
  - by intros (_ & _ & _ & Hnc & Ht).
  - intros [Hnc Ht]. split_and!; [by apply before_all|done..].
Qed.

Lemma bt_links_lookup base Rn Cn ch i1 j1 i2 j2 m :
  i1 < Rn → j1 < Cn → i2 < Rn → j2 < Cn →
  bt_links base Rn Cn ch Rn 0 i1 j1 m →
  default false (m !! Some (addr base Cn i2 j2)) = true
  ↔ ((0 < i1 ∨ j1 + 1 < Cn) ∧ (i2, j2) = bt_target (ch i1 j1) i1 j1)
    ∨ ((0 < i2 ∨ j2 + 1 < Cn) ∧ (i1, j1) = bt_target (ch i2 j2) i2 j2).
Proof.
  intros Hi1 Hj1 Hi2 Hj2 Hm.
  rewrite <-!bt_chose_end by done. split.
  - destruct (m !! Some (addr base Cn i2 j2)) as [v|] eqn:Ev; [|done].
    cbn. intros ->. apply Hm in Ev as [_ (i3 & j3 & Hi3 & Hj3 & [= Ea] & Hch)].
    apply addr_inj in Ea as [-> ->]; done.
  - intros Hch.
    assert (Ev : m !! Some (addr base Cn i2 j2) = Some true).
    { apply Hm. split; [done|]. by exists i2, j2. }
    by rewrite Ev.
Qed.

Section BinaryTree_final.
Variables (base Rn Cn : nat) (g : Grid) (h' : heap) (ch : nat → nat → bool).
Hypothesis g_ok : grid_ok base Rn Cn g.
Hypothesis ch_valid : bt_valid Rn Cn ch Rn 0.
Hypothesis cells :
  ∀ i j, i < Rn → j < Cn →
    ∃ m, h' !! addr base Cn i j
         = Some (with_links m (configured base Rn Cn i j))
         ∧ bt_links base Rn Cn ch Rn 0 i j m.

Lemma bt_final_linked_cell i1 j1 i2 j2 :
  i1 < Rn → j1 < Cn → i2 < Rn → j2 < Cn →
  Linked (Some (addr base Cn i1 j1)) (Some (addr base Cn i2 j2)) h' = Ok true
  ↔ bt_passage Cn ch i1 j1 i2 j2.
Proof.
  intros Hi1 Hj1 Hi2 Hj2. destruct (cells i1 j1 Hi1 Hj1) as (m & Em & Hm).
  rewrite Linked_lookup, Em, links_with_links.
  unfold bt_passage.
  rewrite <-(bt_links_lookup base Rn Cn ch i1 j1 i2 j2 m) by done.
  split; [by intros [= ->]|by intros ->].
Qed.

Lemma bt_final_linked i1 j1 q :
  i1 < Rn → j1 < Cn →
  Linked (Some (addr base Cn i1 j1)) q h' = Ok true
  ↔ ∃ i2 j2, i2 < Rn ∧ j2 < Cn ∧ q = Some (addr base Cn i2 j2)
             ∧ bt_passage Cn ch i1 j1 i2 j2.
Proof.
  intros Hi1 Hj1. split.
  - intros HL. destruct (cells i1 j1 Hi1 Hj1) as (m & Em & Hm).
    rewrite Linked_lookup in HL. destruct q as [b|]; [|done].
    rewrite Em, links_with_links in HL.
    destruct (m !! Some b) as [v|] eqn:Ev; [|done].
    pose proof Ev as Ev'.
    apply Hm in Ev' as [_ (i2 & j2 & Hi2 & Hj2 & [= ->] & _)].
    exists i2, j2. split_and!; [done..|].
    apply bt_final_linked_cell; [done..|].
    by rewrite Linked_lookup, Em, links_with_links, Ev.
  - intros (i2 & j2 & Hi2 & Hj2 & -> & Hp).
    by apply bt_final_linked_cell.
Qed.

Lemma passage_sym i1 j1 i2 j2 :
  bt_passage Cn ch i1 j1 i2 j2 → bt_passage Cn ch i2 j2 i1 j1.
Proof. unfold bt_passage. tauto. Qed.

(** A passage joins a cell and one of its four neighbours. *)
Lemma passage_adjacent i1 j1 i2 j2 :
  i1 < Rn → j1 < Cn → i2 < Rn → j2 < Cn →
  bt_passage Cn ch i1 j1 i2 j2 →
  (i2 + 1 = i1 ∧ j2 = j1) ∨ (i2 = i1 + 1 ∧ j2 = j1)
  ∨ (i2 = i1 ∧ j2 = j1 + 1) ∨ (i2 = i1 ∧ j2 + 1 = j1).
Proof.
  intros Hi1 Hj1 Hi2 Hj2 [[Hnc Ht]|[Hnc Ht]].
  - destruct (ch_valid i1 j1) as [HN HE];
      [by apply before_all|done..|].
    unfold bt_target in Ht. destruct (ch i1 j1); injection Ht as -> ->.
    + specialize (HN eq_refl). lia.
    + specialize (HE eq_refl). lia.
  - destruct (ch_valid i2 j2) as [HN HE];
      [by apply before_all|done..|].
    unfold bt_target in Ht. destruct (ch i2 j2); injection Ht as -> ->.
    + specialize (HN eq_refl). lia.
    + specialize (HE eq_refl). lia.
Qed.

(** Every cell but the corner has a passage that takes it one step closer
    to the corner. *)
Lemma passage_ahead i j :
  i < Rn → j < Cn → 0 < i ∨ j + 1 < Cn →
  ∃ i2 j2, i2 < Rn ∧ j2 < Cn ∧ bt_passage Cn ch i j i2 j2
           ∧ i2 + (Cn - 1 - j2) + 1 = i + (Cn - 1 - j).
Proof.
  intros Hi Hj Hnc.
  destruct (ch_valid i j) as [HN HE]; [by apply before_all|done..|].
  destruct (ch i j) eqn:Ech.
  - specialize (HN eq_refl). exists (i - 1), j.
    split_and!; [lia|lia| |lia]. left. by rewrite Ech.
  - specialize (HE eq_refl). exists i, (j + 1).
    split_and!; [lia|lia| |lia]. left. by rewrite Ech.
Qed.

Lemma bt_path_to_corner d i j :
  i < Rn → j < Cn → i + (Cn - 1 - j) = d →
  rtc (λ x y : ptr, Linked x y h' = Ok true)
    (Some (addr base Cn i j)) (Some (addr base Cn 0 (Cn - 1))).
Proof.
  revert i j. induction d as [|d IH]; intros i j Hi Hj Hd.
  - assert (i = 0 ∧ j = Cn - 1) as [-> ->] by lia. done.
  - destruct (passage_ahead i j) as (i2 & j2 & Hi2 & Hj2 & Hp & Hm);
      [done|done|lia|].
    eapply rtc_l; [|apply (IH i2 j2); [done|done|lia]].
    by apply bt_final_linked_cell.
Qed.

Lemma bt_path_back (x z : ptr) :
  rtc (λ x y : ptr, Linked x y h' = Ok true) x z →
  (∃ i j, i < Rn ∧ j < Cn ∧ x = Some (addr base Cn i j)) →
  rtc (λ x y : ptr, Linked x y h' = Ok true) z x.
Proof.
  induction 1 as [x|x y z Hxy Hyz IH]; [done|].
  intros (i & j & Hi & Hj & ->).
  apply bt_final_linked in Hxy as (i2 & j2 & Hi2 & Hj2 & -> & Hp); [|done..].
  eapply rtc_r; [apply IH; by exists i2, j2|].
  apply bt_final_linked_cell; [done..|]. by apply passage_sym.
Qed.
Lemma bt_final_linked_bool i1 j1 i2 j2 :
  i1 < Rn → j1 < Cn → i2 < Rn → j2 < Cn →
  ∃ l : bool,
    Linked (Some (addr base Cn i1 j1)) (Some (addr base Cn i2 j2)) h' = Ok l
    ∧ (l = true ↔ bt_passage Cn ch i1 j1 i2 j2).
Proof.
  intros Hi1 Hj1 Hi2 Hj2. destruct (cells i1 j1 Hi1 Hj1) as (m & Em & Hm).
  exists (default false (m !! Some (addr base Cn i2 j2))).
  split; [by rewrite Linked_lookup, Em, links_with_links|].
  rewrite <-bt_final_linked_cell by done.
  rewrite Linked_lookup, Em, links_with_links.
  split; [by intros ->|by intros [= ->]].
Qed.

(** The two passages a cell may have chosen: exactly one of them is
    there, unless the cell is the corner. *)
Lemma bt_final_north_east i j :
  i < Rn → j < Cn →
  ∃ lN lE : bool,
    Linked (Some (addr base Cn i j))
      (cell_at base Rn Cn (Z.of_nat i - 1) (Z.of_nat j)) h' = Ok lN
    ∧ Linked (Some (addr base Cn i j))
        (cell_at base Rn Cn (Z.of_nat i) (Z.of_nat j + 1)) h' = Ok lE
    ∧ (i = 0 → lN = false) ∧ (j + 1 = Cn → lE = false)
    ∧ (0 < i ∨ j + 1 < Cn → lN = negb lE).
Proof.
  intros Hi Hj. rewrite cell_at_north, cell_at_east by done.
  destruct (decide (0 < i)) as [Hpos|Hz];
    destruct (decide (j + 1 < Cn)) as [Hlt|Hge].
  - destruct (bt_final_linked_bool i j (i - 1) j) as (lN & EN & HN);
      [lia..|].
    destruct (bt_final_linked_bool i j i (j + 1)) as (lE & EE & HE);
      [lia..|].
    exists lN, lE. split_and!; [done|done|lia|lia|]. intros _.
    destruct (ch_valid i j) as [VN VE]; [by apply before_all|lia..|].
    unfold bt_passage, bt_target in HN, HE.
    destruct lN, lE; cbn; try done; exfalso.
    + destruct HN as [HN _], HE as [HE _].
      specialize (HN eq_refl). specialize (HE eq_refl).
      destruct (ch i j), (ch (i - 1) j), (ch i (j + 1));
        destruct HN as [[_ EqN]|[_ EqN]];
        destruct HE as [[_ EqE]|[_ EqE]];
        apply pair_equal_spec in EqN; apply pair_equal_spec in EqE; lia.
    + destruct HN as [_ HN], HE as [_ HE]. destruct (ch i j).
      * enough (false = true) by done. apply HN. left. split; [lia|done].
      * enough (false = true) by done. apply HE. left. split; [lia|done].
  - destruct (bt_final_linked_bool i j (i - 1) j) as (lN & EN & HN);
      [lia..|].
    exists lN, false. split_and!; [done|done|lia|done|]. intros _.
    destruct (ch_valid i j) as [VN VE]; [by apply before_all|lia..|].
    cbn. apply HN. left. split; [lia|].
    unfold bt_target. destruct (ch i j); [done|].
    specialize (VE eq_refl). lia.
  - destruct (bt_final_linked_bool i j i (j + 1)) as (lE & EE & HE);
      [lia..|].
    exists false, lE. split_and!; [done|done|done|lia|]. intros _.
    destruct (ch_valid i j) as [VN VE]; [by apply before_all|lia..|].
    assert (lE = true) as ->; [|done]. apply HE. left. split; [lia|].
    unfold bt_target. destruct (ch i j); [|done].
    specialize (VN eq_refl). lia.
  - exists false, false. split_and!; [done|done|done|done|lia].
Qed.
End BinaryTree_final.

(** X13: after [BinaryTree] every cell but the north-east corner is linked
    to exactly one of its North and East neighbours: to the East one all
    along the top row, to the North one all along the last column; the
    corner is linked to neither.  The generator makes R×C − 1 draws. *)
Theorem BinaryTree_north_xor_east (R C : Z) (h0 : heap) (rnd : Rand) :
  (1 ≤ R ≤ max_int64)%Z → (1 ≤ C ≤ max_int64)%Z →
  ∃ g h h' rnd' n,
    NewGrid R C h0 = Ok (g, h)
    ∧ BinaryTree g h rnd = Ok (h', rnd', n)
    ∧ (Z.of_nat (draws rnd') = Z.of_nat (draws rnd) + R * C - 1)%Z
    ∧ ∀ row column : Z,
        (0 ≤ row < R)%Z → (0 ≤ column < C)%Z →
        ∃ a north east (lN lE : bool),
          At g row column = Ok (Some a)
          ∧ At g (row - 1) column = Ok north
          ∧ At g row (column + 1) = Ok east
          ∧ Linked (Some a) north h' = Ok lN
          ∧ Linked (Some a) east h' = Ok lE
          ∧ (row = 0%Z → lN = false)
          ∧ (column = (C - 1)%Z → lE = false)
          ∧ (row ≠ 0%Z ∨ column ≠ (C - 1)%Z → lN = negb lE).
Proof.
  intros HR HC.
  destruct (BinaryTree_maze_spec R C h0 rnd HR HC)
    as (g & h & E & Hg & h' & rnd' & n & ch & EB & Hval & Hd & Hlen & Hfr
        & Hcells).
  exists g, h, h', rnd', n. split_and!; [done|done|nia|].
  intros row column Hrow Hcol.
  destruct (bt_final_north_east _ _ _ h' ch Hval Hcells
              (Z.to_nat row) (Z.to_nat column))
    as (lN & lE & EN & EE & HN0 & HE0 & Hx); [lia|lia|].
  rewrite !Z2Nat.id in EN, EE by lia.
  eexists _, _, _, lN, lE.
  split_and!; [|by apply At_spec|by apply At_spec|exact EN|exact EE|..].
  - rewrite (At_spec _ _ _ g _ _ Hg). unfold cell_at.
    by rewrite decide_True by lia.
  - intros ->. by apply HN0.
  - intros ->. apply HE0. lia.
  - intros Hnc. apply Hx. lia.
Qed.

Lemma BinaryTree_north_xor_east_witness :
  ∃ g h h' rnd' n,
    NewGrid (cell := Cell) 2 3 [] = Ok (g, h)
    ∧ BinaryTree g h (mkRand [1; 0; 1]%Z 0) = Ok (h', rnd', n)
    ∧ (Z.of_nat (draws rnd')
       = Z.of_nat (draws (mkRand [1; 0; 1]%Z 0)) + 2 * 3 - 1)%Z
    ∧ ∀ row column : Z,
        (0 ≤ row < 2)%Z → (0 ≤ column < 3)%Z →
        ∃ a north east (lN lE : bool),
          At g row column = Ok (Some a)
          ∧ At g (row - 1) column = Ok north
          ∧ At g row (column + 1) = Ok east
          ∧ Linked (Some a) north h' = Ok lN
          ∧ Linked (Some a) east h' = Ok lE
          ∧ (row = 0%Z → lN = false)
          ∧ (column = (3 - 1)%Z → lE = false)
          ∧ (row ≠ 0%Z ∨ column ≠ (3 - 1)%Z → lN = negb lE).
Proof.
  apply (BinaryTree_north_xor_east 2 3 [] (mkRand [1; 0; 1]%Z 0));
    unfold max_int64; lia.
Defined.

(** X14: the links [BinaryTree] makes are mutual and join neighbours only:
    when a cell of the grid is linked to [q], then [q] is a cell of the
    grid, one of the [Neighbors] of the cell, and linked back to it.  The
    generator changes nothing but link sets. *)
Theorem BinaryTree_links_mutual (R C : Z) (h0 : heap) (rnd : Rand) :
  (1 ≤ R ≤ max_int64)%Z → (1 ≤ C ≤ max_int64)%Z →
  ∃ g h h' rnd' n,
    NewGrid R C h0 = Ok (g, h)
    ∧ BinaryTree g h rnd = Ok (h', rnd', n)
    ∧ (∀ p q, p ∈ AllCells g → Linked p q h' = Ok true →
              q ∈ AllCells g
              ∧ Linked q p h' = Ok true
              ∧ ∃ l, Neighbors p h' = Ok l ∧ q ∈ l)
    ∧ length h' = length h
    ∧ ∀ k c, h !! k = Some c → ∃ m, h' !! k = Some (with_links m c).
Proof.
  intros HR HC.
  destruct (BinaryTree_maze_spec R C h0 rnd HR HC)
    as (g & h & E & Hg & h' & rnd' & n & ch & EB & Hval & Hd & Hlen & Hfr
        & Hcells).
  destruct (NewGrid_spec R C h0 ltac:(lia) ltac:(lia))
    as (g1 & h1 & E1 & _ & Hl & Hf & Hc).
  rewrite E in E1. injection E1 as <- <-.
  set (base := length h0) in *.
  set (Rn := Z.to_nat R) in *. set (Cn := Z.to_nat C) in *.
  exists g, h, h', rnd', n. split_and!; [done|done| |done|].
  - intros p q (i & j & Hi & Hj & ->)%(AllCells_elem _ _ _ _ _ Hg) HL.
    apply (bt_final_linked base Rn Cn h' ch Hcells) in HL
      as (i2 & j2 & Hi2 & Hj2 & -> & Hp); [|done..].
    split_and!.
    + apply (AllCells_elem _ _ _ _ _ Hg). by exists i2, j2.
    + apply (bt_final_linked_cell base Rn Cn h' ch Hcells); [done..|].
      by apply passage_sym.
    + destruct (Hcells i j Hi Hj) as (m & Em & _).
      eexists. split; [by apply (Neighbors_configured base Rn Cn h' i j m)|].
      apply elem_of_filter_four. split; [done|].
      destruct (passage_adjacent Rn Cn ch Hval i j i2 j2)
        as [[? ->]|[[-> ->]|[[-> ->]|[-> ?]]]]; [done..| | | |].
      * left. replace (Z.of_nat i - 1)%Z with (Z.of_nat i2) by lia.
        symmetry. by apply cell_at_in.
      * right. left. replace (Z.of_nat i + 1)%Z with (Z.of_nat (i + 1)) by lia.
        symmetry. by apply cell_at_in.
      * right. right. left.
        replace (Z.of_nat j + 1)%Z with (Z.of_nat (j + 1)) by lia.
        symmetry. by apply cell_at_in.
      * right. right. right.
        replace (Z.of_nat j - 1)%Z with (Z.of_nat j2) by lia.
        symmetry. by apply cell_at_in.
  - intros k c Ek.
    destruct (decide (k < base)) as [Hk|Hk].
    + exists (links c). rewrite with_links_id, Hfr, <-Hf by done. done.
    + assert (Hk2 : k < base + Rn * Cn)
        by (rewrite <-Hl; by eapply lookup_lt_Some).
      assert (0 < Cn) by lia.
      pose proof (Nat.div_mod_eq (k - base) Cn) as Hdm.
      pose proof (Nat.mod_upper_bound (k - base) Cn ltac:(lia)) as Hmod.
      assert (Hdiv : (k - base) `div` Cn < Rn).
      { apply Nat.Div0.div_lt_upper_bound. lia. }
      assert (Ek' : k = addr base Cn ((k - base) `div` Cn)
                          ((k - base) `mod` Cn)) by (unfold addr; lia).
      destruct (Hcells _ _ Hdiv Hmod) as (m & Em & _).
      rewrite <-Ek' in Em. exists m. rewrite Em. do 2 f_equal.
      rewrite Ek', (Hc _ _ Hdiv Hmod) in Ek. congruence.
Qed.

Lemma BinaryTree_links_mutual_witness :
  ∃ g h h' rnd' n,
    NewGrid (cell := Cell) 2 3 [] = Ok (g, h)
    ∧ BinaryTree g h (mkRand [1; 0; 1]%Z 0) = Ok (h', rnd', n)
    ∧ (∀ p q, p ∈ AllCells g → Linked p q h' = Ok true →
              q ∈ AllCells g
              ∧ Linked q p h' = Ok true
              ∧ ∃ l, Neighbors p h' = Ok l ∧ q ∈ l)
    ∧ length h' = length h
    ∧ ∀ k c, h !! k = Some c → ∃ m, h' !! k = Some (with_links m c).
Proof.
  apply (BinaryTree_links_mutual 2 3 [] (mkRand [1; 0; 1]%Z 0));
    unfold max_int64; lia.
Defined.

(** X15: the maze of [BinaryTree] is connected: from every cell a path of
    links leads to the north-east corner, and so from every cell to every
    other one. *)
Theorem BinaryTree_connected (R C : Z) (h0 : heap) (rnd : Rand) :
  (1 ≤ R ≤ max_int64)%Z → (1 ≤ C ≤ max_int64)%Z →
  ∃ g h h' rnd' n corner,
    NewGrid R C h0 = Ok (g, h)
    ∧ BinaryTree g h rnd = Ok (h', rnd', n)
    ∧ At g 0 (C - 1) = Ok corner
    ∧ (∀ p, p ∈ AllCells g →
            rtc (λ x y : ptr, Linked x y h' = Ok true) p corner)
    ∧ ∀ p q, p ∈ AllCells g → q ∈ AllCells g →
             rtc (λ x y : ptr, Linked x y h' = Ok true) p q.
Proof.
  intros HR HC.
  destruct (BinaryTree_maze_spec R C h0 rnd HR HC)
    as (g & h & E & Hg & h' & rnd' & n & ch & EB & Hval & Hd & Hlen & Hfr
        & Hcells).
  set (base := length h0) in *.
  set (Rn := Z.to_nat R) in *. set (Cn := Z.to_nat C) in *.
  assert (Hto : ∀ p, p ∈ AllCells g →
    rtc (λ x y : ptr, Linked x y h' = Ok true) p
      (Some (addr base Cn 0 (Cn - 1)))).
  { intros p (i & j & Hi & Hj & ->)%(AllCells_elem _ _ _ _ _ Hg).
    by apply (bt_path_to_corner base Rn Cn h' ch Hval Hcells
                (i + (Cn - 1 - j))). }
  exists g, h, h', rnd', n, (Some (addr base Cn 0 (Cn - 1))).
  split_and!; [done|done| |done|].
  - rewrite (At_spec _ _ _ g _ _ Hg). unfold cell_at.
    rewrite decide_True by lia. do 3 f_equal. lia.
  - intros p q Hp Hq. etrans; [by apply Hto|].
    apply (bt_path_back base Rn Cn h' ch Hcells); [by apply Hto|].
    by apply (AllCells_elem _ _ _ _ _ Hg).
Qed.

Lemma BinaryTree_connected_witness :
  ∃ g h h' rnd' n corner,
    NewGrid (cell := Cell) 2 3 [] = Ok (g, h)
    ∧ BinaryTree g h (mkRand [1; 0; 1]%Z 0) = Ok (h', rnd', n)
    ∧ At g 0 (3 - 1) = Ok corner
    ∧ (∀ p, p ∈ AllCells g →
            rtc (λ x y : ptr, Linked x y h' = Ok true) p corner)
    ∧ ∀ p q, p ∈ AllCells g → q ∈ AllCells g →
             rtc (λ x y : ptr, Linked x y h' = Ok true) p q.
Proof.
  apply (BinaryTree_connected 2 3 [] (mkRand [1; 0; 1]%Z 0));
    unfold max_int64; lia.
Defined.

(** ** Rendering *)

Lemma sub64_1 (x : Z) : (min_int64 < x ≤ max_int64)%Z → sub64 x 1 = (x - 1)%Z.
Proof. intros Hx. unfold sub64. apply wrap64_id. lia. Qed.

Lemma same_cells_refl (h : heap) : same_cells h h.
Proof. intros k c E. exists (links c). by rewrite with_links_id. Qed.

Lemma cornerGlyph_rune (up left down right : bool) :
  ∃ r, cornerGlyph up left down right = Ok r ∧ r ≠ newline.
Proof.
  destruct up, left, down, right; vm_compute; eexists; (split; [done|done]).
Qed.

Lemma foldl_append {A B} (x : list A) (out : list A) (l : list B) :
  foldl (λ out _, out ++ x) out l = out ++ concat (replicate (length l) x).
Proof.
  revert out. induction l as [|b l IH]; intros out; cbn.
  - by rewrite app_nil_r.
  - rewrite IH. by rewrite <-app_assoc.
Qed.

Lemma toString_fill_spec (n : Z) :
  toString_fill n
  = (replicate (Z.to_nat n) horizontal, replicate (Z.to_nat n) blank).
Proof.
  unfold toString_fill.
  assert (G : ∀ (l : list Z) s1 s2,
    foldl (λ (st : list rune * list rune) (_ : Z),
             (st.1 ++ [horizontal], st.2 ++ [blank])) (s1, s2) l
    = (s1 ++ replicate (length l) horizontal,
       s2 ++ replicate (length l) blank)).
  { induction l as [|x l IH]; intros s1 s2; cbn.
    - by rewrite !app_nil_r.
    - rewrite IH. by rewrite <-!app_assoc. }
  rewrite G, length_seqZ. done.
Qed.

Lemma replicate_snoc_app {A} (x : A) (n m : nat) :
  replicate n x ++ x :: replicate m x = replicate (n + 1 + m) x.
Proof. by rewrite !replicate_add, <-app_assoc. Qed.

Lemma newline_not_in_fill (b : bool) (n : nat) :
  newline ∉ (if b then replicate n horizontal else replicate n blank).
Proof. destruct b; intros [E _]%elem_of_replicate; discriminate E. Qed.

Section rendering.
Variables (base Rn Cn : nat) (g : Grid) (h' : heap).
Hypothesis g_ok : grid_ok base Rn Cn g.
Hypothesis cells_ok : ∀ i j, i < Rn → j < Cn →
  ∃ m, h' !! addr base Cn i j
       = Some (with_links m (configured base Rn Cn i j)).

Lemma cell_at_heap r c a :
  cell_at base Rn Cn r c = Some a →
  ∃ m, h' !! a
       = Some (with_links m
                 (configured base Rn Cn (Z.to_nat r) (Z.to_nat c))).
Proof.
  unfold cell_at. case_decide as Hin; [|done]. intros [= <-].
  apply cells_ok; lia.
Qed.

Lemma wallTo_spec r c a b :
  cell_at base Rn Cn r c = Some a →
  ∃ w, wallTo (Some a) b h' = Ok w ∧ wall_between h' (Some a) b w.
Proof.
  intros (m & Em)%cell_at_heap. unfold wallTo.
  destruct b as [y|].
  - rewrite decide_False by done.
    rewrite (Linked_Some _ _ _ _ Em), bind_Ok_l.
    eexists. split; [done|]. unfold wall_between.
    rewrite (Linked_Some _ _ _ _ Em). by rewrite negb_involutive.
  - rewrite decide_True by done. by exists true.
Qed.

Lemma upperLeftCornerGlyph_spec (row column : Z) :
  (min_int64 < row ≤ max_int64)%Z → (min_int64 < column ≤ max_int64)%Z →
  ∃ up left down right,
    wall_between h' (cell_at base Rn Cn (row - 1) (column - 1))
      (cell_at base Rn Cn (row - 1) column) up
    ∧ wall_between h' (cell_at base Rn Cn (row - 1) (column - 1))
        (cell_at base Rn Cn row (column - 1)) left
    ∧ wall_between h' (cell_at base Rn Cn row column)
        (cell_at base Rn Cn row (column - 1)) down
    ∧ wall_between h' (cell_at base Rn Cn row column)
        (cell_at base Rn Cn (row - 1) column) right
    ∧ upperLeftCornerGlyph g h' row column
      = cornerGlyph up left down right.
Proof.
  intros Hr Hc. unfold upperLeftCornerGlyph.
  rewrite !sub64_1 by done.
  rewrite !(At_spec _ _ _ g _ _ g_ok), !bind_Ok_l.
  set (ul := cell_at base Rn Cn (row - 1) (column - 1)).
  set (ur := cell_at base Rn Cn (row - 1) column).
  set (ll := cell_at base Rn Cn row (column - 1)).
  set (lr := cell_at base Rn Cn row column).
  assert (Hup : ∃ up left,
    (if decide (ul ≠ nilptr) then
       up ← wallTo ul ur h'; left ← wallTo ul ll h'; Ok (up, left)
     else Ok (bool_decide (ur ≠ nilptr), bool_decide (ll ≠ nilptr)))
    = Ok (up, left)
    ∧ wall_between h' ul ur up ∧ wall_between h' ul ll left).
  { destruct ul as [a|] eqn:Eul.
    - rewrite decide_True by done.
      destruct (wallTo_spec _ _ a ur Eul) as (up & -> & Hu).
      destruct (wallTo_spec _ _ a ll Eul) as (left & -> & Hl).
      by exists up, left.
    - rewrite decide_False by (intros Hn; by apply Hn).
      eexists _, _. split; [done|].
      split; [by destruct ur|by destruct ll]. }
  assert (Hdown : ∃ down right,
    (if decide (lr ≠ nilptr) then
       down ← wallTo lr ll h'; right ← wallTo lr ur h'; Ok (down, right)
     else Ok (bool_decide (ll ≠ nilptr), bool_decide (ur ≠ nilptr)))
    = Ok (down, right)
    ∧ wall_between h' lr ll down ∧ wall_between h' lr ur right).
  { destruct lr as [a|] eqn:Elr.
    - rewrite decide_True by done.
      destruct (wallTo_spec _ _ a ll Elr) as (down & -> & Hd).
      destruct (wallTo_spec _ _ a ur Elr) as (right & -> & Hri).
      by exists down, right.
    - rewrite decide_False by (intros Hn; by apply Hn).
      eexists _, _. split; [done|].
      split; [by destruct ll|by destruct ur]. }
  destruct Hup as (up & left & -> & Hu & Hl).
  destruct Hdown as (down & right & -> & Hd & Hri).
  rewrite !bind_Ok_l. by exists up, left, down, right.
Qed.


Lemma Linked_wall a q l :
  Linked (Some a) q h' = Ok l → wall_between h' (Some a) q (negb l).
Proof.
  destruct q as [y|]; cbn [wall_between].
  - by rewrite negb_involutive.
  - rewrite Linked_lookup. by intros [= <-].
Qed.

Lemma notLinkedTo_spec (field : Cell → ptr) (dr dc : Z) r c :
  (∀ m i j, field (with_links m (configured base Rn Cn i j))
            = cell_at base Rn Cn (Z.of_nat i + dr) (Z.of_nat j + dc)) →
  ∃ b, notLinkedTo (cell_at base Rn Cn r c) field h' = Ok b
       ∧ (cell_at base Rn Cn r c = nilptr → b = true)
       ∧ (cell_at base Rn Cn r c ≠ nilptr →
          wall_between h' (cell_at base Rn Cn r c)
            (cell_at base Rn Cn (r + dr) (c + dc)) b).
Proof.
  intros Hf. unfold notLinkedTo.
  destruct (cell_at base Rn Cn r c) as [a|] eqn:Ea.
  - rewrite decide_False by done.
    destruct (cell_at_heap _ _ _ Ea) as (m & Em).
    unfold load. rewrite Em, bind_Ok_l, Hf.
    assert (Hin : (0 ≤ r ∧ 0 ≤ c)%Z).
    { unfold cell_at in Ea. case_decide; [lia|done]. }
    rewrite !Z2Nat.id by lia.
    rewrite (Linked_lookup h' a), Em.
    destruct (cell_at base Rn Cn (r + dr) (c + dc)) as [y|] eqn:Ey.
    + rewrite bind_Ok_l. eexists. split; [done|]. split; [done|].
      intros _. apply Linked_wall. by rewrite Linked_lookup, Em.
    + rewrite bind_Ok_l. exists true. by cbn.
  - rewrite decide_True by done. exists true. by split_and!.
Qed.

Lemma toString_cell_spec (hl hs t a : list rune) (r c : Z) :
  (0 ≤ r ≤ max_int64)%Z → (0 ≤ c ≤ max_int64)%Z →
  ∃ gl nN nW,
    upperLeftCornerGlyph g h' r c = Ok gl
    ∧ gl ≠ newline
    ∧ notLinkedTo (cell_at base Rn Cn r c) North h' = Ok nN
    ∧ notLinkedTo (cell_at base Rn Cn r c) West h' = Ok nW
    ∧ toString_cell g h' hl hs r c (t, a)
      = Ok (t ++ [gl] ++ (if pointsRight gl && nN then hl else hs),
            a ++ [if pointsDown gl && nW then vertical else blank] ++ hs).
Proof.
  intros Hr Hc.
  destruct (upperLeftCornerGlyph_spec r c) as (up & left & down & right & _ & _ & _ & _ & Egl);
    [unfold min_int64; lia..|].
  destruct (cornerGlyph_rune up left down right) as (gl & Eg & Hnl).
  rewrite Eg in Egl.
  destruct (notLinkedTo_spec North (-1) 0 r c) as (nN & EN & _).
  { intros m i j. cbn. f_equal; lia. }
  destruct (notLinkedTo_spec West 0 (-1) r c) as (nW & EW & _).
  { intros m i j. cbn. f_equal; lia. }
  exists gl, nN, nW. split_and!; [done..|].
  unfold toString_cell.
  rewrite (At_spec _ _ _ g _ _ g_ok), bind_Ok_l, Egl, bind_Ok_l.
  rewrite EN, EW.
  destruct (pointsRight gl), (pointsDown gl), nN, nW;
    rewrite ?bind_Ok_l; cbn [andb]; by rewrite <-?app_assoc.
Qed.


Lemma first_row_wall (c : Z) gl nW :
  1 ≤ Rn → 1 ≤ Cn → (0 ≤ c ≤ Z.of_nat Cn)%Z → (Z.of_nat Cn ≤ max_int64)%Z →
  upperLeftCornerGlyph g h' 0 c = Ok gl →
  notLinkedTo (cell_at base Rn Cn 0 c) West h' = Ok nW →
  pointsDown gl && nW = bool_decide (c = 0 ∨ c = Z.of_nat Cn)%Z.
Proof.
  intros HR HC Hc Hmax Egl EW.
  destruct (upperLeftCornerGlyph_spec 0 c)
    as (up & left & down & right & Hu & Hl & Hd & Hri & E);
    [unfold min_int64, max_int64 in *; lia..|].
  rewrite Egl in E.
  destruct (notLinkedTo_spec West 0 (-1) 0 c) as (b & EW' & Hnil & Hcell).
  { intros m i j. cbn. f_equal; lia. }
  rewrite EW in EW'. injection EW' as <-.
  assert (Hout : ∀ x, cell_at base Rn Cn (0 - 1) x = nilptr)
    by (intros x; apply cell_at_out; lia).
  replace (0 + 0)%Z with 0%Z in Hcell by done.
  replace (c + -1)%Z with (c - 1)%Z in Hcell by lia.
  repeat rewrite Hout in Hu. repeat rewrite Hout in Hl.
  repeat rewrite Hout in Hri.
  cbn [wall_between] in Hu. subst up.
  assert (Hin : ∀ x, (0 ≤ x < Z.of_nat Cn)%Z →
            ∃ a, cell_at base Rn Cn 0 x = Some a).
  { intros x Hx. unfold cell_at. rewrite decide_True by lia. by eexists. }
  assert (Hoff : ∀ x, ¬ (0 ≤ x < Z.of_nat Cn)%Z →
            cell_at base Rn Cn 0 x = nilptr)
    by (intros x Hx; apply cell_at_out; lia).
  destruct (decide (c = 0%Z)) as [->|Hc0].
  - rewrite (Hoff (0 - 1)%Z) in Hl, Hd, Hcell by lia.
    destruct (Hin 0%Z) as (a & Ea); [lia|].
    rewrite Ea in Hd, Hri, Hcell.
    cbn [wall_between] in Hl, Hd, Hri, Hcell.
    subst left down right. rewrite Hcell by done.
    vm_compute in E. injection E as ->.
    by rewrite bool_decide_true by (by left).
  - destruct (decide (c = Z.of_nat Cn)) as [->|HcC].
    + rewrite (Hoff (Z.of_nat Cn)) in Hd, Hri, Hnil by lia.
      destruct (Hin (Z.of_nat Cn - 1)%Z) as (a & Ea); [lia|].
      rewrite Ea in Hl, Hd.
      cbn [wall_between] in Hl, Hd, Hri.
      subst left down right. rewrite Hnil by done.
      vm_compute in E. injection E as ->.
      by rewrite bool_decide_true by (by right).
    + rewrite bool_decide_false by lia.
      destruct (Hin (c - 1)%Z) as (a & Ea); [lia|].
      destruct (Hin c) as (b & Eb); [lia|].
      rewrite Ea in Hl. rewrite Eb in Hri.
      cbn [wall_between] in Hl, Hri. subst left right.
      destruct down; vm_compute in E; injection E as ->; done.
Qed.


(** The loop over the columns of one row. *)
Lemma toString_cells_spec (Hs : nat) (r : Z) :
  (0 ≤ r ≤ Z.of_nat Rn)%Z →
  (Z.of_nat Rn ≤ max_int64)%Z → (Z.of_nat Cn < max_int64)%Z →
  ∃ t a,
    for_each
      (toString_cell g h' (replicate Hs horizontal) (replicate Hs blank) r)
      (seqZ 0 (Columns g + 1)) ([], [])
    = Ok (t, a)
    ∧ length t = (Cn + 1) * (Hs + 1) ∧ (newline ∉ t)
    ∧ length a = (Cn + 1) * (Hs + 1) ∧ (newline ∉ a)
    ∧ (r = 0%Z → 1 ≤ Rn → 1 ≤ Cn →
       a = first_area (Z.of_nat Cn) (Z.of_nat Hs)).
Proof.
  intros Hr HRmax HCmax.
  destruct g_ok as (_ & -> & _).
  set (body := toString_cell g h' (replicate Hs horizontal)
                 (replicate Hs blank) r).
  destruct (for_each_inv
    (λ i (s : list rune * list rune),
       length (fst s) = i * (Hs + 1) ∧ (newline ∉ fst s)
       ∧ length (snd s) = i * (Hs + 1) ∧ (newline ∉ snd s)
       ∧ (r = 0%Z → 1 ≤ Rn → 1 ≤ Cn →
          (i = 0 → snd s = [])
          ∧ (1 ≤ i ≤ Cn →
             snd s = vertical :: replicate (i * (Hs + 1) - 1) blank)
          ∧ (i = Cn + 1 →
             snd s = first_area (Z.of_nat Cn) (Z.of_nat Hs))))
    body (seqZ 0 (Z.of_nat Cn + 1)) ([], []))
    as ([t a] & E & Ht & Hnt & Ha & Hna & Hfirst).
  - cbn. split_and!; [done|by apply not_elem_of_nil|done
                     |by apply not_elem_of_nil|].
    intros _ _ _. split_and!; [done|lia|lia].
  - intros i x [t a] [-> Hi]%lookup_seqZ_0 (Ht & Hnt & Ha & Hna & Hfirst).
    cbn [fst snd] in *.
    destruct (toString_cell_spec (replicate Hs horizontal)
                (replicate Hs blank) t a r (Z.of_nat i))
      as (gl & nN & nW & Egl & Hgl & EN & EW & Ecell); [lia|lia|].
    eexists. split; [exact Ecell|]. cbn [fst snd].
    split_and!.
    + rewrite !length_app. cbn [length].
      destruct (pointsRight gl && nN); rewrite length_replicate; lia.
    + rewrite !not_elem_of_app. split_and!; [done| |].
      * rewrite list_elem_of_singleton. congruence.
      * apply newline_not_in_fill.
    + rewrite !length_app, length_replicate. cbn [length]. lia.
    + rewrite !not_elem_of_app. split_and!; [done| |].
      * rewrite list_elem_of_singleton.
        destruct (pointsDown gl && nW); discriminate.
      * apply (newline_not_in_fill false).
    + intros -> HR HC. destruct (Hfirst eq_refl HR HC) as (H0 & Hmid & _).
      rewrite (first_row_wall (Z.of_nat i) gl nW) by (done || lia).
      split_and!; [lia| |].
      * intros Hi'. destruct (decide (i = 0)) as [->|Hpos].
        -- rewrite H0 by done. rewrite bool_decide_true by (by left).
           cbn. do 2 f_equal. lia.
        -- rewrite Hmid by lia. rewrite bool_decide_false by lia.
           cbn [app]. f_equal. rewrite replicate_snoc_app. f_equal. nia.
      * intros Hi'. assert (i = Cn) as -> by lia.
        rewrite Hmid by lia. rewrite bool_decide_true by (by right).
        unfold first_area. cbn [app]. do 2 f_equal.
        -- f_equal. nia.
        -- by rewrite Nat2Z.id.
  - rewrite length_seqZ in Ht, Ha, Hfirst. cbn [fst snd] in *.
    replace (Z.to_nat (Z.of_nat Cn + 1)) with (Cn + 1) in * by lia.
    exists t, a. split_and!; [done..|].
    intros Hr0 HR HC. by apply Hfirst.
Qed.


(** One iteration of the loop over the rows appends the edge line and,
    but for the bottom edge, [verticalSize] copies of the area line. *)
Lemma toString_row_spec (Hs : nat) (V r : Z) (out : list rune) :
  (0 ≤ r ≤ Z.of_nat Rn)%Z →
  (Z.of_nat Rn ≤ max_int64)%Z → (Z.of_nat Cn < max_int64)%Z →
  ∃ t a,
    toString_row g h' (replicate Hs horizontal) (replicate Hs blank) V r out
    = Ok (out ++ concat ((λ l, l ++ [newline])
                           <$> t :: (if decide (r < Z.of_nat Rn)%Z
                                     then replicate (Z.to_nat V) a
                                     else [])))
    ∧ length t = (Cn + 1) * (Hs + 1) ∧ (newline ∉ t)
    ∧ length a = (Cn + 1) * (Hs + 1) ∧ (newline ∉ a)
    ∧ (r = 0%Z → 1 ≤ Rn → 1 ≤ Cn →
       a = first_area (Z.of_nat Cn) (Z.of_nat Hs)).
Proof.
  intros Hr HRmax HCmax.
  destruct (toString_cells_spec Hs r Hr HRmax HCmax)
    as (t & a & E & Ht & Hnt & Ha & Hna & Hfirst).
  exists t, a. split; [|done].
  unfold toString_row. rewrite E, bind_Ok_l. cbv beta iota.
  destruct g_ok as (-> & _ & _).
  destruct (decide (r < Z.of_nat Rn)%Z) as [Hlt|Hge].
  - rewrite foldl_append, length_seqZ. f_equal.
    cbn [fmap list_fmap concat]. rewrite fmap_replicate.
    by rewrite <-!app_assoc.
  - f_equal. cbn [fmap list_fmap concat]. by rewrite app_nil_r.
Qed.

(** The text is a sequence of lines, each ended by a newline: an edge line
    and [verticalSize] area lines for each row, and the bottom edge.  All
    lines have one width.  The area lines of the first row are
    [first_area], whatever the links. *)
Lemma toString_spec (H V : Z) :
  (Z.of_nat Rn < max_int64)%Z → (Z.of_nat Cn < max_int64)%Z →
  (1 ≤ H)%Z → (1 ≤ V)%Z →
  ∃ lines,
    toString g h' H V = Ok (concat ((λ l, l ++ [newline]) <$> lines))
    ∧ length lines = Rn * (Z.to_nat V + 1) + 1
    ∧ (∀ l, l ∈ lines →
         length l = (Cn + 1) * (Z.to_nat H + 1) ∧ newline ∉ l)
    ∧ (1 ≤ Rn → 1 ≤ Cn →
       ∃ top rest,
         lines = top :: replicate (Z.to_nat V)
                          (first_area (Z.of_nat Cn) H) ++ rest).
Proof.
  intros HRmax HCmax HH HV. unfold toString.
  rewrite decide_False by lia. rewrite toString_fill_spec. cbn [fst snd].
  set (Hs := Z.to_nat H). set (Vs := Z.to_nat V).
  pose proof g_ok as (ER & _ & _). rewrite ER.
  destruct (for_each_inv
    (λ i (out : list rune),
       ∃ lines,
         out = concat ((λ l, l ++ [newline]) <$> lines)
         ∧ (i ≤ Rn → length lines = i * (Vs + 1))
         ∧ (i = Rn + 1 → length lines = Rn * (Vs + 1) + 1)
         ∧ (∀ l, l ∈ lines →
              length l = (Cn + 1) * (Hs + 1) ∧ newline ∉ l)
         ∧ (1 ≤ i → 1 ≤ Rn → 1 ≤ Cn →
            ∃ top rest,
              lines = top :: replicate Vs
                               (first_area (Z.of_nat Cn) (Z.of_nat Hs))
                      ++ rest))
    (toString_row g h' (replicate Hs horizontal) (replicate Hs blank) V)
    (seqZ 0 (Z.of_nat Rn + 1)) [])
    as (out & E & lines & -> & _ & Hlen & Hall & Hfirst).
  - exists []. split_and!; [done|done|lia| |lia].
    intros l Hl. by apply not_elem_of_nil in Hl.
  - intros i x out [-> Hi]%lookup_seqZ_0
      (lines & -> & Hlen & _ & Hall & Hfirst).
    destruct (toString_row_spec Hs V (Z.of_nat i)
                (concat ((λ l, l ++ [newline]) <$> lines)))
      as (t & a & E & Ht & Hnt & Ha & Hna & Ha0); [lia|lia|done|].
    eexists. split; [exact E|].
    exists (lines ++ t :: (if decide (Z.of_nat i < Z.of_nat Rn)%Z
                           then replicate Vs a else [])).
    split_and!.
    + by rewrite fmap_app, concat_app.
    + intros Hi'. rewrite decide_True by lia.
      rewrite length_app. cbn [length]. rewrite length_replicate.
      rewrite Hlen by lia. lia.
    + intros Hi'. rewrite decide_False by lia.
      rewrite length_app. cbn [length]. rewrite Hlen by lia. lia.
    + intros l [Hl|Hl]%elem_of_app; [by apply Hall|].
      apply elem_of_cons in Hl as [->|Hl]; [done|].
      destruct (decide (Z.of_nat i < Z.of_nat Rn)%Z).
      * by apply elem_of_replicate in Hl as [-> _].
      * by apply not_elem_of_nil in Hl.
    + intros _ HR HC. destruct (decide (i = 0)) as [->|Hpos].
      * assert (lines = []) as ->.
        { apply length_zero_iff_nil. rewrite Hlen; lia. }
        rewrite decide_True by lia. rewrite Ha0 by done.
        exists t, []. by rewrite app_nil_r.
      * destruct Hfirst as (top & rest & ->); [lia|done|done|].
        eexists top, _. cbn [app]. f_equal. by rewrite <-app_assoc.
  - rewrite E. rewrite length_seqZ in Hlen, Hfirst.
    exists lines. split_and!; [done|apply Hlen; lia|done|].
    intros HR HC. replace H with (Z.of_nat Hs) by lia.
    apply Hfirst; [lia|done|done].
Qed.

End rendering.

Lemma NewGrid_same_cells (R C : Z) (h0 : heap) :
  (0 ≤ R ≤ max_int64)%Z → (0 ≤ C ≤ max_int64)%Z →
  ∃ g h,
    NewGrid R C h0 = Ok (g, h)
    ∧ grid_ok (length h0) (Z.to_nat R) (Z.to_nat C) g
    ∧ ∀ h', same_cells h h' →
        ∀ i j, i < Z.to_nat R → j < Z.to_nat C →
          ∃ m, h' !! addr (length h0) (Z.to_nat C) i j
               = Some (with_links m
                         (configured (length h0) (Z.to_nat R) (Z.to_nat C)
                            i j)).
Proof.
  intros HR HC.
  destruct (NewGrid_spec R C h0 HR HC) as (g & h & E & Hg & _ & _ & Hc).
  exists g, h. split_and!; [done..|].
  intros h' Hsame i j Hi Hj. by apply Hsame, Hc.
Qed.

(** X16: on the glyph [cornerGlyph] selects, [pointsRight] holds when the
    glyph extends to the right, and also for the horizontal line selected
    for left alone; [pointsDown] holds when the glyph extends down, and
    also for the vertical line selected for up alone, but not for the
    glyph selected for left, right and down without up, which is absent
    from its cases. *)
Theorem pointsDown_pointsRight_cornerGlyph (up left down right : bool) :
  ∃ r,
    cornerGlyph up left down right = Ok r
    ∧ pointsRight r = right || (left && negb up && negb down)
    ∧ pointsDown r
      = (down && negb (left && right && negb up))
        || (up && negb down && negb left && negb right).
Proof.
  destruct up, left, down, right; vm_compute; eexists; by split_and!.
Qed.

(** X17: the glyph at the upper-left corner of the cell [(row, column)]
    is the one [cornerGlyph] selects for the walls that meet there: it
    extends up for a wall between the two cells above, left for a wall
    between the two cells on the left, down for a wall between the two
    cells below, and right for a wall between the two cells on the right.
    This holds on the grid [NewGrid] returns, whatever links were made
    since. *)
Theorem upperLeftCornerGlyph_walls (R C : Z) (h0 : heap) :
  (0 ≤ R ≤ max_int64)%Z → (0 ≤ C ≤ max_int64)%Z →
  ∃ g h,
    NewGrid R C h0 = Ok (g, h)
    ∧ ∀ h' row column,
        same_cells h h' →
        (min_int64 < row ≤ max_int64)%Z →
        (min_int64 < column ≤ max_int64)%Z →
        ∃ ul ur ll lr up left down right,
          At g (row - 1) (column - 1) = Ok ul
          ∧ At g (row - 1) column = Ok ur
          ∧ At g row (column - 1) = Ok ll
          ∧ At g row column = Ok lr
          ∧ wall_between h' ul ur up
          ∧ wall_between h' ul ll left
          ∧ wall_between h' lr ll down
          ∧ wall_between h' lr ur right
          ∧ upperLeftCornerGlyph g h' row column
            = cornerGlyph up left down right.
Proof.
  intros HR HC.
  destruct (NewGrid_same_cells R C h0 HR HC) as (g & h & E & Hg & Hc).
  exists g, h. split; [done|]. intros h' row column Hsame Hrow Hcol.
  destruct (upperLeftCornerGlyph_spec _ _ _ g h' Hg (Hc h' Hsame)
              row column Hrow Hcol)
    as (up & left & down & right & Hu & Hl & Hd & Hri & Egl).
  eexists _, _, _, _, up, left, down, right.
  rewrite !(At_spec _ _ _ g _ _ Hg). by split_and!.
Qed.

Lemma upperLeftCornerGlyph_walls_witness :
  ∃ g h,
    NewGrid (cell := Cell) 2 2 [] = Ok (g, h)
    ∧ ∃ ul ur ll lr up left down right,
        At g (1 - 1) (1 - 1) = Ok ul
        ∧ At g (1 - 1) 1 = Ok ur
        ∧ At g 1 (1 - 1) = Ok ll
        ∧ At g 1 1 = Ok lr
        ∧ wall_between h ul ur up
        ∧ wall_between h ul ll left
        ∧ wall_between h lr ll down
        ∧ wall_between h lr ur right
        ∧ upperLeftCornerGlyph g h 1 1 = cornerGlyph up left down right.
Proof.
  destruct (upperLeftCornerGlyph_walls 2 2 [])
    as (g & h & E & Hall); [unfold max_int64; lia..|].
  exists g, h. split; [exact E|].
  apply (Hall h 1%Z 1%Z (same_cells_refl h));
    unfold min_int64, max_int64; lia.
Defined.

(** X18: [toString] ends the program when a size is less than 1.
    Otherwise, on a grid of [R] rows and [C] columns, it returns
    [R * (verticalSize + 1) + 1] lines, each ended by a newline and each
    of [(C + 1) * (horizontalSize + 1)] runes. *)
Theorem toString_lines (R C H V : Z) (h0 : heap) :
  (0 ≤ R < max_int64)%Z → (0 ≤ C < max_int64)%Z →
  ∃ g h,
    NewGrid R C h0 = Ok (g, h)
    ∧ ∀ h', same_cells h h' →
        ((H < 1 ∨ V < 1)%Z → toString g h' H V = Fail FatalLog)
        ∧ ((1 ≤ H)%Z → (1 ≤ V)%Z →
           ∃ lines,
             toString g h' H V
             = Ok (concat ((λ l, l ++ [newline]) <$> lines))
             ∧ Z.of_nat (length lines) = (R * (V + 1) + 1)%Z
             ∧ ∀ l, l ∈ lines →
                 Z.of_nat (length l) = ((C + 1) * (H + 1))%Z
                 ∧ newline ∉ l).
Proof.
  intros HR HC.
  destruct (NewGrid_same_cells R C h0 ltac:(lia) ltac:(lia))
    as (g & h & E & Hg & Hc).
  exists g, h. split; [done|]. intros h' Hsame. split.
  - intros Hbad. unfold toString. by rewrite decide_True.
  - intros HH HV.
    destruct (toString_spec _ _ _ g h' Hg (Hc h' Hsame) H V)
      as (lines & Et & Hlen & Hall & _); [lia..|].
    exists lines. split_and!; [done|nia|].
    intros l Hl. destruct (Hall l Hl) as [Hw Hn]. split; [nia|done].
Qed.

Lemma toString_lines_witness :
  ∃ g h,
    NewGrid (cell := Cell) 2 3 [] = Ok (g, h)
    ∧ ∃ lines,
        toString g h 3 1 = Ok (concat ((λ l, l ++ [newline]) <$> lines))
        ∧ Z.of_nat (length lines) = (2 * (1 + 1) + 1)%Z
        ∧ ∀ l, l ∈ lines →
            Z.of_nat (length l) = ((3 + 1) * (3 + 1))%Z ∧ newline ∉ l.
Proof.
  destruct (toString_lines 2 3 3 1 [])
    as (g & h & E & Hall); [unfold max_int64; lia..|].
  exists g, h. split; [exact E|].
  destruct (Hall h (same_cells_refl h)) as [_ Hlines].
  apply Hlines; lia.
Defined.

(** X19: the first row of cells is drawn as one open passage, whatever
    the links: the lines after the top edge are a vertical line, blanks up
    to the right edge, a vertical line and the blanks that follow the
    last glyph of every line; no wall between two cells of the first row
    is drawn in them. *)
Theorem toString_first_row_open (R C H V : Z) (h0 : heap) :
  (1 ≤ R < max_int64)%Z → (1 ≤ C < max_int64)%Z →
  (1 ≤ H)%Z → (1 ≤ V)%Z →
  ∃ g h,
    NewGrid R C h0 = Ok (g, h)
    ∧ ∀ h', same_cells h h' →
        ∃ top rest,
          toString g h' H V
          = Ok (top ++ [newline]
                ++ concat (replicate (Z.to_nat V)
                             (first_area C H ++ [newline]))
                ++ rest)
          ∧ Z.of_nat (length top) = ((C + 1) * (H + 1))%Z
          ∧ newline ∉ top.
Proof.
  intros HR HC HH HV.
  destruct (NewGrid_same_cells R C h0 ltac:(lia) ltac:(lia))
    as (g & h & E & Hg & Hc).
  exists g, h. split; [done|]. intros h' Hsame.
  destruct (toString_spec _ _ _ g h' Hg (Hc h' Hsame) H V)
    as (lines & Et & _ & Hall & Hfirst); [lia..|].
  destruct Hfirst as (top & rest & ->); [lia..|].
  rewrite Z2Nat.id in Et by lia.
  exists top, (concat ((λ l, l ++ [newline]) <$> rest)).
  destruct (Hall top) as [Hw Hn]; [by left|].
  split_and!; [|nia|done].
  rewrite Et. cbn [fmap list_fmap concat]. f_equal.
  rewrite <-app_assoc. f_equal.
  change (list_fmap _ _ ?f ?l) with (f <$> l).
  by rewrite fmap_app, concat_app, fmap_replicate.
Qed.

Lemma toString_first_row_open_witness :
  ∃ g h,
    NewGrid (cell := Cell) 2 3 [] = Ok (g, h)
    ∧ ∃ top rest,
        toString g h 3 1
        = Ok (top ++ [newline]
              ++ concat (replicate (Z.to_nat 1)
                           (first_area 3 3 ++ [newline]))
              ++ rest)
        ∧ Z.of_nat (length top) = ((3 + 1) * (3 + 1))%Z
        ∧ newline ∉ top.
Proof.
  destruct (toString_first_row_open 2 3 3 1 [])
    as (g & h & E & Hall); [unfold max_int64; lia..|].
  exists g, h. split; [exact E|].
  exact (Hall h (same_cells_refl h)).
Defined.

(** ** The sidewinder generator: the links it leaves *)

Lemma RectangleCell_Link_lookup (h : list Rect.RectangleCell)
    (a b : nat) (ca cb : Rect.RectangleCell) :
  h !! a = Some ca → h !! b = Some cb → a ≠ b →
  ∃ h',
    Rect.RectangleCell_Link (Some a) (Rect.RectPtr (Some b)) h = Ok h'
    ∧ h' !! a
      = Some (Rect.with_links
                (<[Rect.RectPtr (Some b) := true]>
                   (Rect.links (Rect.base ca))) ca)
    ∧ h' !! b
      = Some (Rect.with_links
                (<[Rect.BasePtr (Some a) := true]>
                   (Rect.links (Rect.base cb))) cb)
    ∧ ∀ k, k ≠ a → k ≠ b → h' !! k = h !! k.
Proof.
  intros Ea Eb Hne.
  assert (La : a < length h) by by eapply lookup_lt_Some.
  assert (Lb : b < length h) by by eapply lookup_lt_Some.
  unfold Rect.RectangleCell_Link, Rect.CellBase_Link.
  rewrite (CellBase_LinkOneWay_Some _ _ _ _ Ea), bind_Ok_l.
  unfold Rect.Cell_LinkOneWay, Rect.RectangleCell_LinkOneWay.
  assert (E1 : <[a := Rect.with_links
                        (<[Rect.RectPtr (Some b) := true]>
                           (Rect.links (Rect.base ca))) ca]> h !! b
               = Some cb) by by rewrite list_lookup_insert_ne.
  rewrite (CellBase_LinkOneWay_Some _ _ _ _ E1).
  eexists. split; [done|]. split_and!.
  - rewrite list_lookup_insert_ne by done.
    by rewrite list_lookup_insert_eq.
  - by rewrite list_lookup_insert_eq by by rewrite length_insert.
  - intros k Hka Hkb. by rewrite !list_lookup_insert_ne.
Qed.

Section Sidewinder_links.
Variables (base Rn Cn : nat).
Hypothesis Cn_pos : 0 < Cn.
Implicit Types (h : list Rect.RectangleCell) (rnd : Rand) (i j : nat).

Lemma sw_ok_rect_ok n h : sw_ok base Rn Cn n h → rect_ok base Rn Cn h.
Proof.
  intros Hok i j Hi Hj. destruct (Hok i j Hi Hj) as (m & E & _).
  by exists m.
Qed.

(** Linking a cell to the cell north or east of it. *)
Lemma sw_ok_Link n h i j i' j' :
  i < Rn → j < Cn → i' < Rn → j' < Cn →
  (i' + 1 = i ∧ j' = j) ∨ (i' = i ∧ j' = j + 1) →
  sw_ok base Rn Cn n h →
  ∃ h',
    Rect.RectangleCell_Link (Some (addr base Cn i j))
      (Rect.RectPtr (Some (addr base Cn i' j'))) h = Ok h'
    ∧ sw_ok base Rn Cn n h'
    ∧ ((i' = i ∧ i = 0 ∧ j = n) → sw_ok base Rn Cn (S n) h').
Proof.
  intros Hi Hj Hi' Hj' Hdir Hok.
  destruct (Hok i j Hi Hj) as (ma & Ea & Hma & Hca).
  destruct (Hok i' j' Hi' Hj') as (mb & Eb & Hmb & Hcb).
  assert (Hne : addr base Cn i j ≠ addr base Cn i' j').
  { intros [? ?]%addr_inj; [lia|done..]. }
  destruct (RectangleCell_Link_lookup h _ _ _ _ Ea Eb Hne)
    as (h' & EL & Ea' & Eb' & Hother).
  exists h'. split; [done|].
  assert (Hgen : ∀ n', (n' = n ∨ (n' = S n ∧ i' = i ∧ i = 0 ∧ j = n)) →
            sw_ok base Rn Cn n' h').
  { intros n' Hn' i2 j2 Hi2 Hj2.
    destruct (decide (addr base Cn i2 j2 = addr base Cn i j)) as [Eq|Na].
    - apply addr_inj in Eq as [-> ->]; [|done..].
      eexists. split; [by rewrite Ea', Rect_with_links_with_links|].
      cbn [Rect.with_links Rect.base Rect.links]. split.
      + intros q b [[<- _]|[_ Hq]]%lookup_insert_Some; [|by eapply Hma].
        unfold sw_allowed. destruct Hdir as [[<- ->]|[-> ->]].
        * left. split; [lia|]. do 3 f_equal. lia.
        * right. left. by split.
      + intros -> Hjn Hj1.
        destruct (decide (j < n)) as [Hlt|Hge].
        * destruct (decide (Rect.RectPtr (Some (addr base Cn i' j'))
                            = Rect.RectPtr (Some (addr base Cn 0 (j + 1)))))
            as [->|Hk]; [by rewrite lookup_insert_eq|].
          rewrite lookup_insert_ne by done. by apply Hca.
        * destruct Hdir as [[? ?]|[_ ->]]; [lia|].
          assert (i' = 0) as -> by lia.
          by rewrite lookup_insert_eq.
    - destruct (decide (addr base Cn i2 j2 = addr base Cn i' j')) as [Eq|Nb].
      + apply addr_inj in Eq as [-> ->]; [|done..].
        eexists. split; [by rewrite Eb', Rect_with_links_with_links|].
        cbn [Rect.with_links Rect.base Rect.links]. split.
        * intros q b [[<- _]|[_ Hq]]%lookup_insert_Some; [|by eapply Hmb].
          unfold sw_allowed. destruct Hdir as [[<- ->]|[-> ->]].
          -- right. right. left. split; [lia|done].
          -- right. right. right. split; [lia|]. do 3 f_equal. lia.
        * intros -> Hjn Hj1. rewrite lookup_insert_ne by done.
          apply Hcb; [done|lia|done].
      + rewrite Hother by done.
        destruct (Hok i2 j2 Hi2 Hj2) as (m & E & Hm & Hc).
        exists m. split_and!; [done..|].
        intros -> Hjn Hj1. apply Hc; [done| |done].
        destruct (decide (j2 < n)) as [|Hge]; [done|].
        destruct Na. f_equal; lia. }
  split; [apply Hgen; by left|].
  intros (-> & -> & ->). apply Hgen. by right.
Qed.


Lemma sw_ok_full n n' h :
  Cn ≤ n + 1 → sw_ok base Rn Cn n h → sw_ok base Rn Cn n' h.
Proof.
  intros Hn Hok i j Hi Hj. destruct (Hok i j Hi Hj) as (m & E & Hm & Hc).
  exists m. split_and!; [done..|]. intros Hi0 _ Hj1. apply Hc; [done|lia|done].
Qed.

Lemma closeOut_links n i j row h rnd :
  i < Rn → j < Cn →
  (∀ k, k < Cn → row !! k = Some (Some (addr base Cn i k))) →
  length row = Cn →
  sw_ok base Rn Cn n h →
  ∃ h' rnd', closeOut (take (S j) row) h rnd = Ok (h', rnd')
             ∧ sw_ok base Rn Cn n h'.
Proof.
  intros Hi Hj Hrow Hlen Hok. unfold closeOut.
  rewrite length_take_le by lia.
  destruct (Intn_pos (Z.of_nat (S j)) rnd) as (v & -> & Hv); [lia|].
  rewrite bind_Ok_l. cbv beta iota.
  assert (Em : take (S j) row !! Z.to_nat v
               = Some (Some (addr base Cn i (Z.to_nat v)))).
  { rewrite lookup_take_lt by lia. apply Hrow. lia. }
  rewrite (index_Ok_Z _ _ _ (proj1 Hv) Em), bind_Ok_l.
  destruct (Hok i (Z.to_nat v)) as (m & Ec & _); [done|lia|].
  rewrite (load_Some _ _ _ Ec), bind_Ok_l.
  rewrite Rect_North_configured, cell_at_north by lia.
  destruct (decide (0 < i)) as [Hpos|Hz].
  - rewrite decide_True by done.
    destruct (sw_ok_Link n h i (Z.to_nat v) (i - 1) (Z.to_nat v))
      as (h' & -> & Hok' & _); [lia..|done|].
    rewrite bind_Ok_l. by eexists _, _.
  - rewrite decide_False by (by intros []). by eexists _, _.
Qed.

Lemma Sidewinder_cell_links i j row st :
  i < Rn → j < Cn →
  (∀ k, k < Cn → row !! k = Some (Some (addr base Cn i k))) →
  length row = Cn →
  st.1.1.1 = take j row →
  sw_ok base Rn Cn (if decide (i = 0) then j else Cn) st.1.1.2 →
  ∃ st', Sidewinder_cell (Some (addr base Cn i j)) st = Ok st'
         ∧ st'.1.1.1 = take (S j) row
         ∧ sw_ok base Rn Cn (if decide (i = 0) then S j else Cn) st'.1.1.2.
Proof.
  intros Hi Hj Hrow Hlen. destruct st as [[[run h] rnd] closed].
  cbn [fst snd]. intros Hrun Hok.
  unfold Sidewinder_cell.
  destruct (Hok i j Hi Hj) as (m & Ec & _).
  rewrite (load_Some _ _ _ Ec), bind_Ok_l. cbv zeta.
  rewrite Hrun, <-(take_S_r row j _ (Hrow j Hj)).
  rewrite (shouldCloseOut_grid base Rn Cn) by done.
  assert (Hclose : ∀ rnd1,
    j + 1 = Cn ∨ 0 < i →
    ∃ st', (closeOut (take (S j) row) h rnd1
            ≫= λ '(h', rnd'),
                 Ok (take (S j) row, h', rnd', closed ++ [take (S j) row]))
           = Ok st'
           ∧ st'.1.1.1 = take (S j) row
           ∧ sw_ok base Rn Cn (if decide (i = 0) then S j else Cn)
               st'.1.1.2).
  { intros rnd1 Hwhy.
    destruct (closeOut_links _ i j row h rnd1 Hi Hj Hrow Hlen Hok)
      as (h' & rnd' & -> & Hok').
    rewrite bind_Ok_l. eexists. split; [done|]. cbn [fst snd].
    split; [done|]. destruct (decide (i = 0)) as [->|Hpos]; [|done].
    apply (sw_ok_full j); [lia|done]. }
  assert (Heast : ∀ rnd1, j + 1 < Cn →
    ∃ st', (Rect.RectangleCell_Link (Some (addr base Cn i j))
              (Rect.RectPtr (Some (addr base Cn i (j + 1)))) h
            ≫= λ h', Ok (take (S j) row, h', rnd1, closed))
           = Ok st'
           ∧ st'.1.1.1 = take (S j) row
           ∧ sw_ok base Rn Cn (if decide (i = 0) then S j else Cn)
               st'.1.1.2).
  { intros rnd1 Hlt.
    destruct (sw_ok_Link (if decide (i = 0) then j else Cn) h i j i (j + 1))
      as (h' & -> & Hok' & Hnext); [lia..|by right|done|].
    rewrite bind_Ok_l. eexists. split; [done|]. cbn [fst snd].
    split; [done|]. destruct (decide (i = 0)) as [->|Hpos]; [|done].
    by apply Hnext. }
  destruct (decide (j + 1 < Cn)) as [Hlt|Hge].
  - destruct (decide (0 < i)) as [Hpos|Hz].
    + destruct (Intn_pos 2 rnd) as (coin & -> & Hcoin); [lia|].
      rewrite bind_Ok_l. cbv beta iota.
      destruct (bool_decide (coin = 0%Z)).
      * apply Hclose. by right.
      * rewrite Rect_East_configured, cell_at_east, decide_True by done.
        by apply Heast.
    + rewrite bind_Ok_l. cbv beta iota.
      rewrite Rect_East_configured, cell_at_east, decide_True by done.
      by apply Heast.
  - rewrite bind_Ok_l. cbv beta iota. apply Hclose. lia.
Qed.

End Sidewinder_links.

Section Sidewinder_links_grid.
Variables (base Rn Cn : nat) (g : Grid).
Hypothesis Cn_pos : 0 < Cn.
Hypothesis g_ok : grid_ok base Rn Cn g.
Implicit Types (h : list Rect.RectangleCell) (rnd : Rand) (i j : nat).

Lemma Sidewinder_row_links i row h rnd runs :
  grid g !! i = Some row →
  sw_ok base Rn Cn (if decide (i = 0) then 0 else Cn) h →
  ∃ h' rnd' closed,
    Sidewinder_row row (h, rnd, runs) = Ok (h', rnd', runs ++ [closed])
    ∧ sw_ok base Rn Cn Cn h'.
Proof.
  intros Ei Hok. unfold Sidewinder_row.
  pose proof (grid_ok_row_length _ _ _ _ _ _ g_ok Ei) as Hlen.
  assert (Hi : i < Rn).
  { destruct g_ok as (_ & _ & Hl & _). rewrite <-Hl.
    by eapply lookup_lt_Some. }
  assert (Hrow : ∀ k, k < Cn → row !! k = Some (Some (addr base Cn i k))).
  { intros k Hk. destruct (lookup_lt_is_Some_2 row k) as [x Ex]; [lia|].
    by destruct (grid_ok_lookup _ _ _ _ _ _ _ _ g_ok Ei Ex) as (_ & _ & ->). }
  destruct (for_each_inv
              (λ j (st : list ptr * list Rect.RectangleCell * Rand
                         * list (list ptr)),
                 st.1.1.1 = take j row
                 ∧ sw_ok base Rn Cn (if decide (i = 0) then j else Cn)
                     st.1.1.2)
              Sidewinder_cell row ([], h, rnd, []))
    as ([[[run' h'] rnd'] closed] & -> & _ & Hok').
  - by split.
  - intros j x st Ej [Hrun Hst].
    destruct (grid_ok_lookup _ _ _ _ _ _ _ _ g_ok Ei Ej) as (_ & Hj & ->).
    by apply (Sidewinder_cell_links base Rn Cn Cn_pos).
  - cbn [fst snd] in *. rewrite bind_Ok_l. rewrite Hlen in Hok'.
    exists h', rnd', closed. split; [done|].
    by destruct (decide (i = 0)).
Qed.

Lemma Sidewinder_links h rnd :
  0 < Rn → sw_ok base Rn Cn 0 h →
  ∃ h' rnd' runs,
    Sidewinder g h rnd = Ok (h', rnd', runs) ∧ sw_ok base Rn Cn Cn h'.
Proof.
  intros HR Hok. unfold Sidewinder, AllRows.
  destruct (for_each_inv
              (λ i (st : list Rect.RectangleCell * Rand
                         * list (list (list ptr))),
                 sw_ok base Rn Cn (if decide (i = 0) then 0 else Cn) st.1.1)
              Sidewinder_row (grid g) (h, rnd, []))
    as ([[h' rnd'] runs] & -> & Hok').
  - done.
  - intros i row [[h1 rnd1] runs1] Ei Hst. cbn [fst snd] in Hst.
    destruct (Sidewinder_row_links i row h1 rnd1 runs1 Ei Hst)
      as (h2 & rnd2 & closed & -> & Hok2).
    eexists. split; [done|]. done.
  - cbn [fst snd] in Hok'. exists h', rnd', runs. split; [done|].
    destruct g_ok as (_ & _ & Hl & _). rewrite Hl in Hok'.
    by rewrite decide_False in Hok' by lia.
Qed.

End Sidewinder_links_grid.

Lemma NewGrid_sw_ok (R C : Z) (h0 : list Rect.RectangleCell) :
  (0 ≤ R ≤ max_int64)%Z → (0 ≤ C ≤ max_int64)%Z →
  ∃ g h,
    NewGrid R C h0 = Ok (g, h)
    ∧ grid_ok (length h0) (Z.to_nat R) (Z.to_nat C) g
    ∧ sw_ok (length h0) (Z.to_nat R) (Z.to_nat C) 0 h.
Proof.
  intros HR HC.
  destruct (NewGrid_spec R C h0 HR HC) as (g & h & E & Hg & _ & _ & Hc).
  exists g, h. split_and!; [done..|]. intros i j Hi Hj.
  exists ∅. split_and!.
  - by rewrite (Hc i j Hi Hj).
  - intros q b Hq. by rewrite lookup_empty in Hq.
  - lia.
Qed.

(** X20: the links [Sidewinder] leaves go north and east.  A cell holds
    the cells north and east of it as [*RectangleCell] keys, and the cells
    south and west of it as [*CellBase] keys only, the receiver that
    [CellBase.Link] hands over: so [Linked] is true for no other key, and
    false for its West and its South neighbour, whatever was linked.  In
    the first row every cell with an East neighbour is linked to it. *)
Theorem Sidewinder_links_north_east (R C : Z)
    (h0 : list Rect.RectangleCell) (rnd : Rand) :
  (1 ≤ R ≤ max_int64)%Z → (1 ≤ C ≤ max_int64)%Z →
  ∃ g h h' rnd' runs,
    NewGrid R C h0 = Ok (g, h)
    ∧ Sidewinder g h rnd = Ok (h', rnd', runs)
    ∧ ∀ p, p ∈ AllCells g →
        ∃ c,
          load p h' = Ok c
          ∧ (∀ q, Rect.RectangleCell_Linked p q h' = Ok true →
               ∃ n,
                 (q = Rect.RectPtr (Some n)
                  ∧ (Rect.North c = Some n ∨ Rect.East c = Some n))
                 ∨ (q = Rect.BasePtr (Some n)
                    ∧ (Rect.South c = Some n ∨ Rect.West c = Some n)))
          ∧ Rect.RectangleCell_Linked p (Rect.RectPtr (Rect.West c)) h'
            = Ok false
          ∧ Rect.RectangleCell_Linked p (Rect.RectPtr (Rect.South c)) h'
            = Ok false
          ∧ (Rect.North c = nilptr → Rect.East c ≠ nilptr →
             Rect.RectangleCell_Linked p (Rect.RectPtr (Rect.East c)) h'
             = Ok true).
Proof.
  intros HR HC.
  destruct (NewGrid_sw_ok R C h0 ltac:(lia) ltac:(lia))
    as (g & h & E & Hg & Hok).
  set (base := length h0) in *.
  set (Rn := Z.to_nat R) in *. set (Cn := Z.to_nat C) in *.
  destruct (Sidewinder_links base Rn Cn g ltac:(lia) Hg h rnd
              ltac:(lia) Hok) as (h' & rnd' & runs & ES & Hok').
  exists g, h, h', rnd', runs. split_and!; [done..|].
  intros p (i & j & Hi & Hj & ->)%(AllCells_elem _ _ _ _ _ Hg).
  destruct (Hok' i j Hi Hj) as (m & Em & Hm & Hc).
  eexists. split; [by apply load_Some|].
  assert (HN : Rect.North (Rect.with_links m (configured base Rn Cn i j))
               = if decide (0 < i) then Some (addr base Cn (i - 1) j)
                 else nilptr).
  { rewrite Rect_North_configured. by apply cell_at_north. }
  assert (HE : Rect.East (Rect.with_links m (configured base Rn Cn i j))
               = if decide (j + 1 < Cn) then Some (addr base Cn i (j + 1))
                 else nilptr).
  { rewrite Rect_East_configured. by apply cell_at_east. }
  assert (HS : Rect.South (Rect.with_links m (configured base Rn Cn i j))
               = if decide (i + 1 < Rn) then Some (addr base Cn (i + 1) j)
                 else nilptr).
  { change (Rect.South _)
      with (cell_at base Rn Cn (Z.of_nat i + 1) (Z.of_nat j)).
    destruct (decide (i + 1 < Rn)).
    - replace (Z.of_nat i + 1)%Z with (Z.of_nat (i + 1)) by lia.
      apply cell_at_in; lia.
    - apply cell_at_out. lia. }
  assert (HW : Rect.West (Rect.with_links m (configured base Rn Cn i j))
               = if decide (0 < j) then Some (addr base Cn i (j - 1))
                 else nilptr).
  { change (Rect.West _)
      with (cell_at base Rn Cn (Z.of_nat i) (Z.of_nat j - 1)).
    destruct (decide (0 < j)).
    - replace (Z.of_nat j - 1)%Z with (Z.of_nat (j - 1)) by lia.
      apply cell_at_in; lia.
    - apply cell_at_out. lia. }
  rewrite HN, HE, HS, HW.
  assert (Hno : ∀ x, (∀ i2 j2, sw_allowed base Rn Cn i j
                                 (Rect.RectPtr (Some (addr base Cn i2 j2))) →
                               x = Some (addr base Cn i2 j2) → False) →
                (x = nilptr ∨ ∃ i2 j2, j2 < Cn ∧ x = Some (addr base Cn i2 j2)) →
                Rect.RectangleCell_Linked (Some (addr base Cn i j))
                  (Rect.RectPtr x) h' = Ok false).
  { intros x Hx Hshape. rewrite CellBase_Linked_lookup, Em by done.
    cbn [Rect.with_links Rect.base Rect.links].
    destruct (m !! Rect.RectPtr x) as [b|] eqn:Eb; [|done].
    apply Hm in Eb. destruct Hshape as [->|(i2 & j2 & Hj2 & ->)].
    - by destruct Eb as [[_ ?]|[[_ ?]|[[_ ?]|[_ ?]]]].
    - destruct (Hx i2 j2 Eb eq_refl). }
  split_and!.
  - intros q HL. destruct (decide (q = Rect.NilCell)) as [->|Hq]; [done|].
    rewrite CellBase_Linked_lookup, Em in HL by done.
    cbn [Rect.with_links Rect.base Rect.links] in HL.
    destruct (m !! q) as [b|] eqn:Eb; [|done].
    destruct (Hm q b Eb) as [[Hp ->]|[[Hp ->]|[[Hp ->]|[Hp ->]]]].
    + eexists. left. split; [done|]. left. by rewrite decide_True.
    + eexists. left. split; [done|]. right. by rewrite decide_True.
    + eexists. right. split; [done|]. left. by rewrite decide_True.
    + eexists. right. split; [done|]. right. by rewrite decide_True.
  - apply Hno.
    + intros i2 j2 Hall. destruct (decide (0 < j)) as [Hpos|]; [|done].
      intros [= Ea].
      destruct Hall as [[? [= Eq]]|[[? [= Eq]]|[[_ ?]|[_ ?]]]];
        [..|done|done]; rewrite <-Ea in Eq;
        apply addr_inj in Eq; lia.
    + destruct (decide (0 < j)); [right|by left].
      exists i, (j - 1). split; [lia|done].
  - apply Hno.
    + intros i2 j2 Hall. destruct (decide (i + 1 < Rn)) as [Hpos|]; [|done].
      intros [= Ea].
      destruct Hall as [[? [= Eq]]|[[? [= Eq]]|[[_ ?]|[_ ?]]]];
        [..|done|done]; rewrite <-Ea in Eq;
        apply addr_inj in Eq; lia.
    + destruct (decide (i + 1 < Rn)); [right|by left].
      exists (i + 1), j. split; [lia|done].
  - destruct (decide (0 < i)) as [|Hi0]; [done|]. intros _.
    destruct (decide (j + 1 < Cn)) as [Hj1|]; [|done]. intros _.
    rewrite CellBase_Linked_lookup, Em by done.
    cbn [Rect.with_links Rect.base Rect.links].
    assert (i = 0) as -> by lia.
    by rewrite (Hc eq_refl Hj Hj1).
Qed.

Lemma Sidewinder_links_north_east_witness :
  ∃ g h h' rnd' runs,
    NewGrid (cell := Rect.RectangleCell) 2 2 [] = Ok (g, h)
    ∧ Sidewinder g h (mkRand [] 0) = Ok (h', rnd', runs)
    ∧ ∀ p, p ∈ AllCells g →
        ∃ c,
          load p h' = Ok c
          ∧ (∀ q, Rect.RectangleCell_Linked p q h' = Ok true →
               ∃ n,
                 (q = Rect.RectPtr (Some n)
                  ∧ (Rect.North c = Some n ∨ Rect.East c = Some n))
                 ∨ (q = Rect.BasePtr (Some n)
                    ∧ (Rect.South c = Some n ∨ Rect.West c = Some n)))
          ∧ Rect.RectangleCell_Linked p (Rect.RectPtr (Rect.West c)) h'
            = Ok false
          ∧ Rect.RectangleCell_Linked p (Rect.RectPtr (Rect.South c)) h'
            = Ok false
          ∧ (Rect.North c = nilptr → Rect.East c ≠ nilptr →
             Rect.RectangleCell_Linked p (Rect.RectPtr (Rect.East c)) h'
             = Ok true).
Proof.
  apply (Sidewinder_links_north_east 2 2 [] (mkRand [] 0));
    unfold max_int64; lia.
Defined.

(** ** The sidewinder generator: the close-out *)

Section Sidewinder_step.
Variables (base Rn Cn : nat).
Hypothesis Cn_pos : 0 < Cn.
Implicit Types (h : list Rect.RectangleCell) (rnd : Rand) (i j : nat).

(** [a.Link(b)] between two distinct cells of the grid, seen through
    [Linked] afterwards. *)
Lemma rect_ok_Link_seen h i j i' j' :
  i < Rn → j < Cn → i' < Rn → j' < Cn → (i, j) ≠ (i', j') →
  rect_ok base Rn Cn h →
  ∃ h', Rect.RectangleCell_Link (Some (addr base Cn i j))
          (Rect.RectPtr (Some (addr base Cn i' j'))) h = Ok h'
        ∧ rect_ok base Rn Cn h'
        ∧ Rect.RectangleCell_Linked (Some (addr base Cn i j))
            (Rect.RectPtr (Some (addr base Cn i' j'))) h' = Ok true.
Proof.
  intros Hi Hj Hi' Hj' Hne Hok.
  destruct (rect_ok_Link base Rn Cn h i j i' j' Hi Hj Hi' Hj' Hok)
    as (h' & EL & Hok').
  exists h'. split_and!; [done..|].
  destruct (Hok i j Hi Hj) as (ma & Ea).
  destruct (Hok i' j' Hi' Hj') as (mb & Eb).
  assert (Hab : addr base Cn i j ≠ addr base Cn i' j').
  { intros [? ?]%addr_inj; [|done..]. destruct Hne. by f_equal. }
  destruct (RectangleCell_Link_lookup h _ _ _ _ Ea Eb Hab)
    as (h2 & EL2 & Ea2 & _).
  rewrite EL in EL2. injection EL2 as <-.
  rewrite CellBase_Linked_lookup, Ea2 by done.
  cbn [Rect.with_links Rect.base Rect.links]. by rewrite lookup_insert_eq.
Qed.

(** One cell of the inner loop on a grid: what it decides, which member
    it draws, and the link that [Linked] shows afterwards. *)
Lemma Sidewinder_cell_seen i j row h rnd closed :
  i < Rn → j < Cn →
  (∀ k, k < Cn → row !! k = Some (Some (addr base Cn i k))) →
  length row = Cn →
  rect_ok base Rn Cn h →
  ∃ c close rnd1 h2 rnd2 closed',
    load (Some (addr base Cn i j)) h = Ok c
    ∧ shouldCloseOut c rnd = Ok (close, rnd1)
    ∧ Sidewinder_cell (Some (addr base Cn i j)) (take j row, h, rnd, closed)
      = Ok (take (S j) row, h2, rnd2, closed')
    ∧ rect_ok base Rn Cn h2
    ∧ if close : bool then
        closed' = closed ++ [take (S j) row]
        ∧ ∃ v member m,
            Intn (Z.of_nat (S j)) rnd1 = Ok (v, rnd2)
            ∧ take (S j) row !! Z.to_nat v = Some member
            ∧ load member h = Ok m
            ∧ (Rect.North m ≠ nilptr →
               Rect.RectangleCell_Linked member
                 (Rect.RectPtr (Rect.North m)) h2 = Ok true)
            ∧ (Rect.North m = nilptr → h2 = h)
      else
        closed' = closed ∧ rnd2 = rnd1
        ∧ Rect.East c ≠ nilptr
        ∧ Rect.RectangleCell_Linked (Some (addr base Cn i j))
            (Rect.RectPtr (Rect.East c)) h2 = Ok true.
Proof.
  intros Hi Hj Hrow Hlen Hok.
  destruct (Hok i j Hi Hj) as (m & Ec).
  set (c := Rect.with_links m (configured base Rn Cn i j)) in *.
  assert (Hclose : ∀ rnd1,
    ∃ h2 rnd2,
      closeOut (take (S j) row) h rnd1 = Ok (h2, rnd2)
      ∧ rect_ok base Rn Cn h2
      ∧ ∃ v member m0,
          Intn (Z.of_nat (S j)) rnd1 = Ok (v, rnd2)
          ∧ take (S j) row !! Z.to_nat v = Some member
          ∧ load member h = Ok m0
          ∧ (Rect.North m0 ≠ nilptr →
             Rect.RectangleCell_Linked member
               (Rect.RectPtr (Rect.North m0)) h2 = Ok true)
          ∧ (Rect.North m0 = nilptr → h2 = h)).
  { intros rnd1. unfold closeOut. rewrite length_take_le by lia.
    destruct (Intn_pos (Z.of_nat (S j)) rnd1) as (v & Ev & Hv); [lia|].
    rewrite Ev, bind_Ok_l. cbv beta iota.
    assert (Em : take (S j) row !! Z.to_nat v
                 = Some (Some (addr base Cn i (Z.to_nat v)))).
    { rewrite lookup_take_lt by lia. apply Hrow. lia. }
    rewrite (index_Ok_Z _ _ _ (proj1 Hv) Em), bind_Ok_l.
    destruct (Hok i (Z.to_nat v)) as (mv & Ev'); [done|lia|].
    rewrite (load_Some _ _ _ Ev'), bind_Ok_l.
    rewrite Rect_North_configured, cell_at_north by lia.
    destruct (decide (0 < i)) as [Hpos|Hz].
    - rewrite decide_True by done.
      destruct (rect_ok_Link_seen h i (Z.to_nat v) (i - 1) (Z.to_nat v))
        as (h' & -> & Hok' & HL); [lia..| |done|].
      { intros [= ?]. lia. }
      rewrite !bind_Ok_l. eexists _, _. split_and!; [done|done|].
      eexists v, _, _. split_and!; [done|done|by apply load_Some| |].
      + intros _. rewrite Rect_North_configured, cell_at_north by lia.
        by rewrite decide_True.
      + rewrite Rect_North_configured, cell_at_north by lia.
        by rewrite decide_True.
    - rewrite decide_False by (by intros []).
      eexists _, _. split_and!; [done|done|].
      eexists v, _, _. split_and!; [done|done|by apply load_Some| |done].
      rewrite Rect_North_configured, cell_at_north by lia.
      by rewrite decide_False. }
  assert (Heast : j + 1 < Cn →
    ∃ h2,
      Rect.RectangleCell_Link (Some (addr base Cn i j))
        (Rect.RectPtr (Rect.East c)) h = Ok h2
      ∧ rect_ok base Rn Cn h2
      ∧ Rect.East c ≠ nilptr
      ∧ Rect.RectangleCell_Linked (Some (addr base Cn i j))
          (Rect.RectPtr (Rect.East c)) h2 = Ok true).
  { intros Hlt. unfold c.
    rewrite Rect_East_configured, cell_at_east, decide_True by done.
    destruct (rect_ok_Link_seen h i j i (j + 1))
      as (h' & -> & Hok' & HL); [lia..| |done|].
    { intros [= ?]. lia. }
    by eexists. }
  assert (Hcell : ∀ close rnd1,
    shouldCloseOut c rnd = Ok (close, rnd1) →
    Sidewinder_cell (Some (addr base Cn i j)) (take j row, h, rnd, closed)
    = if close then
        closeOut (take (S j) row) h rnd1
        ≫= λ '(h', rnd'),
             Ok (take (S j) row, h', rnd', closed ++ [take (S j) row])
      else
        Rect.RectangleCell_Link (Some (addr base Cn i j))
          (Rect.RectPtr (Rect.East c)) h
        ≫= λ h', Ok (take (S j) row, h', rnd1, closed)).
  { intros close rnd1 Es. unfold Sidewinder_cell.
    rewrite (load_Some _ _ _ Ec), bind_Ok_l. cbv zeta.
    rewrite <-(take_S_r row j _ (Hrow j Hj)).
    fold c. rewrite Es, bind_Ok_l. cbv beta iota. by destruct close. }
  assert (Hdec : ∃ close rnd1,
    shouldCloseOut c rnd = Ok (close, rnd1)
    ∧ (close = false → j + 1 < Cn)).
  { unfold c. rewrite (shouldCloseOut_grid base Rn Cn) by done.
    destruct (decide (j + 1 < Cn)) as [Hlt|Hge].
    - destruct (decide (0 < i)) as [Hpos|Hz].
      + destruct (Intn_pos 2 rnd) as (coin & -> & Hcoin); [lia|].
        rewrite bind_Ok_l. cbv beta iota. by eexists _, _.
      + by eexists _, _.
    - eexists _, _. split; [done|]. done. }
  destruct Hdec as (close & rnd1 & Es & Hfalse).
  exists c, close, rnd1.
  destruct close.
  - destruct (Hclose rnd1) as (h2 & rnd2 & EC & Hok2 & Hmem).
    exists h2, rnd2, (closed ++ [take (S j) row]).
    split_and!; [by apply load_Some|done| |done|done|done].
    by rewrite (Hcell true rnd1 Es), EC, bind_Ok_l.
  - destruct (Heast (Hfalse eq_refl)) as (h2 & EL & Hok2 & HE & HL).
    exists h2, rnd1, closed.
    split_and!; [by apply load_Some|done| |done..].
    by rewrite (Hcell false rnd1 Es), EL, bind_Ok_l.
Qed.

End Sidewinder_step.

(** C6 (the code departs from it in the member it draws): the run is
    closed iff the cell has no East neighbour, or has a North neighbour
    and the coin, one draw of [Intn(2)], gives 0; no coin is drawn when
    the East or the North neighbour is missing.  On a grid, a cell that
    does not close is [Linked] to its East neighbour afterwards; on close
    a member is drawn with bound [len(run)] and is [Linked] to its North
    neighbour afterwards when it has one, the heap being left as it is
    otherwise; the first row is closed out once, at its end.  But [run] is
    the whole part of the row done so far, never emptied: on the grid of
    two rows and two columns, with all draws 0, the run closed at the
    first cell of the second row is still in [run] at the second cell,
    the member drawn there is the first cell again, and the second cell,
    the only one since the last close-out, is left unlinked to its North
    neighbour. *)
Theorem Sidewinder_close_decision :
  (∀ c rnd,
     ∃ close rnd',
       shouldCloseOut c rnd = Ok (close, rnd')
       ∧ (close = true
          ↔ Rect.East c = nilptr
            ∨ (Rect.North c ≠ nilptr ∧ ∃ r, Intn 2 rnd = Ok (0%Z, r)))
       ∧ (Rect.East c = nilptr ∨ Rect.North c = nilptr → rnd' = rnd)
       ∧ (Rect.East c ≠ nilptr → Rect.North c ≠ nilptr →
          ∃ coin, Intn 2 rnd = Ok (coin, rnd')
                  ∧ draws rnd' = S (draws rnd)))
  ∧ (∀ R C h0,
       (1 ≤ R ≤ max_int64)%Z → (1 ≤ C ≤ max_int64)%Z →
       ∃ g h,
         NewGrid R C h0 = Ok (g, h)
         ∧ (∀ h1 rnd closed i j row cell,
              same_rect_cells h h1 →
              AllRows g !! i = Some row → row !! j = Some cell →
              ∃ c close rnd1 h2 rnd2 closed',
                load cell h1 = Ok c
                ∧ shouldCloseOut c rnd = Ok (close, rnd1)
                ∧ Sidewinder_cell cell (take j row, h1, rnd, closed)
                  = Ok (take (S j) row, h2, rnd2, closed')
                ∧ if close : bool then
                    closed' = closed ++ [take (S j) row]
                    ∧ ∃ v member m,
                        Intn (Z.of_nat (length (take (S j) row))) rnd1
                        = Ok (v, rnd2)
                        ∧ take (S j) row !! Z.to_nat v = Some member
                        ∧ load member h1 = Ok m
                        ∧ (Rect.North m ≠ nilptr →
                           Rect.RectangleCell_Linked member
                             (Rect.RectPtr (Rect.North m)) h2 = Ok true)
                        ∧ (Rect.North m = nilptr → h2 = h1)
                  else
                    closed' = closed ∧ rnd2 = rnd1
                    ∧ Rect.East c ≠ nilptr
                    ∧ Rect.RectangleCell_Linked cell
                        (Rect.RectPtr (Rect.East c)) h2 = Ok true)
         ∧ ∀ rnd,
             ∃ h' rnd' runs row0,
               Sidewinder g h rnd = Ok (h', rnd', runs)
               ∧ AllRows g !! 0 = Some row0
               ∧ runs !! 0 = Some [row0])
  ∧ (∀ (run : list ptr) k d,
       k < length run →
       ∃ tape rnd',
         Intn (Z.of_nat (length run)) (mkRand tape d) = Ok (Z.of_nat k, rnd'))
  ∧ ∃ g h h1 rnd1 h2 rnd2 rnd3 c3,
      NewGrid (cell := Rect.RectangleCell) 2 2 [] = Ok (g, h)
      ∧ AllRows g = [[Some 0; Some 1]; [Some 2; Some 3]]
      ∧ Sidewinder_row [Some 0; Some 1] (h, mkRand [0; 0; 0; 0]%Z 0, [])
        = Ok (h1, rnd1, [[[Some 0; Some 1]]])
      ∧ Sidewinder_cell (Some 2) ([], h1, rnd1, [])
        = Ok ([Some 2], h2, rnd2, [[Some 2]])
      ∧ Sidewinder_cell (Some 3) ([Some 2], h2, rnd2, [[Some 2]])
        = Ok ([Some 2; Some 3], h2, rnd3, [[Some 2]; [Some 2; Some 3]])
      ∧ Intn (Z.of_nat (length [Some 2; Some 3])) rnd2 = Ok (0%Z, rnd3)
      ∧ index [Some 2; Some 3] 0 = Ok (Some 2)
      ∧ closeOut [Some 2; Some 3] h2 rnd2 = Ok (h2, rnd3)
      ∧ load (Some 3) h2 = Ok c3
      ∧ Rect.North c3 = Some 1
      ∧ Rect.links (Rect.base c3) = ∅
      ∧ Rect.RectangleCell_Linked (Some 3) (Rect.RectPtr (Rect.North c3)) h2
        = Ok false
      ∧ Sidewinder g h (mkRand [0; 0; 0; 0]%Z 0)
        = Ok (h2, rnd3, [[[Some 0; Some 1]]; [[Some 2]; [Some 2; Some 3]]]).
Proof.
  split_and!.
  - apply shouldCloseOut_spec.
  - intros R C h0 HR HC.
    destruct (NewGrid_rect_ok R C h0 ltac:(lia) ltac:(lia))
      as (g & h & E & Hg & Hok).
    set (base := length h0) in *.
    set (Rn := Z.to_nat R) in *. set (Cn := Z.to_nat C) in *.
    exists g, h. split_and!; [done| |].
    + intros h1 rnd closed i j row cell Hsame Ei Ej.
      destruct (grid_ok_lookup _ _ _ _ _ _ _ _ Hg Ei Ej) as (Hi & Hj & ->).
      pose proof (grid_ok_row_length _ _ _ _ _ _ Hg Ei) as Hlen.
      assert (Hrow : ∀ k, k < Cn →
                row !! k = Some (Some (addr base Cn i k))).
      { intros k Hk. destruct (lookup_lt_is_Some_2 row k) as [x Ex]; [lia|].
        by destruct (grid_ok_lookup _ _ _ _ _ _ _ _ Hg Ei Ex)
          as (_ & _ & ->). }
      assert (Hok1 : rect_ok base Rn Cn h1).
      { intros i2 j2 Hi2 Hj2. destruct (Hok i2 j2 Hi2 Hj2) as (m & Em).
        destruct (Hsame _ _ Em) as (m' & Em'). exists m'.
        by rewrite Em', Rect_with_links_with_links. }
      destruct (Sidewinder_cell_seen base Rn Cn ltac:(lia) i j row h1 rnd
                  closed Hi Hj Hrow Hlen Hok1)
        as (c & close & rnd1 & h2 & rnd2 & closed' & Ec & Es & ES & _ & Hif).
      exists c, close, rnd1, h2, rnd2, closed'.
      split_and!; [done..|].
      rewrite length_take_le by lia. done.
    + intros rnd.
      destruct (Sidewinder_total base Rn Cn g ltac:(lia) Hg h rnd Hok)
        as (h' & rnd' & runs & ES & Hlen & Hruns).
      pose proof Hg as (_ & _ & Hl & _).
      destruct (lookup_lt_is_Some_2 (AllRows g) 0) as [row0 E0];
        [unfold AllRows; lia|].
      destruct (lookup_lt_is_Some_2 runs 0) as [closed Ec];
        [rewrite Hlen; unfold AllRows; lia|].
      exists h', rnd', runs, row0. split_and!; [done..|].
      destruct (Hruns 0 row0 closed E0 Ec) as (_ & _ & H0).
      by rewrite Ec, H0.
  - intros run k d Hk. exists [Z.of_nat k]. eexists.
    unfold Intn. rewrite decide_False by lia. cbn [tape].
    by rewrite Z.mod_small by lia.
  - eexists _, _, _, _, _, _, _, _. split_and!.
    + vm_compute. reflexivity.
    + reflexivity.
    + vm_compute. reflexivity.
    + vm_compute. reflexivity.
    + vm_compute. reflexivity.
    + vm_compute. reflexivity.
    + vm_compute. reflexivity.
    + vm_compute. reflexivity.
    + vm_compute. reflexivity.
    + reflexivity.
    + vm_compute. reflexivity.
    + vm_compute. reflexivity.
    + vm_compute. reflexivity.
Qed.
